(** * dwi_ml: direction-getter heads, transformer length check and the
      tracking-validation driver

    Shallow embedding of
      - [dwi_ml/models/main_models.py] ([ModelAbstract])
      - [dwi_ml/models/direction_getter_models.py]
      - [dwi_ml/models/projects/transforming_tractography.py]
        ([AbstractTransformerModel.forward]: its checks, the padding of the
        batch, the padding mask, the unpadding of the outputs and
        [copy_prev_dir])
      - [dwi_ml/training/projects/trainers_for_generation.py]
        ([_update_states_from_checkpoint], [_prepare_checkpoint_info],
        [generate_from_one_batch])
      - [dwi_ml/data/dataset/single_subject_containers.py]

    Conventions of the embedding.
      - Float tensors are idealised as real-valued nested lists: a rank-1
        tensor is a [list R], a rank-2 tensor a [list (list R)]; rounding
        is not modelled.
      - Python exceptions are values of [exn]; a computation returns [res A]:
        a value, a raised exception, or [Diverge] when a [while True] loop
        has used up the fuel given to it.
      - A Python (torch) object is its attribute store, a [gmap string attr];
        a missing attribute raises [AttributeError] on access.
      - Randomness (initial weights, dropout masks, numpy draws) and code
        outside these files (the dipy sphere, the propagation engine, the
        parent trainer, the transformer layers) are explicit arguments.
      - The loss functions and the samplers of the classification and
        Gaussian heads are not embedded; no property below concerns them.
      - A rank-2 tensor without rows does not record the size of its
        feature axis; the functions that create rows take it as an
        argument. *)

From Stdlib Require Import Reals Lra Lia ZArith List.
From stdpp Require Import gmap strings list fin_maps.
Import ListNotations.

Local Open Scope string_scope.
Local Open Scope list_scope.

(** ** Exceptions and results *)

Inductive exn : Type :=
| NotImplementedError (msg : string)
| ValueError (msg : string)
| AttributeError (attribute : string)
| KeyError (key : string)
| IndexError
| AssertionError
| RuntimeError (msg : string).

Inductive res (A : Type) : Type :=
| Ok (a : A)
| Raise (e : exn)
| Diverge.
Arguments Ok {A} a.
Arguments Raise {A} e.
Arguments Diverge {A}.

#[global] Instance res_ret : MRet res := fun A a => Ok a.
#[global] Instance res_bind : MBind res := fun A B k m =>
  match m with
  | Ok a => k a
  | Raise e => Raise e
  | Diverge => Diverge
  end.

Definition returns {A : Type} (m : res A) : Prop := exists a, m = Ok a.
Definition raises {A : Type} (m : res A) : Prop := exists e, m = Raise e.

(** [mapM f l]: a Python list comprehension or [for] loop whose body may
    raise; the first exception aborts the traversal. *)
Fixpoint mapM {A B : Type} (f : A -> res B) (l : list A) : res (list B) :=
  match l with
  | [] => Ok []
  | a :: l' => b ← f a; bs ← mapM f l'; Ok (b :: bs)
  end.

(** ** Tensors

    Only the ranks the modelled code manipulates are represented. *)

Abbreviation vector := (list R).
Abbreviation matrix := (list (list R)).

Inductive Tensor : Type :=
| T1 (v : vector)
| T2 (m : matrix)
| T3 (c : list matrix).

#[global] Instance Rlt_decision (x y : R) : Decision (x < y)%R := Rlt_dec x y.
#[global] Instance Rgt_decision (x y : R) : Decision (x > y)%R := Rgt_dec x y.
#[global] Instance Rle_decision (x y : R) : Decision (x <= y)%R := Rle_dec x y.
#[global] Instance Rge_decision (x y : R) : Decision (x >= y)%R := Rge_dec x y.
#[global] Instance R_eq_decision : EqDecision R := Req_dec_T.

Definition Rsum (l : list R) : R := fold_right Rplus 0%R l.

(** [torch.matmul] / [np.dot] on two rank-1 operands. *)
Definition dot (u v : vector) : R := Rsum (zip_with Rmult u v).

(** [np.linalg.norm] and the 2-norm used by [torch]. *)
Definition norm (v : vector) : R := sqrt (dot v v).

Definition scale (a : R) (v : vector) : vector := map (Rmult a) v.
Definition vadd (u v : vector) : vector := zip_with Rplus u v.
Definition vsub (u v : vector) : vector := zip_with Rminus u v.

(** Shape [B, n] of a rank-2 tensor. *)
Definition has_shape (B n : nat) (m : matrix) : Prop :=
  length m = B /\ Forall (fun row => length row = n) m.

(** [t.squeeze(dim=-1)] on a rank-2 tensor: the trailing axis is dropped
    when it has size 1, otherwise the tensor is returned as it is. *)
Definition squeeze_last (m : matrix) : Tensor :=
  if forallb (fun row => Nat.eqb (length row) 1) m
  then T1 (map (fun row => hd 0%R row) m)
  else T2 m.

(** [t.squeeze(dim=1)]: a rank-1 tensor has no axis 1 and torch raises
    IndexError (dimension out of range); on higher ranks axis 1 is dropped
    when it has size 1 and the tensor is left alone otherwise. *)
Definition squeeze_dim1 (t : Tensor) : res Tensor :=
  match t with
  | T1 _ => Raise IndexError
  | T2 m => Ok (squeeze_last m)
  | T3 c =>
      if forallb (fun blk => Nat.eqb (length blk) 1) c
      then Ok (T2 (map (fun blk => hd [] blk) c))
      else Ok (T3 c)
  end.

(** First index of a maximal element ([argmax] returns the index of the
    first maximal value); [None] on an empty sequence. *)
Fixpoint argmax_from (i best : nat) (vbest : R) (l : list R) : nat :=
  match l with
  | [] => best
  | x :: l' =>
      if decide (vbest < x)%R then argmax_from (S i) i x l'
      else argmax_from (S i) best vbest l'
  end.

Definition argmax (l : list R) : option nat :=
  match l with
  | [] => None
  | x :: l' => Some (argmax_from 1 0 x l')
  end.

(** ** torch.nn.Linear

    The weights are a function of (output row, input column), so that the
    layer's output always has [out_features] entries. *)

Record Linear : Type := mkLinear {
  in_features : Z;
  out_features : Z;
  weight : nat -> nat -> R;
  bias : nat -> R
}.

(** What [torch.nn.Linear(i, o)] draws for its initial weight and bias. *)
Definition LinearInit : Type := ((nat -> nat -> R) * (nat -> R))%type.

Definition new_Linear (w : LinearInit) (i o : Z) : res Linear :=
  if decide (0 <= i /\ 0 <= o)%Z
  then Ok (mkLinear i o (fst w) (snd w))
  else Raise (RuntimeError "Trying to create tensor with negative dimension").

Definition Linear_row (h : Linear) (x : vector) : res vector :=
  if decide (Z.of_nat (length x) = in_features h)
  then Ok (map (fun i => (dot (map (weight h i) (seq 0 (length x))) x
                          + bias h i)%R)
               (seq 0 (Z.to_nat (out_features h))))
  else Raise (RuntimeError "mat1 and mat2 shapes cannot be multiplied").

Definition Linear_call (h : Linear) (x : matrix) : res matrix :=
  mapM (Linear_row h) x.

(** [ceil(input_size / 2)] on a Python int. *)
Definition ceil_half (n : Z) : Z := (- ((- n) / 2))%Z.

(** [init_2layer_fully_connected]: input_size --> ceil(input_size/2) -->
    output_size. [w1], [w2] are the initial weights torch draws. *)
Definition init_2layer_fully_connected (w1 w2 : LinearInit)
    (input_size output_size : Z) : res (list Linear) :=
  let h1_size := ceil_half input_size in
  h1 ← new_Linear w1 input_size h1_size;
  h2 ← new_Linear w2 h1_size output_size;
  Ok [h1; h2].

(** ** Python objects as attribute stores *)

Inductive attr : Type :=
| VNone
| VBool (b : bool)
| VInt (z : Z)
| VFloat (x : R)
| VStr (s : string)
| VLogger
| VReLU
| VDropout (p : R)
| VIdentity
| VLoss (name : string)
| VModuleList (layers : list Linear)
| VTensor (device : string) (m : matrix).

Abbreviation object := (gmap string attr).

Definition getattr (self : object) (name : string) : res attr :=
  match self !! name with
  | Some v => Ok v
  | None => Raise (AttributeError name)
  end.

Definition setattr (self : object) (name : string) (v : attr) : object :=
  <[name := v]> self.

Definition get_layers (self : object) (name : string) : res (list Linear) :=
  v ← getattr self name;
  match v with
  | VModuleList ls => Ok ls
  | _ => Raise (RuntimeError "not a ModuleList")
  end.

Definition get_tensor (self : object) (name : string)
  : res (string * matrix) :=
  v ← getattr self name;
  match v with
  | VTensor device m => Ok (device, m)
  | _ => Raise (RuntimeError "not a tensor")
  end.

(** ** main_models.py *)

Module ModelAbstract.

(** [torch.nn.Module.__init__] puts the module in training mode; then
    [self.log = logging.getLogger()]. *)
Definition __init__ : object :=
  setattr (setattr ∅ "training" (VBool true)) "log" VLogger.

End ModelAbstract.

(** ** direction_getter_models.py *)

(** Python truth value of the [dropout] argument ([None] or a float). *)
Definition truthy (dropout : option R) : bool :=
  match dropout with
  | None => false
  | Some p => bool_decide (p <> 0%R)
  end.

(** [dropout < 0 or dropout > 1]; only evaluated on a truthy [dropout]. *)
Definition out_of_unit_range (dropout : option R) : bool :=
  match dropout with
  | None => false
  | Some p => bool_decide (p < 0)%R || bool_decide (p > 1)%R
  end.

Definition attr_of_float (x : option R) : attr :=
  match x with
  | None => VNone
  | Some p => VFloat p
  end.

(** A draw of torch's Dropout: which entries (row, column) are kept. *)
Definition DropoutMask : Type := nat -> nat -> bool.

Module AbstractDirectionGetterModel.

Definition __init__ (input_size : Z) (dropout : option R) (key : string)
    (supports_compressed_streamlines : bool) (loss_description : string)
  : res object :=
  let self := ModelAbstract.__init__ in
  let self := setattr self "input_size" (VInt input_size) in
  let self := setattr self "key" (VStr key) in
  let self := setattr self "supports_compressed_streamlines"
                (VBool supports_compressed_streamlines) in
  let self := setattr self "loss_description" (VStr loss_description) in
  if truthy dropout && out_of_unit_range dropout
  then Raise (ValueError "Dropout rate should be between 0 and 1.")
  else
    let self := setattr self "dropout" (attr_of_float dropout) in
    let self := if truthy dropout
                then setattr self "dropout_sublayer"
                       (VDropout (default 0%R dropout))
                else setattr self "dropout_sublayer" VIdentity in
    Ok (setattr self "relu_sublayer" VReLU).

(** [self.relu_sublayer(pre_act)] *)
Definition relu_sublayer (self : object) (pre_act : matrix) : res matrix :=
  f ← getattr self "relu_sublayer";
  match f with
  | VReLU => Ok (map (map (Rmax 0)) pre_act)
  | _ => Raise (RuntimeError "relu_sublayer is not callable")
  end.

(** [self.dropout_sublayer(act)]: the identity lambda, or torch's Dropout(p),
    which in training mode zeroes the entries that are not kept and scales
    the others by 1/(1-p), and is the identity in evaluation mode. *)
Definition dropout_sublayer (keep : DropoutMask) (self : object)
    (act : matrix) : res matrix :=
  f ← getattr self "dropout_sublayer";
  match f with
  | VIdentity => Ok act
  | VDropout p =>
      t ← getattr self "training";
      match t with
      | VBool true =>
          Ok (imap (fun i row =>
                      imap (fun j x => if keep i j then (x / (1 - p))%R
                                       else 0%R) row) act)
      | _ => Ok act
      end
  | _ => Raise (RuntimeError "dropout_sublayer is not callable")
  end.

(** [loop_on_layers]: layer, ReLU and dropout for every layer but the last,
    then the last layer alone. [keep k] is the dropout draw of layer [k]. *)
Fixpoint loop_on_layers_from (keep : nat -> DropoutMask) (self : object)
    (k : nat) (layer_inputs : matrix) (layers : list Linear) : res matrix :=
  match layers with
  | [] => Raise IndexError
  | h :: rest =>
      match rest with
      | [] => Linear_call h layer_inputs
      | _ :: _ =>
          pre_act ← Linear_call h layer_inputs;
          act ← relu_sublayer self pre_act;
          drop ← dropout_sublayer (keep k) self act;
          loop_on_layers_from keep self (S k) drop rest
      end
  end.

Definition loop_on_layers (keep : nat -> DropoutMask) (self : object)
    (inputs : matrix) (layers : list Linear) : res matrix :=
  loop_on_layers_from keep self 0 inputs layers.

Definition forward (self : object) (inputs : matrix) : res matrix :=
  Raise (NotImplementedError "").

Definition sample_tracking_direction_prob (self : object)
    (outputs : matrix) : res matrix :=
  Raise (NotImplementedError "").

Definition get_tracking_direction_det (self : object)
    (outputs : matrix) : res matrix :=
  Raise (NotImplementedError "").

(** The [params] property: what is needed to create the same model again,
    then the key and the loss description for the logs. *)
Definition params (self : object) : res (gmap string attr) :=
  input_size ← getattr self "input_size";
  dropout ← getattr self "dropout";
  let params := <["dropout" := dropout]> (<["input_size" := input_size]> ∅) in
  key ← getattr self "key";
  loss ← getattr self "loss_description";
  Ok (<["loss" := loss]> (<["key" := key]> params)).

End AbstractDirectionGetterModel.

Module CosineRegressionDirectionGetter.

Definition __init__ (w : nat -> LinearInit) (input_size : Z)
    (dropout : option R) : res object :=
  self ← AbstractDirectionGetterModel.__init__ input_size dropout
           "cosine-regression" false "negative cosine similarity";
  layers ← init_2layer_fully_connected (w 0%nat) (w 1%nat) input_size 3;
  let self := setattr self "layers" (VModuleList layers) in
  Ok (setattr self "loss" (VLoss "CosineSimilarity")).

Definition forward (keep : nat -> DropoutMask) (self : object)
    (inputs : matrix) : res matrix :=
  layers ← get_layers self "layers";
  AbstractDirectionGetterModel.loop_on_layers keep self inputs layers.

Definition sample_tracking_direction_prob (self : object)
    (learned_directions : matrix) : res matrix :=
  Raise (NotImplementedError
           "This regression model does not support probabilistic tractography.").

Definition get_tracking_direction_det (self : object)
    (learned_directions : matrix) : res matrix :=
  Ok learned_directions.

End CosineRegressionDirectionGetter.

Module L2RegressionDirectionGetter.

Definition __init__ (w : nat -> LinearInit) (input_size : Z)
    (dropout : option R) : res object :=
  self ← AbstractDirectionGetterModel.__init__ input_size dropout
           "l2-regression" true "torch's pairwise distance";
  layers ← init_2layer_fully_connected (w 0%nat) (w 1%nat) input_size 3;
  let self := setattr self "layers" (VModuleList layers) in
  Ok (setattr self "loss" (VLoss "PairwiseDistance")).

Definition forward (keep : nat -> DropoutMask) (self : object)
    (inputs : matrix) : res matrix :=
  layers ← get_layers self "layers";
  AbstractDirectionGetterModel.loop_on_layers keep self inputs layers.

Definition sample_tracking_direction_prob (self : object)
    (learned_directions : matrix) : res matrix :=
  Raise (NotImplementedError
           "This regression model does not support probabilistic tractography.").

Definition get_tracking_direction_det (self : object)
    (learned_directions : matrix) : res matrix :=
  Ok learned_directions.

End L2RegressionDirectionGetter.

(** [t.type(torch.int16)] on an integer index: wrap-around to 16 bits. *)
Definition to_int16 (z : Z) : Z := ((z + 32768) mod 65536 - 32768)%Z.

(** [torch.matmul(a, b.t())] for [a] of shape [B, d] and [b] of shape
    [C, d]: entry (i, j) is the dot product of row i of [a] with row j of
    [b]; the inner sizes must agree. *)
Definition matmul_t (a b : matrix) : res matrix :=
  mapM (fun row =>
          if forallb (fun col => Nat.eqb (length col) (length row)) b
          then Ok (map (dot row) b)
          else Raise (RuntimeError "mat1 and mat2 shapes cannot be multiplied"))
       a.

(** [torch.argmax(t, dim=-1)] on a rank-2 tensor; a reduction over an axis
    of size 0 raises IndexError. *)
Definition argmax_last (t : matrix) : res (list nat) :=
  mapM (fun row => match argmax row with
                   | Some i => Ok i
                   | None => Raise IndexError
                   end) t.

Module SphereClassificationDirectionGetter.

Section WithSphere.

(** [dipy.data.get_sphere(name).vertices] *)
Variable get_sphere : string -> res matrix.

Definition __init__ (w : nat -> LinearInit) (input_size : Z)
    (dropout : option R) (sphere : string) : res object :=
  self ← AbstractDirectionGetterModel.__init__ input_size dropout
           "sphere-classification" false "negative log-likelihood";
  let self := setattr self "sphere_name" (VStr sphere) in
  sphere_vertices ← get_sphere sphere;
  let self := setattr self "sphere" (VTensor "cpu" sphere_vertices) in
  let self := setattr self "vertices" (VTensor "cpu" sphere_vertices) in
  let nb_classes := Z.of_nat (length sphere_vertices) in
  layers ← init_2layer_fully_connected (w 0%nat) (w 1%nat) input_size
             nb_classes;
  Ok (setattr self "layers" (VModuleList layers)).

End WithSphere.

Definition forward (keep : nat -> DropoutMask) (self : object)
    (inputs : matrix) : res matrix :=
  layers ← get_layers self "layers";
  AbstractDirectionGetterModel.loop_on_layers keep self inputs layers.

(** [self.vertices[logits_per_class.argmax()]]: [argmax()] without [dim]
    is the index of the first maximum of the flattened tensor, a 0-dim
    index; indexing [vertices] with it yields one row, a rank-1 tensor. *)
Definition get_tracking_direction_det (self : object)
    (logits_per_class : matrix) : res Tensor :=
  '(_, vertices) ← get_tensor self "vertices";
  match argmax (concat logits_per_class) with
  | None => Raise (RuntimeError "argmax(): input has no element")
  | Some idx =>
      match vertices !! idx with
      | Some vertex => Ok (T1 vertex)
      | None => Raise IndexError
      end
  end.

(** [_find_closest_vertex]: moves the vertices to the device of
    [directions] when they differ, then takes, per direction, the arg-max
    of its dot products with the vertices, as int16. Returns the updated
    object with the indices. *)
Definition _find_closest_vertex (self : object) (directions_device : string)
    (directions : matrix) : res (object * list Z) :=
  '(device, vertices) ← get_tensor self "vertices";
  let self := if bool_decide (device <> directions_device)
              then setattr self "vertices"
                     (VTensor directions_device vertices)
              else self in
  '(_, vertices) ← get_tensor self "vertices";
  cosine_similarity ← matmul_t directions vertices;
  index ← argmax_last cosine_similarity;
  Ok (self, map (fun i => to_int16 (Z.of_nat i)) index).

Definition params (self : object) : res (gmap string attr) :=
  params ← AbstractDirectionGetterModel.params self;
  sphere ← getattr self "sphere_name";
  Ok (<["sphere" := sphere]> params).

End SphereClassificationDirectionGetter.

Module SingleGaussianDirectionGetter.

Definition __init__ (w : nat -> LinearInit) (input_size : Z)
    (dropout : option R) : res object :=
  self ← AbstractDirectionGetterModel.__init__ input_size dropout
           "gaussian" true "negative log-likelihood";
  layers_mean ← init_2layer_fully_connected (w 0%nat) (w 1%nat) input_size 3;
  let self := setattr self "layers_mean" (VModuleList layers_mean) in
  layers_sigmas ← init_2layer_fully_connected (w 2%nat) (w 3%nat)
                    input_size 3;
  Ok (setattr self "layers_sigmas" (VModuleList layers_sigmas)).

Definition forward (keep : nat -> nat -> DropoutMask) (self : object)
    (inputs : matrix) : res (matrix * matrix) :=
  layers_mean ← get_layers self "layers_mean";
  means ← AbstractDirectionGetterModel.loop_on_layers (keep 0%nat) self
            inputs layers_mean;
  layers_sigma ← get_layers self "layers_sigma";
  log_sigmas ← AbstractDirectionGetterModel.loop_on_layers (keep 1%nat) self
                 inputs layers_sigma;
  let sigmas := map (map exp) log_sigmas in
  Ok (means, sigmas).

Definition get_tracking_direction_det (self : object)
    (learned_gaussian_params : matrix * matrix) : res matrix :=
  Raise (NotImplementedError "").

End SingleGaussianDirectionGetter.

Module GaussianMixtureDirectionGetter.

Definition __init__ (w : nat -> LinearInit) (input_size : Z)
    (dropout : option R) (nb_gaussians : Z) : res object :=
  self ← AbstractDirectionGetterModel.__init__ input_size dropout
           "gaussian-mixture" true "negative log-likelihood";
  let self := setattr self "nb_gaussians" (VInt nb_gaussians) in
  layers_mixture ← init_2layer_fully_connected (w 0%nat) (w 1%nat)
                     input_size (1 * nb_gaussians);
  let self := setattr self "layers_mixture" (VModuleList layers_mixture) in
  layers_mean ← init_2layer_fully_connected (w 2%nat) (w 3%nat)
                  input_size (3 * nb_gaussians);
  let self := setattr self "layers_mean" (VModuleList layers_mean) in
  layers_sigmas ← init_2layer_fully_connected (w 4%nat) (w 5%nat)
                    input_size (3 * nb_gaussians);
  Ok (setattr self "layers_sigmas" (VModuleList layers_sigmas)).

Definition forward (keep : nat -> nat -> DropoutMask) (self : object)
    (inputs : matrix) : res (matrix * matrix * matrix) :=
  layers_mixture ← get_layers self "layers_mixture";
  mixture_logits ← AbstractDirectionGetterModel.loop_on_layers (keep 0%nat)
                     self inputs layers_mixture;
  layers_mean ← get_layers self "layers_mean";
  means ← AbstractDirectionGetterModel.loop_on_layers (keep 1%nat) self
            inputs layers_mean;
  layers_sigma ← get_layers self "layers_sigma";
  log_sigmas ← AbstractDirectionGetterModel.loop_on_layers (keep 2%nat) self
                 inputs layers_sigma;
  let sigmas := map (map exp) log_sigmas in
  Ok (mixture_logits, means, sigmas).

Definition get_tracking_direction_det (self : object)
    (learned_gaussian_params : matrix * matrix * matrix) : res matrix :=
  Raise (NotImplementedError "").

Definition params (self : object) : res (gmap string attr) :=
  params ← AbstractDirectionGetterModel.params self;
  nb_gaussians ← getattr self "nb_gaussians";
  Ok (<["nb_gaussians" := nb_gaussians]> params).

End GaussianMixtureDirectionGetter.

(** numpy's global random state, as the streams of the draws still to
    come: [np.random.beta(1., 1.)], [np.random.uniform(0, 1)] and the
    standard normal draws of [np.random.randn]. *)
Record RandomState : Type := mkRandomState {
  beta_draws : nat -> R;
  uniform_draws : nat -> R;
  randn_draws : nat -> R
}.

Definition shift (k : nat) (s : nat -> R) : nat -> R := fun n => s (n + k)%nat.

Definition random_beta (rs : RandomState) : R * RandomState :=
  (beta_draws rs 0%nat,
   mkRandomState (shift 1 (beta_draws rs)) (uniform_draws rs)
     (randn_draws rs)).

Definition random_uniform (rs : RandomState) : R * RandomState :=
  (uniform_draws rs 0%nat,
   mkRandomState (beta_draws rs) (shift 1 (uniform_draws rs))
     (randn_draws rs)).

Definition random_randn (k : nat) (rs : RandomState) : vector * RandomState :=
  (map (randn_draws rs) (seq 0 k),
   mkRandomState (beta_draws rs) (uniform_draws rs)
     (shift k (randn_draws rs))).

(** [torch.nn.functional.normalize(v, dim=-1)]: v / max(||v||, 1e-12). *)
Definition normalize_eps : R := (/ 1000000000000)%R.

Definition normalize (v : vector) : vector :=
  map (fun x => (x / Rmax (norm v) normalize_eps)%R) v.

(** [torch.sigmoid] *)
Definition sigmoid (x : R) : R := (1 / (1 + exp (- x)))%R.

Module FisherVonMisesDirectionGetter.

Definition __init__ (w : nat -> LinearInit) (input_size : Z)
    (dropout : option R) : res object :=
  self ← AbstractDirectionGetterModel.__init__ input_size dropout
           "fisher-von-mises" false "negative log-likelihood";
  layers_mean ← init_2layer_fully_connected (w 0%nat) (w 1%nat) input_size 3;
  let self := setattr self "layers_mean" (VModuleList layers_mean) in
  layers_kappa ← init_2layer_fully_connected (w 2%nat) (w 3%nat)
                   input_size 1;
  Ok (setattr self "layers_kappa" (VModuleList layers_kappa)).

(** The output of the mean head before normalisation. *)
Definition raw_means (keep : nat -> nat -> DropoutMask) (self : object)
    (inputs : matrix) : res matrix :=
  layers_mean ← get_layers self "layers_mean";
  AbstractDirectionGetterModel.loop_on_layers (keep 0%nat) self inputs
    layers_mean.

Definition forward (keep : nat -> nat -> DropoutMask) (self : object)
    (inputs : matrix) : res (matrix * Tensor) :=
  means ← raw_means keep self inputs;
  let means := map normalize means in
  layers_kappa ← get_layers self "layers_kappa";
  unbound_kappa ← AbstractDirectionGetterModel.loop_on_layers (keep 1%nat)
                    self inputs layers_kappa;
  let kappas := map (map (fun x => (sigmoid x * 20)%R)) unbound_kappa in
  let kappas := squeeze_last kappas in
  Ok (means, kappas).

Definition get_tracking_direction_det (self : object)
    (learned_fisher_params : matrix * Tensor) : res matrix :=
  Raise (NotImplementedError "").

(** [_sample_weight]: the rejection loop, run for at most [fuel] rounds.
    [np.log(u)] is minus infinity at [u = 0], so that the test holds. *)
Fixpoint _sample_weight_loop (fuel : nat) (kappa b x c : R)
    (rs : RandomState) : res (R * RandomState) :=
  match fuel with
  | O => Diverge
  | S fuel' =>
      let '(z, rs) := random_beta rs in
      let w := ((1 - (1 + b) * z) / (1 - (1 - b) * z))%R in
      let '(u, rs) := random_uniform rs in
      if bool_decide (u <= 0)%R
         || bool_decide (kappa * w + 2 * ln (1 - x * w) - c >= ln u)%R
      then Ok (w, rs)
      else _sample_weight_loop fuel' kappa b x c rs
  end.

Definition _sample_weight (fuel : nat) (kappa : R) (rs : RandomState)
  : res (R * RandomState) :=
  let b := (2 / (sqrt (4 * kappa ^ 2 + 4) + 2 * kappa))%R in
  let x := ((1 - b) / (1 + b))%R in
  let c := (kappa * x + 2 * ln (1 - x ^ 2))%R in
  _sample_weight_loop fuel kappa b x c rs.

Definition _sample_orthonormal_to (mu : vector) (rs : RandomState)
  : vector * RandomState :=
  let '(v, rs) := random_randn (length mu) rs in
  let proj_mu_v := map (fun m => (m * dot mu v / norm mu)%R) mu in
  let orthto := vsub v proj_mu_v in
  (map (fun o => (o / norm orthto)%R) orthto, rs).

(** [result[i, :] = value] on a row of length 3: a value of length 1 is
    broadcast, any other length is refused by numpy. *)
Definition assign_row3 (value : vector) : res vector :=
  match value with
  | [_; _; _] => Ok value
  | [a] => Ok [a; a; a]
  | _ => Raise (ValueError "could not broadcast input array")
  end.

(** The body of the [for i, mu, kappa in zip(...)] loop, over the pairs
    that [zip] yields. *)
Fixpoint sample_rows (fuel : nat) (pairs : list (vector * R))
    (rs : RandomState) : res (matrix * RandomState) :=
  match pairs with
  | [] => Ok ([], rs)
  | (mu, kappa) :: pairs' =>
      '(w, rs) ← _sample_weight fuel kappa rs;
      let '(v, rs) := _sample_orthonormal_to mu rs in
      row ← assign_row3 (vadd (scale (sqrt (1 - w ^ 2)) v) (scale w mu));
      '(rows, rs) ← sample_rows fuel pairs' rs;
      Ok (row :: rows, rs)
  end.

Definition shape0 (t : Tensor) : nat :=
  match t with
  | T1 v => length v
  | T2 m => length m
  | T3 c => length c
  end.

(** [sample_tracking_direction_prob]. After the two [squeeze(dim=1)] the
    loop is modelled on the shapes it is written for (mus of rank 2,
    kappas of rank 1); on other ranks numpy raises inside the loop body or
    never accepts, and no direction is returned. Rows of [result] that
    [zip] does not reach keep their initial zeros; with no sample at all
    the loop body never runs. *)
Definition sample_tracking_direction_prob (fuel : nat)
    (learned_fisher_params : Tensor * Tensor) (rs : RandomState)
  : res (matrix * RandomState) :=
  let '(mus, kappas) := learned_fisher_params in
  let n_samples := shape0 mus in
  mus ← squeeze_dim1 mus;
  kappas ← squeeze_dim1 kappas;
  if Nat.eqb n_samples 0 then Ok ([], rs)
  else
    match mus, kappas with
    | T2 mus, T1 kappas =>
        let pairs := take n_samples (zip mus kappas) in
        '(rows, rs) ← sample_rows fuel pairs rs;
        Ok (rows ++ replicate (n_samples - length rows) [0; 0; 0]%R, rs)
    | _, _ => Raise (ValueError "unsupported operand shapes")
    end.

End FisherVonMisesDirectionGetter.

Module FisherVonMisesMixtureDirectionGetter.

Definition __init__ (w : nat -> LinearInit) (input_size : Z)
    (dropout : option R) (n_cluster : Z) : res object :=
  self ← AbstractDirectionGetterModel.__init__ input_size dropout
           "fisher-von-mises-mixture" false "negative log-likelihood";
  let self := setattr self "n_cluster" (VInt n_cluster) in
  Raise (NotImplementedError "").

Definition params (self : object) : res (gmap string attr) :=
  params ← AbstractDirectionGetterModel.params self;
  n_cluster ← getattr self "n_cluster";
  Ok (<["n_cluster" := n_cluster]> params).

End FisherVonMisesMixtureDirectionGetter.

(** The classes the registry maps to. *)
Inductive DirectionGetterClass : Type :=
| ClsCosineRegression
| ClsL2Regression
| ClsSphereClassification
| ClsSingleGaussian
| ClsGaussianMixture
| ClsFisherVonMises
| ClsFisherVonMisesMixture.

Definition keys_to_direction_getters : gmap string DirectionGetterClass :=
  <["cosine-regression" := ClsCosineRegression]>
  (<["l2-regression" := ClsL2Regression]>
  (<["sphere-classification" := ClsSphereClassification]>
  (<["gaussian" := ClsSingleGaussian]>
  (<["gaussian-mixture" := ClsGaussianMixture]>
  (<["fisher-von-mises" := ClsFisherVonMises]>
  (<["fisher-von-mises-mixture" := ClsFisherVonMisesMixture]> ∅)))))).

(** Keyword arguments of the constructors beyond input_size and dropout,
    with the defaults of the source. *)
Record CtorKwargs : Type := mkCtorKwargs {
  kw_sphere : string;
  kw_nb_gaussians : Z;
  kw_n_cluster : Z
}.

Definition default_kwargs : CtorKwargs := mkCtorKwargs "symmetric724" 3 3.

Section Instantiate.

Variable get_sphere : string -> res matrix.

(** [cls(input_size, dropout, **kw)] for a class of the registry. *)
Definition instantiate (cls : DirectionGetterClass) (w : nat -> LinearInit)
    (input_size : Z) (dropout : option R) (kw : CtorKwargs) : res object :=
  match cls with
  | ClsCosineRegression =>
      CosineRegressionDirectionGetter.__init__ w input_size dropout
  | ClsL2Regression =>
      L2RegressionDirectionGetter.__init__ w input_size dropout
  | ClsSphereClassification =>
      SphereClassificationDirectionGetter.__init__ get_sphere w input_size
        dropout (kw_sphere kw)
  | ClsSingleGaussian =>
      SingleGaussianDirectionGetter.__init__ w input_size dropout
  | ClsGaussianMixture =>
      GaussianMixtureDirectionGetter.__init__ w input_size dropout
        (kw_nb_gaussians kw)
  | ClsFisherVonMises =>
      FisherVonMisesDirectionGetter.__init__ w input_size dropout
  | ClsFisherVonMisesMixture =>
      FisherVonMisesMixtureDirectionGetter.__init__ w input_size dropout
        (kw_n_cluster kw)
  end.

End Instantiate.

(** ** transforming_tractography.py: the checks that open [forward] *)

(** A rank-2 tensor is the list of its rows, which keeps no trace of the
    size of the feature axis when there is no row: the functions that
    create rows take that size, [nb_features], as an argument. *)

(** [torch.nn.functional.pad(data, (0, 0, top, bottom))] on a tensor of
    shape [len, nb_features], as torch's constant_pad_nd does it: a
    negative amount removes rows; when no amount is positive the cropped
    tensor is returned; otherwise every padded axis must end up with a
    positive size, and rows of zeros are added. *)
Definition pad (nb_features : nat) (data : matrix) (top bottom : Z)
  : res matrix :=
  let len := Z.of_nat (length data) in
  let crop_top := Z.max 0 (- top) in
  let crop_bottom := Z.max 0 (- bottom) in
  if (len <? crop_top)%Z || (len - crop_top <? crop_bottom)%Z
  then Raise (RuntimeError "start + length exceeds dimension size")
  else
    let cropped :=
      take (Z.to_nat (len - crop_top - crop_bottom))
           (drop (Z.to_nat crop_top) data) in
    if (top <=? 0)%Z && (bottom <=? 0)%Z then Ok cropped
    else if Nat.eqb nb_features 0 || (len + top + bottom <=? 0)%Z
    then Raise (RuntimeError
           "The input size, plus negative padding, resulted in a negative output size")
    else
      let zeros := replicate nb_features 0%R in
      Ok (replicate (Z.to_nat top) zeros ++ cropped
          ++ replicate (Z.to_nat bottom) zeros).

Definition forward_padding (nb_features : nat) (data : matrix)
    (expected_length : Z) : res matrix :=
  pad nb_features data 0 (expected_length - Z.of_nat (length data)).

(** Size of the last axis, read on the first row. *)
Definition width (t : matrix) : nat :=
  match t with
  | [] => 0
  | row :: _ => length row
  end.

(** [torch.stack] of rank-2 tensors: refuses an empty list and tensors of
    different shapes. *)
Definition stack (data : list matrix) : res (list matrix) :=
  match data with
  | [] => Raise (RuntimeError "stack expects a non-empty TensorList")
  | first :: _ =>
      if forallb (fun t =>
                    Nat.eqb (length t) (length first)
                    && forallb (fun row => Nat.eqb (length row) (width first)) t)
                 data
      then Ok data
      else Raise (RuntimeError "stack expects each tensor to be equal size")
  end.

Definition pad_and_stack_batch (nb_features : nat) (data : list matrix)
    (pad_first : bool) (pad_length : Z) : res (list matrix) :=
  data ← (if pad_first
          then mapM (fun d => forward_padding nb_features d pad_length) data
          else Ok data);
  stack data.

(** Python's [t[i]]: a negative index counts from the end. *)
Definition getitem {A : Type} (t : list A) (i : Z) : res A :=
  let j := if (i <? 0)%Z then (Z.of_nat (length t) + i)%Z else i in
  if (j <? 0)%Z then Raise IndexError
  else match t !! Z.to_nat j with
       | Some a => Ok a
       | None => Raise IndexError
       end.

(** Where the slice [start:] begins on an axis of size [size]. *)
Definition slice_start (start size : Z) : Z :=
  if (start <? 0)%Z then Z.max (size + start) 0 else Z.min start size.

(** [torch.vstack] of rank-2 tensors: the rows of all of them, in order;
    refuses an empty list and rows of different sizes. *)
Definition vstack_blocks (blocks : list matrix) : res matrix :=
  match blocks with
  | [] => Raise (RuntimeError "vstack expects a non-empty TensorList")
  | _ :: _ =>
      let rows := concat blocks in
      if forallb (fun r => Nat.eqb (length r) (width rows)) rows
      then Ok rows
      else Raise (RuntimeError
             "Sizes of tensors must match except in dimension 0")
  end.

(** The pieces [torch.split(t, sizes)] cuts, for sizes already checked. *)
Fixpoint pieces (t : matrix) (sizes : list nat) : list matrix :=
  match sizes with
  | [] => []
  | s :: sizes' => take s t :: pieces (drop s t) sizes'
  end.

(** [torch.split(t, sizes)] along the first axis: the sizes must not be
    negative and must sum to the number of rows. *)
Definition split (t : matrix) (sizes : list Z) : res (list matrix) :=
  if existsb (fun s => (s <? 0)%Z) sizes
  then Raise (RuntimeError
         "split_with_sizes expects split_sizes have only non-negative entries")
  else if negb (Z.eqb (fold_right Z.add 0%Z sizes) (Z.of_nat (length t)))
  then Raise (RuntimeError
         "split_with_sizes expects split_sizes to sum exactly to the size")
  else Ok (pieces t (map Z.to_nat sizes)).

(** [sub in s] on two Python strings. *)
Definition contains (sub s : string) : bool :=
  match String.index 0 sub s with
  | Some _ => true
  | None => false
  end.

Module AbstractTransformerModel.

Record Model : Type := mkModel {
  _context : option string;
  max_len : Z
}.

Definition set_context (self : Model) (context : string) : res Model :=
  if bool_decide (context ∈ ["training"; "validation"; "tracking"; "visu"])
  then Ok (mkModel (Some context) (max_len self))
  else Raise AssertionError.

Section Forward.

(** The type of what [forward] returns. *)
Variable Outputs : Type.

(** Everything [forward] does after its checks, from "Prepare masks and
    parameters" on: masks, targets, embedding, main transformer layers,
    unpadding and direction getter, as a function of what the checks hand
    over. *)
Variable process :
  Model -> forall (use_padding : bool) (batch_max_len : Z)
    (unpad_lengths : list Z) (inputs input_streamlines : list matrix),
    res Outputs.

(** [len(t)] of a tensor of shape [nb_points, nb_features]. *)
Definition len (t : matrix) : Z := Z.of_nat (length t).

Definition forward (self : Model) (inputs input_streamlines : list matrix)
  : res Outputs :=
  match _context self with
  | None => Raise (ValueError "Please set context before usage.")
  | Some _ =>
      if negb (forallb (fun '(i, s) => Z.eqb (len i) (len s))
                 (zip inputs input_streamlines))
      then Raise AssertionError
      else
        let unpad_lengths := map len inputs in
        if existsb (fun l => Z.ltb (max_len self) l) unpad_lengths
        then Raise (ValueError
          "Some streamlines were longer than accepted max length for sequences")
        else
          match unpad_lengths with
          | [] => Raise IndexError
          | first :: _ =>
              let use_padding :=
                negb (forallb (fun l => Z.eqb l first) unpad_lengths) in
              let batch_max_len := fold_right Z.max first unpad_lengths in
              process self use_padding batch_max_len unpad_lengths inputs
                input_streamlines
          end
  end.

End Forward.

End AbstractTransformerModel.

(** ** trainers_for_generation.py *)

(** [torch.vstack] of rank-1 rows: refuses an empty list and rows of
    different sizes. *)
Definition vstack (rows : list vector) : res matrix :=
  match rows with
  | [] => Raise (RuntimeError "vstack expects a non-empty TensorList")
  | r :: _ =>
      if forallb (fun r' => Nat.eqb (length r') (length r)) rows
      then Ok rows
      else Raise (RuntimeError "Sizes of tensors must match")
  end.

(** Broadcasting of two operands along one axis. *)
Definition broadcast2 {A : Type} (x y : list A) : res (list (A * A)) :=
  if Nat.eqb (length x) (length y) then Ok (zip x y)
  else match x, y with
       | [a], _ => Ok (map (fun b => (a, b)) y)
       | _, [b] => Ok (map (fun a => (a, b)) x)
       | _, _ => Raise (RuntimeError
                   "The size of tensor a must match the size of tensor b")
       end.

(** [torch.nn.PairwiseDistance(p=2)]: per row, the 2-norm of
    [x1 - x2 + eps] with torch's default [eps = 1e-6]. *)
Definition pairwise_eps : R := (/ 1000000)%R.

Definition pairwise_row (x1 x2 : vector) : res R :=
  ps ← broadcast2 x1 x2;
  Ok (sqrt (Rsum (map (fun '(a, b) => ((a - b + pairwise_eps) ^ 2)%R) ps))).

Definition PairwiseDistance (x1 x2 : matrix) : res vector :=
  ps ← broadcast2 x1 x2;
  mapM (fun '(r1, r2) => pairwise_row r1 r2) ps.

(** [line[-1, :]] *)
Definition last_point (line : matrix) : res vector :=
  match last line with
  | Some p => Ok p
  | None => Raise IndexError
  end.

(** [s[0:m]] on a Python sequence, [m] possibly negative. *)
Definition slice_to (m : Z) (s : matrix) : matrix :=
  if (m <? 0)%Z then take (Z.to_nat (Z.of_nat (length s) + m)) s
  else take (Z.to_nat m) s.

Module DWIMLTrainerForTrackingOneInput.

(** Modelled from the spec: the epoch-statistics monitor of
    dwi_ml/training/utils/monitoring.py, which is not among the sources; an
    accumulator of per-epoch averages, persisted into the checkpoint state
    and restored from it. *)
Record BatchHistoryMonitor : Type := mkMonitor {
  current_epoch : Z;
  average_per_epoch : list R
}.

(** Modelled from the spec: what a monitor persists into a checkpoint. *)
Definition get_state (self : BatchHistoryMonitor) : BatchHistoryMonitor :=
  self.

(** Modelled from the spec: restoring a monitor from its persisted state. *)
Definition set_state (self state : BatchHistoryMonitor)
  : BatchHistoryMonitor :=
  mkMonitor (current_epoch state) (average_per_epoch state).

Definition IS_THRESHOLD : R := (2598 / 100)%R.

Section Trainer.

(** The state the parent class [DWIMLTrainerOneInput] manages, and its
    [_update_states_from_checkpoint]. *)
Variable Parent : Type.
Variable super_update_states_from_checkpoint :
  Parent -> gmap string BatchHistoryMonitor -> res Parent.

(** [dwi_ml.tracking.propagation.propagate_multiple_lines], called with the
    trainer's callbacks, mask and settings for a given step size. *)
Variable Ids : Type.
Variable tracking_propagation :
  R -> list matrix -> Ids -> res (list matrix).

Record Trainer : Type := mkTrainer {
  parent : Parent;
  model_step_size : option R;
  tracking_phase_nb_steps_init : Z;
  tracking_valid_IS_monitor : BatchHistoryMonitor;
  tracking_valid_loss_monitor : BatchHistoryMonitor
}.

Definition _update_states_from_checkpoint (self : Trainer)
    (current_states : gmap string BatchHistoryMonitor) : res Trainer :=
  parent' ← super_update_states_from_checkpoint (parent self) current_states;
  loss_state ← match current_states !! "tracking_valid_loss_monitor_state" with
               | Some st => Ok st
               | None => Raise (KeyError "tracking_valid_loss_monitor_state")
               end;
  let loss_monitor := set_state (tracking_valid_loss_monitor self) loss_state in
  let IS_monitor := mkMonitor 149 (replicate 150 0%R) in
  Ok (mkTrainer parent' (model_step_size self)
        (tracking_phase_nb_steps_init self) IS_monitor loss_monitor).

Definition propagate_multiple_lines (self : Trainer) (lines : list matrix)
    (ids_per_subj : Ids) : res (list matrix) :=
  match model_step_size self with
  | None => Raise AssertionError
  | Some step_size => tracking_propagation step_size lines ids_per_subj
  end.

(** Number of entries of [loss] above the threshold:
    [torch.sum(loss > IS_THRESHOLD)]. *)
Definition count_above (threshold : R) (loss : vector) : nat :=
  length (filter (fun l => l > threshold)%R loss).

Definition generate_from_one_batch (self : Trainer)
    (data : list matrix * Ids) : res (R * nat * R) :=
  let '(lines, ids_per_subj) := data in
  last_pos ← (rows ← mapM last_point lines; vstack rows);
  let lines :=
    map (fun s => slice_to (Z.min (Z.of_nat (length s))
                              (tracking_phase_nb_steps_init self)) s)
        lines in
  lines ← propagate_multiple_lines self lines ids_per_subj;
  computed_last_pos ← (rows ← mapM last_point lines; vstack rows);
  loss ← PairwiseDistance computed_last_pos last_pos;
  let IS_ratio :=
    (INR (count_above IS_THRESHOLD loss) / INR (length lines) * 100)%R in
  Ok ((Rsum loss / INR (length loss))%R, length lines, IS_ratio).

End Trainer.

Section Checkpoint.

Variable Parent : Type.

(** What the parent class's [_prepare_checkpoint_info] returns: a
    dictionary, of which the entries that are themselves dictionaries of
    monitor states are kept. *)
Variable super_prepare_checkpoint_info :
  Parent -> res (gmap string (gmap string BatchHistoryMonitor)).

Definition _prepare_checkpoint_info (self : Trainer Parent)
  : res (gmap string (gmap string BatchHistoryMonitor)) :=
  checkpoint_info ← super_prepare_checkpoint_info (parent Parent self);
  match checkpoint_info !! "current_states" with
  | None => Raise (KeyError "current_states")
  | Some current_states =>
      let current_states :=
        <["tracking_valid_IS_monitor_state" :=
            get_state (tracking_valid_IS_monitor Parent self)]>
        (<["tracking_valid_loss_monitor_state" :=
            get_state (tracking_valid_loss_monitor Parent self)]>
         current_states) in
      Ok (<["current_states" := current_states]> checkpoint_info)
  end.

End Checkpoint.

End DWIMLTrainerForTrackingOneInput.

(** ** transforming_tractography.py: padding masks, unpadding and the
    previous direction *)

(** [a + b] on two rank-2 tensors, broadcasting axes of size 1. *)
Definition tensor_add (a b : matrix) : res matrix :=
  ps ← broadcast2 a b;
  mapM (fun '(r1, r2) =>
          qs ← broadcast2 r1 r2; Ok (map (fun '(x, y) => (x + y)%R) qs))
       ps.

Module AbstractTransformerModelEnd.

(** [_generate_padding_mask]: a mask of shape
    [nb_streamlines, batch_max_len], true from position
    [unpadded_lengths[i]] on in row [i]. *)
Definition _generate_padding_mask (unpadded_lengths : list Z)
    (batch_max_len : Z) : res (list (list bool)) :=
  if (batch_max_len <? 0)%Z
  then Raise (RuntimeError "Trying to create tensor with negative dimension")
  else
    Ok (map (fun l =>
               map (fun j => (slice_start l batch_max_len <=? Z.of_nat j)%Z)
                   (seq 0 (Z.to_nat batch_max_len)))
            unpadded_lengths).

(** The unpadding that follows the main layers in [forward]: [outputs] has
    shape [nb streamlines, max_len, d_model]. In the tracking context only
    the last point of each streamline is kept, else all its points. *)
Definition unpad_outputs (context : string) (use_padding : bool)
    (nb_streamlines : nat) (unpad_lengths : list Z) (outputs : list matrix)
  : res matrix :=
  if String.eqb context "tracking"
  then
    if use_padding
    then rows ← mapM (fun i =>
                        len ← getitem unpad_lengths (Z.of_nat i);
                        out ← getitem outputs (Z.of_nat i);
                        getitem out (len - 1)%Z)
                     (seq 0 nb_streamlines);
         vstack rows
    else mapM (fun out => getitem out (-1)%Z) outputs
  else
    blocks ← mapM (fun i =>
                     len ← getitem unpad_lengths (Z.of_nat i);
                     out ← getitem outputs (Z.of_nat i);
                     Ok (slice_to len out))
                  (seq 0 nb_streamlines);
    vstack_blocks blocks.

Section ForwardEnd.

(** [self.direction_getter], applied to the unpadded outputs, for the heads
    whose output is one tensor. *)
Variable direction_getter : matrix -> res matrix.

(** The end of [forward], from the unpadding on: direction getter, the
    previous direction added when [start_from_copy_prev] is set
    ([copy_prev_dir] is then the tensor [self.copy_prev_dir(dirs)]
    returned), and the outputs cut back per streamline outside the
    tracking context. *)
Definition forward_end (context : string) (use_padding : bool)
    (nb_streamlines : nat) (unpad_lengths : list Z)
    (copy_prev_dir : option matrix) (outputs : list matrix)
  : res (matrix + list matrix) :=
  outputs ← unpad_outputs context use_padding nb_streamlines unpad_lengths
              outputs;
  outputs ← direction_getter outputs;
  outputs ← match copy_prev_dir with
            | Some copy_prev_dir => tensor_add copy_prev_dir outputs
            | None => Ok outputs
            end;
  if negb (String.eqb context "tracking")
  then pieces ← split outputs unpad_lengths; Ok (inr pieces)
  else Ok (inl outputs).

End ForwardEnd.

Section CopyPrevDir.

(** [convert_dirs_to_class(dirs, sphere, smooth_labels=False,
    add_sos=False, add_eos=False, to_one_hot=True)] of
    dwi_ml.data.processing.streamlines.sos_eos_management. *)
Variable convert_dirs_to_class : list matrix -> res (list matrix).

(** [copy_prev_dir]: [nb_features] is the size of the last axis of the
    tensors that get a row of zeros in front. *)
Definition copy_prev_dir (nb_features : nat) (dg_key : string)
    (dirs : list matrix) : res matrix :=
  copy_prev_dirs ←
    (if contains "regression" dg_key then Ok dirs
     else if String.eqb dg_key "sphere-classification"
     then convert_dirs_to_class dirs
     else if String.eqb dg_key "smooth-sphere-classification"
     then Raise (NotImplementedError "")
     else if contains "gaussian" dg_key
     then Raise (NotImplementedError "")
     else Raise (NotImplementedError ""));
  copy_prev_dirs ← mapM (fun cp => pad nb_features cp 1 0) copy_prev_dirs;
  copy_prev_dirs ← vstack_blocks copy_prev_dirs;
  Ok (map (map (fun x => (x * 6)%R)) copy_prev_dirs).

End CopyPrevDir.

End AbstractTransformerModelEnd.

(** ** direction_getter_models.py: the loss of the L2 regression head *)

(** [t.mean()] on a rank-1 tensor with at least one entry. *)
Definition mean (t : vector) : R := (Rsum t / INR (length t))%R.

Module L2RegressionDirectionGetterLoss.

(** [compute_loss]: [self.loss] is the PairwiseDistance the constructor
    stored; any other value of the attribute is outside the model and
    refused. *)
Definition compute_loss (self : object)
    (learned_directions target_directions : matrix) : res R :=
  loss ← getattr self "loss";
  match loss with
  | VLoss "PairwiseDistance" =>
      losses ← PairwiseDistance learned_directions target_directions;
      Ok (mean losses)
  | _ => Raise (RuntimeError "loss is not callable")
  end.

End L2RegressionDirectionGetterLoss.

(** ** single_subject_containers.py *)

(** An opened hdf5 file, as far as the containers read it: the groups of
    each subject, by subject id and by group name. *)
Definition HdfFile (Group : Type) : Type := gmap string (gmap string Group).

(** [hdf_file[subject_id][group]] *)
Definition hdf_group {Group : Type} (hdf_file : HdfFile Group)
    (subject_id group : string) : res Group :=
  match hdf_file !! subject_id with
  | None => Raise (KeyError subject_id)
  | Some subject =>
      match subject !! group with
      | None => Raise (KeyError group)
      | Some g => Ok g
      end
  end.

Module SubjectDataAbstract.

Record SubjectDataAbstract : Type := mkSubjectDataAbstract {
  volume_groups : list string;
  nb_features : list Z;
  streamline_groups : list string;
  subject_id : string
}.

Definition __init__ (volume_groups : list string) (nb_features : list Z)
    (streamline_groups : list string) (subject_id : string)
  : SubjectDataAbstract :=
  mkSubjectDataAbstract volume_groups nb_features streamline_groups subject_id.

Definition mri_data_list {A : Type} (self : SubjectDataAbstract) : res A :=
  Raise (NotImplementedError "").

Definition sft_data_list {A : Type} (self : SubjectDataAbstract) : res A :=
  Raise (NotImplementedError "").

Definition with_handle {Handle : Type} (self : SubjectDataAbstract)
    (hdf_handle : Handle) : res SubjectDataAbstract :=
  Raise (NotImplementedError "").

End SubjectDataAbstract.

Module SubjectData.

Section WithLoaders.

(** The groups of the hdf5 file, the loaded volumes and streamlines with
    their loaders [MRIData.init_from_hdf_info] and
    [SFTData.init_from_hdf_info], and [prepare_groups_info] of
    dwi_ml.data.dataset.utils. *)
Variables Group MRIData SFTData GroupInfo : Type.
Variable MRIData_init_from_hdf_info : Group -> res MRIData.
Variable SFTData_init_from_hdf_info : Group -> res SFTData.
Variable prepare_groups_info :
  string -> HdfFile Group -> option GroupInfo ->
  res (list string * list Z * list string).

Record SubjectData : Type := mkSubjectData {
  volume_groups : list string;
  nb_features : list Z;
  streamline_groups : list string;
  subject_id : string;
  _mri_data_list : option (list MRIData);
  _sft_data_list : option (list SFTData)
}.

Definition mri_data_list (self : SubjectData) : option (list MRIData) :=
  _mri_data_list self.

Definition sft_data_list (self : SubjectData) : option (list SFTData) :=
  _sft_data_list self.

Definition init_from_hdf (subject_id : string) (hdf_file : HdfFile Group)
    (group_info : option GroupInfo) : res SubjectData :=
  '(volume_groups, nb_features, streamline_groups) ←
    prepare_groups_info subject_id hdf_file group_info;
  subject_mri_data_list ←
    mapM (fun group =>
            g ← hdf_group hdf_file subject_id group;
            MRIData_init_from_hdf_info g)
         volume_groups;
  subject_sft_data_list ←
    mapM (fun group =>
            g ← hdf_group hdf_file subject_id group;
            SFTData_init_from_hdf_info g)
         streamline_groups;
  Ok (mkSubjectData volume_groups nb_features streamline_groups subject_id
        (Some subject_mri_data_list) (Some subject_sft_data_list)).

Definition with_handle (self : SubjectData)
    (hdf_handle : option (HdfFile Group)) : SubjectData :=
  self.

End WithLoaders.

End SubjectData.

Module LazySubjectData.

Section WithLoaders.

(** As for [SubjectData], with the lazy containers and their loaders
    [LazyMRIData.init_from_hdf_info] and [LazySFTData.init_from_hdf_info]. *)
Variables Group LazyMRIData LazySFTData GroupInfo : Type.
Variable LazyMRIData_init_from_hdf_info : Group -> res LazyMRIData.
Variable LazySFTData_init_from_hdf_info : Group -> res LazySFTData.
Variable prepare_groups_info :
  string -> HdfFile Group -> option GroupInfo ->
  res (list string * list Z * list string).

Record LazySubjectData : Type := mkLazySubjectData {
  volume_groups : list string;
  nb_features : list Z;
  streamline_groups : list string;
  subject_id : string;
  hdf_handle : option (HdfFile Group)
}.

Definition init_from_hdf (subject_id : string) (hdf_file : HdfFile Group)
    (group_info : option GroupInfo) : res LazySubjectData :=
  '(volume_groups, nb_features, streamline_groups) ←
    prepare_groups_info subject_id hdf_file group_info;
  Ok (mkLazySubjectData volume_groups nb_features streamline_groups
        subject_id None).

Definition mri_data_list (self : LazySubjectData)
  : res (option (list LazyMRIData)) :=
  match hdf_handle self with
  | Some handle =>
      mri_data_list ←
        mapM (fun group =>
                hdf_group ← hdf_group handle (subject_id self) group;
                LazyMRIData_init_from_hdf_info hdf_group)
             (volume_groups self);
      Ok (Some mri_data_list)
  | None => Ok None
  end.

Definition sft_data_list (self : LazySubjectData)
  : res (option (list LazySFTData)) :=
  match hdf_handle self with
  | Some handle =>
      mri_data_list ←
        mapM (fun group =>
                hdf_group ← hdf_group handle (subject_id self) group;
                LazySFTData_init_from_hdf_info hdf_group)
             (streamline_groups self);
      Ok (Some mri_data_list)
  | None => Ok None
  end.

Definition with_handle (self : LazySubjectData)
    (hdf_handle : option (HdfFile Group)) : LazySubjectData :=
  mkLazySubjectData (volume_groups self) (nb_features self)
    (streamline_groups self) (subject_id self) hdf_handle.

End WithLoaders.

End LazySubjectData.

(** ** Predicates used in the statements *)

(** The sub-layers [loop_on_layers] calls are in place. *)
Definition sublayers_ready (self : object) : Prop :=
  self !! "relu_sublayer" = Some VReLU /\
  (exists b, self !! "training" = Some (VBool b)) /\
  (self !! "dropout_sublayer" = Some VIdentity \/
   exists p, self !! "dropout_sublayer" = Some (VDropout p)).

(** A dropout rate the constructors accept: [None] or a rate in [0, 1]. *)
Definition valid_dropout (dropout : option R) : Prop :=
  match dropout with
  | None => True
  | Some p => (0 <= p <= 1)%R
  end.

(** The layer list [init_2layer_fully_connected] builds. *)
Definition two_layers (w1 w2 : LinearInit) (i o : Z) : list Linear :=
  [mkLinear i (ceil_half i) (fst w1) (snd w1);
   mkLinear (ceil_half i) o (fst w2) (snd w2)].

(** Concrete collaborators for the examples: all-zero initial weights and
    a dropout draw that keeps every entry. *)
Definition zero_init : nat -> LinearInit :=
  fun _ => (fun _ _ => 0%R, fun _ => 0%R).
Definition keep_all : nat -> nat -> DropoutMask := fun _ _ _ _ => true.

(** The registry key under which a class is filed. *)
Definition class_key (cls : DirectionGetterClass) : string :=
  match cls with
  | ClsCosineRegression => "cosine-regression"
  | ClsL2Regression => "l2-regression"
  | ClsSphereClassification => "sphere-classification"
  | ClsSingleGaussian => "gaussian"
  | ClsGaussianMixture => "gaussian-mixture"
  | ClsFisherVonMises => "fisher-von-mises"
  | ClsFisherVonMisesMixture => "fisher-von-mises-mixture"
  end.

(** A checkpoint written after three epochs, and a trainer about to
    resume from it. *)
Definition stored_IS_state
  : DWIMLTrainerForTrackingOneInput.BatchHistoryMonitor :=
  DWIMLTrainerForTrackingOneInput.mkMonitor 2 [10; 20; 30]%R.

Definition resumed_states
  : gmap string DWIMLTrainerForTrackingOneInput.BatchHistoryMonitor :=
  <["tracking_valid_loss_monitor_state" :=
      DWIMLTrainerForTrackingOneInput.mkMonitor 2 [1; 1; 1]%R]>
  (<["tracking_valid_IS_monitor_state" := stored_IS_state]> ∅).

Definition fresh_trainer : DWIMLTrainerForTrackingOneInput.Trainer unit :=
  DWIMLTrainerForTrackingOneInput.mkTrainer unit tt (Some 1%R) 5
    (DWIMLTrainerForTrackingOneInput.mkMonitor (-1) [])
    (DWIMLTrainerForTrackingOneInput.mkMonitor (-1) []).

(** A sphere of three vertices, and a classification head over it. *)
Definition three_vertices : matrix :=
  [[1; 0; 0]; [0; 1; 0]; [0; 0; 1]]%R.

Definition small_classifier : res object :=
  SphereClassificationDirectionGetter.__init__ (fun _ => Ok three_vertices)
    zero_init 2 None "symmetric724".

(** [k] is the index of the first maximum of [l]. *)
Definition first_maximum (l : list R) (k : nat) : Prop :=
  exists m, l !! k = Some m /\
            (forall j x, l !! j = Some x -> (x <= m)%R) /\
            (forall j x, l !! j = Some x -> (j < k)%nat -> (x < m)%R).

(** Initial weights with zero weight matrices and unit biases. *)
Definition unit_bias_init : nat -> LinearInit :=
  fun _ => (fun _ _ => 0%R, fun _ => 1%R).

(** Streamlines of a batch: at least one line, each a non-empty sequence
    of 3D points. *)
Definition streamlines_3d (lines : list matrix) : Prop :=
  lines <> [] /\
  Forall (fun line => line <> [] /\ Forall (fun p => length p = 3%nat) line)
         lines.

(** The final point of each line. *)
Definition final_points (lines : list matrix) : matrix :=
  map (fun line => default [] (last line)) lines.

(** What [PairwiseDistance(p=2)] computes on two points of equal size. *)
Definition l2_loss (x1 x2 : vector) : R :=
  sqrt (Rsum (map (fun '(a, b) => ((a - b + pairwise_eps) ^ 2)%R) (zip x1 x2))).


(** A ground-truth line of two points, and a generated line that ends
    99 voxels away from its final point. *)
Definition truth_line : matrix := [[0; 0; 0]; [1; 0; 0]]%R.

Definition far_line : matrix := [[0; 0; 0]; [100; 0; 0]]%R.

(** The lines handed to the propagation: the first
    [tracking_phase_nb_steps_init] points of each line. *)
Definition seed_lines (nb_steps_init : Z) (lines : list matrix) : list matrix :=
  map (fun s => slice_to (Z.min (Z.of_nat (length s)) nb_steps_init) s) lines.

(** Every Beta(1, 1) draw to come lies in [0, 1]. *)
Definition beta_in_unit (rs : RandomState) : Prop :=
  forall n, (0 <= beta_draws rs n <= 1)%R.

(** The part of [v] the sampler keeps: [v] minus its projection on [mu],
    as [_sample_orthonormal_to] computes it. *)
Definition orthogonal_part (mu v : vector) : vector :=
  vsub v (map (fun m => (m * dot mu v / norm mu)%R) mu).

(** No run of normal draws to come is parallel to one of the means. *)
Definition draws_in_general_position (rs : RandomState) (mus : matrix) : Prop :=
  forall n mu, In mu mus ->
    norm (orthogonal_part mu (map (randn_draws rs) (seq n (length mu)))) <> 0%R.

(** A random state whose Beta draws are all 1/2, uniform draws all 0 and
    normal draws all 1. *)
Definition constant_draws : RandomState :=
  mkRandomState (fun _ => (1 / 2)%R) (fun _ => 0%R) (fun _ => 1%R).

(** [self.params] on an instance of a class of the registry: a class that
    does not define the property inherits the base class's. *)
Definition params_of (cls : DirectionGetterClass) (self : object)
  : res (gmap string attr) :=
  match cls with
  | ClsSphereClassification => SphereClassificationDirectionGetter.params self
  | ClsGaussianMixture => GaussianMixtureDirectionGetter.params self
  | ClsFisherVonMisesMixture =>
      FisherVonMisesMixtureDirectionGetter.params self
  | _ => AbstractDirectionGetterModel.params self
  end.

(** The loss description each class hands to the base constructor. *)
Definition class_loss_description (cls : DirectionGetterClass) : string :=
  match cls with
  | ClsCosineRegression => "negative cosine similarity"
  | ClsL2Regression => "torch's pairwise distance"
  | _ => "negative log-likelihood"
  end.

(** The constructor arguments beyond input_size and dropout, under the
    names of the constructor's keywords. *)
Definition class_keywords (cls : DirectionGetterClass) (kw : CtorKwargs)
  : gmap string attr :=
  match cls with
  | ClsSphereClassification => {["sphere" := VStr (kw_sphere kw)]}
  | ClsGaussianMixture => {["nb_gaussians" := VInt (kw_nb_gaussians kw)]}
  | ClsFisherVonMisesMixture => {["n_cluster" := VInt (kw_n_cluster kw)]}
  | _ => ∅
  end.

(** Dropout is switched off: the sub-layer is the identity, or the module
    is in evaluation mode. *)
Definition dropout_inactive (self : object) : Prop :=
  self !! "dropout_sublayer" = Some VIdentity \/
  self !! "training" = Some (VBool false).




(** * Properties *)

(** ** Results and traversals *)
Lemma bind_Ok {A B : Type} (m : res A) (k : A -> res B) (b : B) :
  m ≫= k = Ok b <-> exists a, m = Ok a /\ k a = Ok b.
Proof.
  destruct m; simpl; split; try (intros [a' [Heq H]]); try discriminate; eauto.
  - congruence.
Qed.

Lemma mapM_Ok {A B : Type} (f : A -> res B) (l : list A) (l' : list B) :
  mapM f l = Ok l' <-> Forall2 (fun a b => f a = Ok b) l l'.
Proof.
  revert l'; induction l as [|a l IH]; intros l'; simpl.
  - split; [intros [= <-]; constructor | inversion 1; reflexivity].
  - rewrite bind_Ok. split.
    + intros (b & Hb & H). apply bind_Ok in H as (bs & Hbs & [= <-]).
      constructor; [assumption | now apply IH].
    + inversion 1 as [|? b ? bs Hb Hbs]; subst. exists b; split; [assumption|].
      apply bind_Ok. exists bs; split; [now apply IH | reflexivity].
Qed.

Lemma mapM_total {A B : Type} (f : A -> res B) (l : list A) :
  Forall (fun a => returns (f a)) l -> returns (mapM f l).
Proof.
  induction 1 as [|a l [b Hb] _ [bs Hbs]]; simpl.
  - now exists [].
  - exists (b :: bs). now rewrite Hb, Hbs.
Qed.

Lemma mapM_length {A B : Type} (f : A -> res B) (l : list A) (l' : list B) :
  mapM f l = Ok l' -> length l' = length l.
Proof. rewrite mapM_Ok. intros H. symmetry. eapply Forall2_length, H. Qed.

Lemma Linear_row_Ok h x :
  Z.of_nat (length x) = in_features h ->
  exists y, Linear_row h x = Ok y /\ length y = Z.to_nat (out_features h).
Proof.
  intros Hx. unfold Linear_row. rewrite decide_True by assumption.
  eexists; split; [reflexivity|]. now rewrite length_map, length_seq.
Qed.

Lemma Linear_row_length h x y :
  Linear_row h x = Ok y -> length y = Z.to_nat (out_features h).
Proof.
  unfold Linear_row. case_decide; [|discriminate].
  intros [= <-]. now rewrite length_map, length_seq.
Qed.

Lemma Linear_call_Ok h x B :
  has_shape B (Z.to_nat (in_features h)) x -> (0 <= in_features h)%Z ->
  exists y, Linear_call h x = Ok y /\ has_shape B (Z.to_nat (out_features h)) y.
Proof.
  intros [HB Hrows] Hpos. unfold Linear_call.
  destruct (mapM_total (Linear_row h) x) as [y Hy].
  - eapply Forall_impl; [exact Hrows|]. intros r Hr. simpl in Hr.
    destruct (Linear_row_Ok h r) as (y & Hy & _); [lia|]. now exists y.
  - exists y; split; [assumption|]. split.
    + rewrite (mapM_length _ _ _ Hy). assumption.
    + apply mapM_Ok in Hy. clear -Hy. induction Hy; constructor; eauto using Linear_row_length.
Qed.

(** ** Linear layers and the two-layer stack *)

Lemma has_shape_map_map (f : R -> R) B n x :
  has_shape B n x -> has_shape B n (map (map f) x).
Proof.
  intros [HB Hr]. split; [now rewrite length_map|].
  apply Forall_map. eapply Forall_impl; [exact Hr|].
  intros r Hlen; simpl. now rewrite length_map.
Qed.

Lemma relu_sublayer_Ok self x :
  sublayers_ready self ->
  AbstractDirectionGetterModel.relu_sublayer self x = Ok (map (map (Rmax 0)) x).
Proof.
  intros (Hrelu & _). unfold AbstractDirectionGetterModel.relu_sublayer, getattr.
  now rewrite Hrelu.
Qed.

Lemma dropout_sublayer_Ok keep self x B n :
  sublayers_ready self -> has_shape B n x ->
  exists y, AbstractDirectionGetterModel.dropout_sublayer keep self x = Ok y
            /\ has_shape B n y.
Proof.
  intros (_ & [b Htrain] & Hdrop) Hx.
  unfold AbstractDirectionGetterModel.dropout_sublayer, getattr.
  destruct Hdrop as [-> | [p ->]]; simpl; [eauto|].
  rewrite Htrain; simpl. destruct b; [|eauto].
  eexists; split; [reflexivity|]. destruct Hx as [HB Hr].
  split; [now rewrite length_imap|].
  apply Forall_forall. intros r Hin.
  apply elem_of_lookup_imap in Hin as (i & row & -> & Hrow).
  rewrite length_imap. rewrite Forall_forall in Hr. apply Hr.
  eapply list_elem_of_lookup_2, Hrow.
Qed.

Lemma init_2layer_inv w1 w2 i o layers :
  init_2layer_fully_connected w1 w2 i o = Ok layers ->
  (0 <= i)%Z /\ (0 <= o)%Z /\ layers = two_layers w1 w2 i o.
Proof.
  unfold init_2layer_fully_connected, new_Linear.
  repeat case_decide; simpl; try discriminate.
  intros [= <-]. intuition.
Qed.

Lemma init_2layer_Ok w1 w2 i o :
  (0 <= i)%Z -> (0 <= o)%Z -> returns (init_2layer_fully_connected w1 w2 i o).
Proof.
  intros Hi Ho. unfold init_2layer_fully_connected, new_Linear.
  assert (0 <= ceil_half i)%Z.
  { unfold ceil_half. assert (- i / 2 <= 0)%Z; [|lia]. apply Z.div_le_upper_bound; lia. }
  rewrite !decide_True by (split; assumption). simpl. eexists; reflexivity.
Qed.

Lemma loop_two_layers keep self x B i o w1 w2 :
  sublayers_ready self -> (0 <= i)%Z -> (0 <= o)%Z ->
  has_shape B (Z.to_nat i) x ->
  exists y,
    AbstractDirectionGetterModel.loop_on_layers keep self x
      (two_layers w1 w2 i o) = Ok y
    /\ has_shape B (Z.to_nat o) y.
Proof.
  intros Hself Hi Ho Hx.
  assert (0 <= ceil_half i)%Z as Hh.
  { unfold ceil_half. assert (- i / 2 <= 0)%Z; [|lia]. apply Z.div_le_upper_bound; lia. }
  unfold AbstractDirectionGetterModel.loop_on_layers, two_layers; simpl.
  destruct (Linear_call_Ok (mkLinear i (ceil_half i) (fst w1) (snd w1)) x B)
    as (pre & -> & Hpre); [assumption..|]. simpl in *.
  rewrite relu_sublayer_Ok by assumption. simpl.
  destruct (dropout_sublayer_Ok (keep 0%nat) self (map (map (Rmax 0)) pre) B
              (Z.to_nat (ceil_half i))) as (drop & -> & Hdrop);
    [assumption | now apply has_shape_map_map |]. simpl.
  apply (Linear_call_Ok (mkLinear (ceil_half i) o (fst w2) (snd w2))); assumption.
Qed.

(** ** Constructors *)

Lemma abstract_init_inv input_size dropout key sc ld self :
  AbstractDirectionGetterModel.__init__ input_size dropout key sc ld = Ok self ->
  exists sub,
    (sub = VIdentity \/ exists p, sub = VDropout p) /\
    self = setattr (setattr (setattr (setattr (setattr (setattr (setattr
             ModelAbstract.__init__
             "input_size" (VInt input_size)) "key" (VStr key))
             "supports_compressed_streamlines" (VBool sc))
             "loss_description" (VStr ld))
             "dropout" (attr_of_float dropout))
             "dropout_sublayer" sub) "relu_sublayer" VReLU.
Proof.
  unfold AbstractDirectionGetterModel.__init__.
  destruct (truthy dropout && out_of_unit_range dropout); [discriminate|].
  intros [= <-]. destruct (truthy dropout).
  - eexists. split; [right; eexists; reflexivity | reflexivity].
  - eexists. split; [left; reflexivity | reflexivity].
Qed.

Lemma abstract_init_Ok input_size dropout key sc ld :
  valid_dropout dropout ->
  returns (AbstractDirectionGetterModel.__init__ input_size dropout key sc ld).
Proof.
  intros Hd. unfold AbstractDirectionGetterModel.__init__.
  replace (truthy dropout && out_of_unit_range dropout) with false.
  - eexists; reflexivity.
  - destruct dropout as [p|]; simpl in *; [|reflexivity].
    rewrite (bool_decide_eq_false_2 (p < 0)%R) by lra.
    rewrite (bool_decide_eq_false_2 (p > 1)%R) by lra.
    now rewrite andb_false_r.
Qed.

Ltac init_inv H :=
  apply bind_Ok in H as (?self0 & ?Habs & H);
  apply abstract_init_inv in Habs as (?sub & ?Hsub & ->);
  repeat (apply bind_Ok in H as (?layers & ?Hl & H);
          apply init_2layer_inv in Hl as (?Hi & ?Ho & ->));
  injection H as <-.

Ltac ready :=
  unfold sublayers_ready, setattr, ModelAbstract.__init__, setattr;
  match goal with
  | Hsub : _ = VIdentity \/ _ |- _ =>
      destruct Hsub as [-> | [? ->]]; simplify_map_eq; eauto 10
  end.

Lemma gaussian_init_inv w i d self :
  SingleGaussianDirectionGetter.__init__ w i d = Ok self ->
  sublayers_ready self /\ (0 <= i)%Z /\
  self !! "key" = Some (VStr "gaussian") /\
  self !! "layers_mean" = Some (VModuleList (two_layers (w 0%nat) (w 1%nat) i 3)) /\
  self !! "layers_sigmas" = Some (VModuleList (two_layers (w 2%nat) (w 3%nat) i 3)) /\
  self !! "layers_sigma" = None.
Proof.
  unfold SingleGaussianDirectionGetter.__init__. intros H. init_inv H.
  split; [ready|]. split; [assumption|].
  unfold setattr, ModelAbstract.__init__, setattr. simplify_map_eq. auto.
Qed.

Lemma mixture_init_inv w i d nb self :
  GaussianMixtureDirectionGetter.__init__ w i d nb = Ok self ->
  sublayers_ready self /\ (0 <= i)%Z /\ (0 <= nb)%Z /\
  self !! "key" = Some (VStr "gaussian-mixture") /\
  self !! "layers_mixture"
    = Some (VModuleList (two_layers (w 0%nat) (w 1%nat) i (1 * nb))) /\
  self !! "layers_mean"
    = Some (VModuleList (two_layers (w 2%nat) (w 3%nat) i (3 * nb))) /\
  self !! "layers_sigma" = None.
Proof.
  unfold GaussianMixtureDirectionGetter.__init__. intros H. init_inv H.
  split; [ready|]. do 2 (split; [lia|]).
  unfold setattr, ModelAbstract.__init__, setattr. simplify_map_eq. auto.
Qed.

Lemma get_layers_Ok self name ls :
  self !! name = Some (VModuleList ls) -> get_layers self name = Ok ls.
Proof. intros H. unfold get_layers, getattr. now rewrite H. Qed.

Lemma get_layers_missing self name :
  self !! name = None -> get_layers self name = Raise (AttributeError name).
Proof. intros H. unfold get_layers, getattr. now rewrite H. Qed.

(** ** C1: forward of the Gaussian heads *)

(** C1. forward of the single-Gaussian and of the Gaussian-mixture head
    does not return the tuple of means and exponentiated sigmas: for every
    head built by the constructor and every batch of the right shape it
    raises AttributeError, because the constructor stores the sigma head
    as [layers_sigmas] and forward reads [layers_sigma]. *)
Theorem C1_gaussian_forward_attribute_error
    (w : nat -> LinearInit) (input_size nb_gaussians : Z) (dropout : option R)
    (keep : nat -> nat -> DropoutMask) (inputs : matrix) (B : nat) :
  has_shape B (Z.to_nat input_size) inputs ->
  (forall self,
      SingleGaussianDirectionGetter.__init__ w input_size dropout = Ok self ->
      SingleGaussianDirectionGetter.forward keep self inputs
      = Raise (AttributeError "layers_sigma")) /\
  (forall self,
      GaussianMixtureDirectionGetter.__init__ w input_size dropout nb_gaussians
      = Ok self ->
      GaussianMixtureDirectionGetter.forward keep self inputs
      = Raise (AttributeError "layers_sigma")).
Proof.
  intros Hx. split; intros self Hinit.
  - apply gaussian_init_inv in Hinit as (Hready & Hi & _ & Hmean & _ & Hmiss).
    unfold SingleGaussianDirectionGetter.forward.
    rewrite (get_layers_Ok _ _ _ Hmean); simpl.
    destruct (loop_two_layers (keep 0%nat) self inputs B input_size 3
                (w 0%nat) (w 1%nat)) as (means & -> & _); [assumption|assumption|lia|assumption|].
    simpl. now rewrite (get_layers_missing _ _ Hmiss).
  - apply mixture_init_inv in Hinit as (Hready & Hi & Hnb & _ & Hmix & Hmean & Hmiss).
    unfold GaussianMixtureDirectionGetter.forward.
    rewrite (get_layers_Ok _ _ _ Hmix); simpl.
    destruct (loop_two_layers (keep 0%nat) self inputs B input_size
                (1 * nb_gaussians) (w 0%nat) (w 1%nat)) as (logits & -> & _);
      [assumption|assumption|lia|assumption|].
    simpl. rewrite (get_layers_Ok _ _ _ Hmean); simpl.
    destruct (loop_two_layers (keep 1%nat) self inputs B input_size
                (3 * nb_gaussians) (w 2%nat) (w 3%nat)) as (means & -> & _);
      [assumption|assumption|lia|assumption|].
    simpl. now rewrite (get_layers_missing _ _ Hmiss).
Qed.

Lemma C1_witness :
  exists self1 self2,
    SingleGaussianDirectionGetter.__init__ zero_init 2 None = Ok self1 /\
    GaussianMixtureDirectionGetter.__init__ zero_init 2 None 3 = Ok self2 /\
    SingleGaussianDirectionGetter.forward keep_all self1 [[1; 2]]%R
    = Raise (AttributeError "layers_sigma") /\
    GaussianMixtureDirectionGetter.forward keep_all self2 [[1; 2]]%R
    = Raise (AttributeError "layers_sigma").
Proof.
  assert (has_shape 1 (Z.to_nat 2) [[1; 2]]%R) as Hshape.
  { split; [reflexivity|]. repeat constructor. }
  destruct (C1_gaussian_forward_attribute_error zero_init 2 3 None keep_all
              [[1; 2]]%R 1%nat Hshape) as [H1 H2].
  eexists. eexists. split; [reflexivity|]. split; [reflexivity|].
  split; [apply H1 | apply H2]; reflexivity.
Defined.

(** ** C5: declared capability gaps *)

(** C5. Sampling on the deterministic regression heads (cosine, L2) and
    the deterministic direction on the single-Gaussian, Gaussian-mixture and
    Fisher-von Mises heads raise NotImplementedError on every input; in
    particular none of them returns a direction. *)
Theorem C5_unsupported_operations_raise :
  (forall self out,
      CosineRegressionDirectionGetter.sample_tracking_direction_prob self out
      = Raise (NotImplementedError
          "This regression model does not support probabilistic tractography."))
  /\ (forall self out,
      L2RegressionDirectionGetter.sample_tracking_direction_prob self out
      = Raise (NotImplementedError
          "This regression model does not support probabilistic tractography."))
  /\ (forall self params,
      SingleGaussianDirectionGetter.get_tracking_direction_det self params
      = Raise (NotImplementedError ""))
  /\ (forall self params,
      GaussianMixtureDirectionGetter.get_tracking_direction_det self params
      = Raise (NotImplementedError ""))
  /\ (forall self params,
      FisherVonMisesDirectionGetter.get_tracking_direction_det self params
      = Raise (NotImplementedError ""))
  /\ (forall self out,
      ~ returns (CosineRegressionDirectionGetter.sample_tracking_direction_prob
                   self out))
  /\ (forall self out,
      ~ returns (L2RegressionDirectionGetter.sample_tracking_direction_prob
                   self out))
  /\ (forall self params,
      ~ returns (SingleGaussianDirectionGetter.get_tracking_direction_det
                   self params))
  /\ (forall self params,
      ~ returns (GaussianMixtureDirectionGetter.get_tracking_direction_det
                   self params))
  /\ (forall self params,
      ~ returns (FisherVonMisesDirectionGetter.get_tracking_direction_det
                   self params)).
Proof.
  repeat split; try reflexivity; intros self x [d Hd]; discriminate Hd.
Qed.

(** ** C10: the registry and the key attribute *)

Lemma key_lookup self k :
  self !! "key" = Some (VStr k) -> getattr self "key" = Ok (VStr k).
Proof. intros H. unfold getattr. now rewrite H. Qed.

Ltac key_solve :=
  apply key_lookup; unfold setattr, ModelAbstract.__init__, setattr;
  simplify_map_eq; reflexivity.

Lemma instantiate_key get_sphere cls w input_size dropout kw self :
  instantiate get_sphere cls w input_size dropout kw = Ok self ->
  exists k, keys_to_direction_getters !! k = Some cls /\
            getattr self "key" = Ok (VStr k).
Proof.
  destruct cls; simpl; intros H.
  - exists "cosine-regression". split; [reflexivity|].
    unfold CosineRegressionDirectionGetter.__init__ in H. init_inv H. key_solve.
  - exists "l2-regression". split; [reflexivity|].
    unfold L2RegressionDirectionGetter.__init__ in H. init_inv H. key_solve.
  - exists "sphere-classification". split; [reflexivity|].
    unfold SphereClassificationDirectionGetter.__init__ in H.
    apply bind_Ok in H as (self0 & Habs & H).
    apply abstract_init_inv in Habs as (sub & Hsub & ->).
    apply bind_Ok in H as (vs & Hvs & H).
    apply bind_Ok in H as (layers & Hl & H). injection H as <-. key_solve.
  - exists "gaussian". split; [reflexivity|].
    unfold SingleGaussianDirectionGetter.__init__ in H. init_inv H. key_solve.
  - exists "gaussian-mixture". split; [reflexivity|].
    unfold GaussianMixtureDirectionGetter.__init__ in H. init_inv H. key_solve.
  - exists "fisher-von-mises". split; [reflexivity|].
    unfold FisherVonMisesDirectionGetter.__init__ in H. init_inv H. key_solve.
  - unfold FisherVonMisesMixtureDirectionGetter.__init__ in H.
    apply bind_Ok in H as (self0 & _ & H). discriminate H.
Qed.

Lemma registry_inv k cls :
  keys_to_direction_getters !! k = Some cls -> k = class_key cls.
Proof.
  unfold keys_to_direction_getters. intros H.
  repeat (apply lookup_insert_Some in H as [[<- <-] | [_ H]];
          [reflexivity|]).
  rewrite lookup_empty in H. discriminate H.
Qed.

Lemma registry_key_unique k k' cls :
  keys_to_direction_getters !! k = Some cls ->
  keys_to_direction_getters !! k' = Some cls -> k = k'.
Proof.
  intros H H'. apply registry_inv in H, H'. congruence.
Qed.

Ltac step_layers :=
  match goal with
  | |- returns (?m ≫= _) =>
      let l := fresh "l" in let Hl := fresh "Hl" in
      assert (returns m) as [l Hl];
      [ first [ apply init_2layer_Ok; lia | apply abstract_init_Ok; assumption
              | assumption ]
      | rewrite Hl; simpl ]
  end.

Lemma instantiate_returns get_sphere cls w input_size dropout kw :
  cls <> ClsFisherVonMisesMixture ->
  valid_dropout dropout -> (0 <= input_size)%Z ->
  (0 <= kw_nb_gaussians kw)%Z -> returns (get_sphere (kw_sphere kw)) ->
  returns (instantiate get_sphere cls w input_size dropout kw).
Proof.
  intros Hcls Hd Hi Hnb Hsphere.
  destruct cls; simpl; try contradiction;
    unfold CosineRegressionDirectionGetter.__init__,
      L2RegressionDirectionGetter.__init__,
      SphereClassificationDirectionGetter.__init__,
      SingleGaussianDirectionGetter.__init__,
      GaussianMixtureDirectionGetter.__init__,
      FisherVonMisesDirectionGetter.__init__;
    repeat step_layers; eexists; reflexivity.
Qed.

Lemma mixture_stub_raises w input_size dropout n_cluster :
  FisherVonMisesMixtureDirectionGetter.__init__ w input_size dropout n_cluster
  = if truthy dropout && out_of_unit_range dropout
    then Raise (ValueError "Dropout rate should be between 0 and 1.")
    else Raise (NotImplementedError "").
Proof.
  unfold FisherVonMisesMixtureDirectionGetter.__init__,
    AbstractDirectionGetterModel.__init__.
  now destruct (truthy dropout && out_of_unit_range dropout).
Qed.

Lemma dropout_check_valid dropout :
  valid_dropout dropout -> truthy dropout && out_of_unit_range dropout = false.
Proof.
  destruct dropout as [p|]; simpl; [|reflexivity]. intros Hp.
  rewrite (bool_decide_eq_false_2 (p < 0)%R) by lra.
  rewrite (bool_decide_eq_false_2 (p > 1)%R) by lra.
  now rewrite andb_false_r.
Qed.

Lemma dropout_check_invalid dropout :
  ~ valid_dropout dropout -> truthy dropout && out_of_unit_range dropout = true.
Proof.
  destruct dropout as [p|]; simpl; [|tauto]. intros Hp.
  rewrite bool_decide_eq_true_2 by (intros ->; apply Hp; lra). simpl.
  destruct (decide (p < 0)%R).
  - now rewrite bool_decide_eq_true_2.
  - rewrite (bool_decide_eq_true_2 (p > 1)%R); [apply orb_true_r|].
    apply Rnot_le_gt. intros Hle. apply Hp. lra.
Qed.

(** C10. For every key k of the registry other than
    'fisher-von-mises-mixture', every head the mapped class constructs has
    its [key] attribute equal to k, and construction succeeds on valid
    arguments. For 'fisher-von-mises-mixture' construction never yields a
    head: it raises the unimplemented-stub error when the dropout argument
    is None or a rate in [0, 1], and the base class's ValueError for any
    other dropout, which is checked first. *)
Theorem C10_registry_keys (get_sphere : string -> res matrix) (k : string)
    (cls : DirectionGetterClass) (w : nat -> LinearInit) (input_size : Z)
    (dropout : option R) (kw : CtorKwargs) :
  keys_to_direction_getters !! k = Some cls ->
  (k <> "fisher-von-mises-mixture" ->
     (forall self,
         instantiate get_sphere cls w input_size dropout kw = Ok self ->
         getattr self "key" = Ok (VStr k)) /\
     (valid_dropout dropout -> (0 <= input_size)%Z ->
      (0 <= kw_nb_gaussians kw)%Z -> returns (get_sphere (kw_sphere kw)) ->
      returns (instantiate get_sphere cls w input_size dropout kw))) /\
  (k = "fisher-von-mises-mixture" ->
     raises (instantiate get_sphere cls w input_size dropout kw) /\
     (valid_dropout dropout ->
      instantiate get_sphere cls w input_size dropout kw
      = Raise (NotImplementedError "")) /\
     (~ valid_dropout dropout ->
      instantiate get_sphere cls w input_size dropout kw
      = Raise (ValueError "Dropout rate should be between 0 and 1."))).
Proof.
  intros Hk. split.
  - intros Hne. split.
    + intros self Hself.
      destruct (instantiate_key _ _ _ _ _ _ _ Hself) as (k' & Hk' & Hkey).
      now rewrite (registry_key_unique _ _ _ Hk Hk').
    + apply instantiate_returns. intros ->.
      apply Hne. now apply (registry_key_unique _ _ _ Hk).
  - intros ->. apply registry_inv in Hk.
    destruct cls; try discriminate Hk. simpl. rewrite mixture_stub_raises.
    split; [|split].
    + destruct (truthy dropout && out_of_unit_range dropout); eexists; reflexivity.
    + intros Hd. now rewrite dropout_check_valid.
    + intros Hd. now rewrite dropout_check_invalid.
Qed.

Lemma C10_witness :
  keys_to_direction_getters !! "gaussian" = Some ClsSingleGaussian /\
  exists self,
    instantiate (fun _ => Ok []) ClsSingleGaussian zero_init 4 None
      default_kwargs = Ok self /\
    getattr self "key" = Ok (VStr "gaussian").
Proof.
  split; [reflexivity|]. eexists. split; [reflexivity|].
  apply (C10_registry_keys (fun _ => Ok []) "gaussian" ClsSingleGaussian
           zero_init 4 None default_kwargs); [reflexivity|discriminate|reflexivity].
Defined.

(** The mixture stub does not always raise the unimplemented-stub error:
    with dropout = 2 the base-class check raises ValueError first. *)
Lemma C10_counterexample :
  keys_to_direction_getters !! "fisher-von-mises-mixture"
  = Some ClsFisherVonMisesMixture /\
  ~ (forall (get_sphere : string -> res matrix) w input_size dropout kw,
        exists msg,
          instantiate get_sphere ClsFisherVonMisesMixture w input_size dropout kw
          = Raise (NotImplementedError msg)).
Proof.
  split; [reflexivity|]. intros H.
  destruct (H (fun _ => Ok []) zero_init 4%Z (Some 2%R) default_kwargs)
    as [msg Hmsg].
  simpl in Hmsg. rewrite mixture_stub_raises in Hmsg.
  rewrite dropout_check_invalid in Hmsg; [discriminate Hmsg|].
  simpl. lra.
Qed.

(** ** C3: monitor state on checkpoint resume *)

Section CheckpointResume.

Import DWIMLTrainerForTrackingOneInput.

(** C3. The invalid-streamline-ratio monitor is not restored from the
    checkpoint: whenever the restoration succeeds the monitor ends at
    epoch 149 with 150 zero averages, whatever the checkpoint holds under
    'tracking_valid_IS_monitor_state', present or not; the loss monitor
    next to it is restored from its stored state. *)
Theorem C3_IS_monitor_padded_unconditionally (Parent : Type)
    (super_update : Parent -> gmap string BatchHistoryMonitor -> res Parent)
    (self self' : Trainer Parent)
    (current_states : gmap string BatchHistoryMonitor) :
  _update_states_from_checkpoint Parent super_update self current_states
  = Ok self' ->
  tracking_valid_IS_monitor Parent self' = mkMonitor 149 (replicate 150 0%R) /\
  current_states !! "tracking_valid_loss_monitor_state"
  = Some (tracking_valid_loss_monitor Parent self').
Proof.
  unfold _update_states_from_checkpoint. intros H.
  apply bind_Ok in H as (parent' & _ & H).
  destruct (current_states !! "tracking_valid_loss_monitor_state")
    as [[epoch averages]|]; simpl in H; [|discriminate H].
  injection H as <-. simpl. split; reflexivity.
Qed.

Lemma C3_witness :
  resumed_states !! "tracking_valid_IS_monitor_state" = Some stored_IS_state /\
  exists self',
    _update_states_from_checkpoint unit (fun p _ => Ok p) fresh_trainer
      resumed_states = Ok self' /\
    tracking_valid_IS_monitor unit self' = mkMonitor 149 (replicate 150 0%R) /\
    tracking_valid_IS_monitor unit self' <> stored_IS_state.
Proof.
  split; [reflexivity|]. eexists. split; [reflexivity|].
  destruct (C3_IS_monitor_padded_unconditionally unit (fun p _ => Ok p)
              fresh_trainer _ resumed_states eq_refl) as [HIS _].
  split; [exact HIS|]. rewrite HIS. discriminate.
Defined.

End CheckpointResume.

(** ** C8: sequences longer than max_len *)

Section TransformerForward.

Import AbstractTransformerModel.

Lemma existsb_too_long (bound : Z) (inputs : list matrix) :
  existsb (fun l => Z.ltb bound l) (map len inputs) = true <->
  exists i, In i inputs /\ (bound < len i)%Z.
Proof.
  rewrite existsb_exists. split.
  - intros (l & Hin & Hlt). apply in_map_iff in Hin as (i & <- & Hin).
    exists i. split; [assumption | lia].
  - intros (i & Hin & Hlt). exists (len i). split; [now apply in_map | lia].
Qed.

(** C8. When some input sequence is longer than max_len, forward raises,
    whatever the rest of the forward pass would compute: with the context
    set and inputs matching their streamlines in length, the exception is
    the ValueError of the length check. Conversely the rest of the forward
    pass only ever runs on the inputs as they were given, none of them
    longer than max_len. *)
Theorem C8_forward_rejects_long_sequences (Outputs : Type)
    (process : Model -> bool -> Z -> list Z -> list matrix -> list matrix ->
               res Outputs)
    (self : Model) (inputs input_streamlines : list matrix) :
  ((exists i, In i inputs /\ (max_len self < len i)%Z) ->
     raises (forward Outputs process self inputs input_streamlines) /\
     (_context self <> None ->
      Forall (fun '(i, s) => len i = len s) (zip inputs input_streamlines) ->
      forward Outputs process self inputs input_streamlines
      = Raise (ValueError
          "Some streamlines were longer than accepted max length for sequences")))
  /\
  (forall out,
      forward Outputs process self inputs input_streamlines = Ok out ->
      Forall (fun i => (len i <= max_len self)%Z) inputs /\
      exists use_padding batch_max_len,
        process self use_padding batch_max_len (map len inputs) inputs
          input_streamlines = Ok out).
Proof.
  unfold forward. split.
  - intros Hlong. apply existsb_too_long in Hlong. split.
    + destruct (_context self); [|eexists; reflexivity].
      destruct (negb _); [eexists; reflexivity|].
      rewrite Hlong. eexists; reflexivity.
    + intros Hctx Hlen. destruct (_context self); [|contradiction].
      replace (forallb _ (zip inputs input_streamlines)) with true.
      * simpl. now rewrite Hlong.
      * symmetry. apply forallb_forall. intros [i st] Hin.
        rewrite Forall_forall in Hlen.
        apply Z.eqb_eq, (Hlen (i, st)). now apply list_elem_of_In.
  - intros out H. destruct (_context self); [|discriminate H].
    destruct (negb _); [discriminate H|].
    destruct (existsb _ (map len inputs)) eqn:Hex; [discriminate H|].
    split.
    + apply Forall_forall. intros i Hin.
      destruct (Z_le_gt_dec (len i) (max_len self)) as [Hle|Hgt]; [assumption|].
      assert (existsb (fun l => Z.ltb (max_len self) l) (map len inputs) = true)
        as Hex'.
      { apply existsb_too_long. exists i. split; [now apply list_elem_of_In | lia]. }
      congruence.
    + destruct (map len inputs) as [|first lens] eqn:Hlens; [discriminate H|].
      eauto.
Qed.

Lemma C8_witness :
  raises (forward unit (fun _ _ _ _ _ _ => Ok tt)
            (mkModel (Some "training") 2)
            [[[1]; [2]; [3]]]%R [[[0]; [0]; [0]]]%R).
Proof.
  apply (C8_forward_rejects_long_sequences unit (fun _ _ _ _ _ _ => Ok tt)
           (mkModel (Some "training") 2) [[[1]; [2]; [3]]]%R
           [[[0]; [0]; [0]]]%R).
  exists [[1]; [2]; [3]]%R. split; [left; reflexivity | reflexivity].
Defined.

End TransformerForward.

(** ** C2: deterministic direction of the classification head *)

(** Decides the comparisons of an arg-max over explicit reals. *)
Ltac decide_reals :=
  repeat match goal with
         | |- context [decide (?a < ?b)%R] =>
             destruct (decide (a < b)%R); try lra
         end.

Lemma small_classifier_vertices self :
  small_classifier = Ok self ->
  get_tensor self "vertices" = Ok ("cpu", three_vertices).
Proof.
  unfold small_classifier, SphereClassificationDirectionGetter.__init__.
  intros H. apply bind_Ok in H as (self0 & Habs & H).
  apply abstract_init_inv in Habs as (sub & Hsub & ->).
  simpl in H. injection H as <-.
  unfold get_tensor, getattr, setattr, ModelAbstract.__init__, setattr.
  simplify_map_eq. reflexivity.
Qed.

(** C2. The deterministic direction of the classification head is not one
    vertex per batch row: the arg-max is taken over the flattened logits,
    so the result, when there is one, is a single vertex (rank 1), and on
    a batch of two rows whose largest logit lies in the second row the
    flat index runs past the vertices and IndexError is raised. *)
Theorem C2_det_direction_takes_flat_argmax :
  (forall self logits_per_class t,
      SphereClassificationDirectionGetter.get_tracking_direction_det self
        logits_per_class = Ok t ->
      exists vertex, t = T1 vertex) /\
  (forall self,
      small_classifier = Ok self ->
      SphereClassificationDirectionGetter.get_tracking_direction_det self
        [[0; 0; 0]; [0; 0; 1]]%R = Raise IndexError /\
      SphereClassificationDirectionGetter.get_tracking_direction_det self
        [[0; 1; 0]; [0; 0; 0]]%R = Ok (T1 [0; 1; 0]%R)).
Proof.
  split.
  - intros self logits t H.
    unfold SphereClassificationDirectionGetter.get_tracking_direction_det in H.
    apply bind_Ok in H as ([device vertices] & _ & H).
    destruct (argmax (concat logits)) as [idx|]; [|discriminate H].
    destruct (vertices !! idx) as [vertex|]; [|discriminate H].
    injection H as <-. now exists vertex.
  - intros self Hself. apply small_classifier_vertices in Hself.
    unfold SphereClassificationDirectionGetter.get_tracking_direction_det.
    rewrite Hself. simpl. split; decide_reals; reflexivity.
Qed.

Lemma C2_witness :
  exists self,
    small_classifier = Ok self /\
    SphereClassificationDirectionGetter.get_tracking_direction_det self
      [[0; 0; 0]; [0; 0; 1]]%R = Raise IndexError.
Proof.
  eexists. split; [reflexivity|].
  apply (proj2 C2_det_direction_takes_flat_argmax). reflexivity.
Defined.

(** ** Arg-max and dot products *)

Lemma argmax_from_spec (p l : list R) (best : nat) (vbest : R) :
  p !! best = Some vbest ->
  (forall j x, p !! j = Some x -> (x <= vbest)%R) ->
  (forall j x, p !! j = Some x -> (j < best)%nat -> (x < vbest)%R) ->
  first_maximum (p ++ l) (argmax_from (length p) best vbest l).
Proof.
  revert p best vbest. induction l as [|x l IH]; intros p best vbest Hb Hmax Hfirst.
  - simpl. rewrite app_nil_r. exists vbest. auto.
  - simpl. replace (p ++ x :: l) with ((p ++ [x]) ++ l)
      by (now rewrite <- app_assoc).
    replace (S (length p)) with (length (p ++ [x]))
      by (rewrite length_app; simpl; lia).
    destruct (decide (vbest < x)%R) as [Hlt|Hge].
    + apply IH.
      * rewrite lookup_app_r by lia. now rewrite Nat.sub_diag.
      * intros j y Hj. apply lookup_app_Some in Hj as [Hj | [Hlen Hj]].
        -- specialize (Hmax _ _ Hj). lra.
        -- destruct (j - length p)%nat; simpl in Hj; [|discriminate Hj].
           injection Hj as <-. lra.
      * intros j y Hj Hjlt. apply lookup_app_Some in Hj as [Hj | [Hlen Hj]];
          [|lia]. specialize (Hmax _ _ Hj). lra.
    + apply IH.
      * now apply lookup_app_l_Some.
      * intros j y Hj. apply lookup_app_Some in Hj as [Hj | [Hlen Hj]].
        -- now apply (Hmax j).
        -- destruct (j - length p)%nat; simpl in Hj; [|discriminate Hj].
           injection Hj as <-. lra.
      * intros j y Hj Hjlt. apply lookup_app_Some in Hj as [Hj | [Hlen Hj]].
        -- now apply (Hfirst j).
        -- apply lookup_lt_Some in Hb. lia.
Qed.

Lemma argmax_spec (l : list R) (k : nat) :
  argmax l = Some k -> first_maximum l k.
Proof.
  destruct l as [|x l]; [discriminate|]. intros [= <-].
  apply (argmax_from_spec [x] l 0 x); [reflexivity| |].
  - intros [|j] y Hj; simpl in Hj; [|discriminate]. injection Hj as <-. lra.
  - intros j y _ Hj. lia.
Qed.

Lemma argmax_nonempty (l : list R) : l <> [] -> exists k, argmax l = Some k.
Proof. destruct l; [contradiction|]. intros _. eexists; reflexivity. Qed.

Lemma first_maximum_unique (l : list R) (k k' : nat) :
  first_maximum l k -> first_maximum l k' -> k = k'.
Proof.
  intros (m & Hk & Hmax & Hfirst) (m' & Hk' & Hmax' & Hfirst').
  destruct (Nat.lt_trichotomy k k') as [Hlt | [Heq | Hgt]]; [|assumption|].
  - specialize (Hfirst' _ _ Hk Hlt). specialize (Hmax _ _ Hk'). lra.
  - specialize (Hfirst _ _ Hk' Hgt). specialize (Hmax' _ _ Hk). lra.
Qed.

Lemma dot_nil_l v : dot [] v = 0%R.
Proof. reflexivity. Qed.

Lemma dot_cons x u y v : dot (x :: u) (y :: v) = (x * y + dot u v)%R.
Proof. reflexivity. Qed.

Lemma dot_self_nonneg v : (0 <= dot v v)%R.
Proof.
  induction v as [|x v IH]; [unfold dot; simpl; lra|].
  rewrite dot_cons. nra.
Qed.

Lemma dot_vsub_self u v :
  length u = length v ->
  dot (vsub u v) (vsub u v) = (dot u u + dot v v - 2 * dot u v)%R.
Proof.
  revert v. induction u as [|x u IH]; intros [|y v] Hlen; try discriminate.
  - unfold dot; simpl; lra.
  - unfold vsub in *. simpl. rewrite !dot_cons. rewrite IH by (simpl in Hlen; lia).
    lra.
Qed.

Lemma dot_self_zero_vsub u v :
  length u = length v -> dot (vsub u v) (vsub u v) = 0%R -> u = v.
Proof.
  revert v. induction u as [|x u IH]; intros [|y v] Hlen; try discriminate.
  - reflexivity.
  - unfold vsub in *. simpl. rewrite dot_cons. intros H.
    pose proof (dot_self_nonneg (zip_with Rminus u v)) as Hnn.
    assert (x = y) as -> by nra.
    f_equal. apply IH; [simpl in Hlen; lia|]. nra.
Qed.

(** Two unit vectors whose dot product reaches 1 are equal. *)
Lemma unit_dot_ge_1_eq u v :
  length u = length v -> dot u u = 1%R -> dot v v = 1%R ->
  (1 <= dot u v)%R -> u = v.
Proof.
  intros Hlen Hu Hv Huv. apply dot_self_zero_vsub; [assumption|].
  pose proof (dot_self_nonneg (vsub u v)) as Hnn.
  rewrite dot_vsub_self in * by assumption. lra.
Qed.

Lemma mapM_map {A B : Type} (f : A -> res B) (g : A -> B) (l : list A) :
  Forall (fun a => f a = Ok (g a)) l -> mapM f l = Ok (map g l).
Proof.
  induction 1 as [|a l Ha _ IH]; simpl; [reflexivity|].
  now rewrite Ha, IH.
Qed.

Lemma to_int16_small (k : nat) :
  (Z.of_nat k < 32768)%Z -> to_int16 (Z.of_nat k) = Z.of_nat k.
Proof.
  intros Hk. unfold to_int16. rewrite Z.mod_small by lia. lia.
Qed.

Lemma matmul_t_Ok (a b : matrix) :
  Forall (fun row => Forall (fun col => length col = length row) b) a ->
  matmul_t a b = Ok (map (fun row => map (dot row) b) a).
Proof.
  intros Hshape. unfold matmul_t. apply mapM_map.
  eapply Forall_impl; [exact Hshape|]. intros row Hrow. simpl in *.
  replace (forallb _ b) with true; [reflexivity|].
  symmetry. apply forallb_forall. intros col Hin.
  rewrite Forall_forall in Hrow. apply Nat.eqb_eq, Hrow.
  now apply list_elem_of_In.
Qed.

Lemma argmax_last_Ok (t : matrix) :
  Forall (fun row => row <> []) t ->
  exists index, argmax_last t = Ok index /\
                Forall2 (fun row k => first_maximum row k) t index.
Proof.
  induction 1 as [|row t Hrow _ (index & Hindex & Hall)].
  - exists []. split; [reflexivity | constructor].
  - destruct (argmax_nonempty row Hrow) as [k Hk].
    exists (k :: index). split.
    + unfold argmax_last in *. simpl. rewrite Hk. simpl. now rewrite Hindex.
    + constructor; [now apply argmax_spec | assumption].
Qed.

Section ClosestVertex.

Import SphereClassificationDirectionGetter.

(** C6. On a head whose sphere has at least one and at most 32768
    vertices, and for target directions of the vertices' dimension,
    [_find_closest_vertex] returns, for each direction, the index of the
    first vertex whose dot product with the direction is maximal. When the
    vertices are unit vectors without repetition, a direction that is
    itself a vertex gets that vertex's own index. *)
Theorem C6_find_closest_vertex_first_argmax (self : object)
    (device directions_device : string) (vertices directions : matrix) :
  get_tensor self "vertices" = Ok (device, vertices) ->
  vertices <> [] -> (Z.of_nat (length vertices) <= 32768)%Z ->
  Forall (fun d => Forall (fun v => length v = length d) vertices) directions ->
  exists self' index,
    _find_closest_vertex self directions_device directions
    = Ok (self', index) /\
    Forall2 (fun d z => exists k, z = Z.of_nat k /\
                                  first_maximum (map (dot d) vertices) k)
            directions index /\
    (Forall (fun v => dot v v = 1%R) vertices -> NoDup vertices ->
     forall i j v,
       directions !! i = Some v -> vertices !! j = Some v ->
       index !! i = Some (Z.of_nat j)).
Proof.
  intros Hget Hne Hsize Hshape. unfold _find_closest_vertex.
  rewrite Hget. simpl.
  set (self' := if bool_decide (device <> directions_device)
                then setattr self "vertices" (VTensor directions_device vertices)
                else self).
  assert (exists dev, get_tensor self' "vertices" = Ok (dev, vertices))
    as [dev Hget'].
  { subst self'. case_bool_decide.
    - exists directions_device. unfold get_tensor, getattr, setattr.
      now rewrite lookup_insert_eq.
    - now exists device. }
  rewrite Hget'. simpl. rewrite (matmul_t_Ok _ _ Hshape). simpl.
  destruct (argmax_last_Ok (map (fun row => map (dot row) vertices) directions))
    as (index & -> & Hindex).
  { apply Forall_map, Forall_true. intros d Hnil.
    apply map_eq_nil in Hnil. contradiction. }
  simpl. exists self', (map (fun i => to_int16 (Z.of_nat i)) index).
  split; [reflexivity|].
  assert (Forall2 (fun d z => exists k, z = Z.of_nat k /\
                     first_maximum (map (dot d) vertices) k)
            directions (map (fun i => to_int16 (Z.of_nat i)) index)) as Hall.
  { apply (proj1 (Forall2_fmap_l (fun row => map (dot row) vertices)
                     first_maximum directions index)) in Hindex.
    apply Forall2_fmap_r.
    eapply Forall2_impl; [exact Hindex|]. intros d k Hk. simpl in *.
    exists k. split; [|assumption].
    apply to_int16_small. destruct Hk as (m & Hm & _).
    apply lookup_lt_Some in Hm. rewrite length_map in Hm. lia. }
  split; [assumption|].
  intros Hunit Hdistinct i j v Hi Hj.
  destruct (Forall2_lookup_l _ _ _ _ _ Hall Hi) as (z & Hz & k & -> & Hk).
  rewrite Hz. do 2 f_equal.
  destruct Hk as (m & Hm & Hmax & _).
  rewrite list_lookup_fmap in Hm.
  apply fmap_Some in Hm as (vk & Hvk & ->).
  assert (dot v v <= dot v vk)%R as Hge.
  { apply (Hmax j). rewrite list_lookup_fmap. apply fmap_Some.
    exists v. split; [exact Hj | reflexivity]. }
  rewrite Forall_forall in Hunit.
  assert (v = vk) as <-.
  { apply unit_dot_ge_1_eq.
    - rewrite Forall_forall in Hshape.
      pose proof (Hshape v (list_elem_of_lookup_2 _ _ _ Hi)) as Hlen.
      rewrite Forall_forall in Hlen.
      symmetry. apply (Hlen vk (list_elem_of_lookup_2 _ _ _ Hvk)).
    - apply Hunit, (list_elem_of_lookup_2 _ _ _ Hj).
    - apply Hunit, (list_elem_of_lookup_2 _ _ _ Hvk).
    - rewrite <- (Hunit v (list_elem_of_lookup_2 _ _ _ Hj)) at 1. exact Hge. }
  eapply NoDup_lookup; eassumption.
Qed.

End ClosestVertex.

Lemma three_vertices_unit : Forall (fun v => dot v v = 1%R) three_vertices.
Proof. repeat constructor; unfold dot; simpl; lra. Qed.

Lemma three_vertices_distinct : NoDup three_vertices.
Proof.
  unfold three_vertices.
  repeat (constructor;
          [rewrite ?elem_of_cons, elem_of_nil;
           intros H; repeat destruct H as [H|H]; try injection H; intros; lra|]).
  constructor.
Qed.

Lemma C6_witness :
  exists self self',
    small_classifier = Ok self /\
    SphereClassificationDirectionGetter._find_closest_vertex self "cuda"
      [[0; 1; 0]]%R = Ok (self', [1%Z]).
Proof.
  eexists. 
  destruct (C6_find_closest_vertex_first_argmax _ "cpu" "cuda" three_vertices
              [[0; 1; 0]]%R (small_classifier_vertices _ eq_refl))
    as (self' & index & Hcall & Hall & Hown).
  - discriminate.
  - simpl. lia.
  - repeat constructor.
  - exists self'. split; [reflexivity|]. rewrite Hcall. do 2 f_equal.
    specialize (Hown three_vertices_unit three_vertices_distinct 0%nat 1%nat
                  [0; 1; 0]%R eq_refl eq_refl).
    apply Forall2_length in Hall.
    destruct index as [|z [|z' index]]; try discriminate Hall.
    simpl in Hown. now injection Hown as ->.
Defined.

(** ** C7: output of the Fisher-von Mises head *)

Lemma sigmoid_bounds x : (0 < sigmoid x < 1)%R.
Proof.
  unfold sigmoid. pose proof (exp_pos (- x)) as He.
  split.
  - apply Rdiv_lt_0_compat; lra.
  - apply Rmult_lt_reg_r with (1 + exp (- x))%R; [lra|].
    unfold Rdiv. rewrite Rmult_assoc, Rinv_l by lra. lra.
Qed.

Lemma dot_map_div c v :
  dot (map (fun x => (x / c)%R) v) (map (fun x => (x / c)%R) v)
  = (dot v v * (/ c * / c))%R.
Proof.
  induction v as [|x v IH]; [unfold dot; simpl; lra|].
  simpl. rewrite !dot_cons, IH. unfold Rdiv. ring.
Qed.

Lemma norm_nonneg v : (0 <= norm v)%R.
Proof. apply sqrt_pos. Qed.

Lemma normalize_eps_pos : (0 < normalize_eps)%R.
Proof. unfold normalize_eps. apply Rinv_0_lt_compat. lra. Qed.

Lemma normalize_eps_le_1 : (normalize_eps <= 1)%R.
Proof.
  unfold normalize_eps.
  apply Rmult_le_reg_r with 1000000000000%R; [lra|].
  rewrite Rinv_l by lra. lra.
Qed.

(** Above the clamp, [normalize] yields a unit vector. *)
Lemma norm_normalize v :
  (normalize_eps <= norm v)%R -> norm (normalize v) = 1%R.
Proof.
  intros Hn. pose proof normalize_eps_pos as Heps.
  unfold normalize. rewrite Rmax_left by assumption.
  unfold norm at 1. rewrite dot_map_div.
  assert (dot v v = norm v * norm v)%R as ->.
  { unfold norm. now rewrite sqrt_sqrt by apply dot_self_nonneg. }
  replace (norm v * norm v * (/ norm v * / norm v))%R with 1%R.
  - apply sqrt_1.
  - field. lra.
Qed.

(** Below it the scaling is by the clamp; the zero vector stays zero. *)
Lemma norm_normalize_zero v :
  Forall (fun x => x = 0%R) v -> norm (normalize v) = 0%R.
Proof.
  intros Hz. unfold norm at 1, normalize. rewrite dot_map_div.
  assert (dot v v = 0%R) as ->.
  { induction Hz as [|x v -> _ IH]; [reflexivity|]. rewrite dot_cons, IH. lra. }
  rewrite Rmult_0_l. apply sqrt_0.
Qed.

Lemma squeeze_last_column (m : matrix) (B : nat) :
  has_shape B 1 m -> squeeze_last m = T1 (map (fun row => hd 0%R row) m).
Proof.
  intros [_ Hrows]. unfold squeeze_last.
  replace (forallb _ m) with true; [reflexivity|].
  symmetry. apply forallb_forall. intros row Hin.
  rewrite Forall_forall in Hrows. apply Nat.eqb_eq, Hrows.
  now apply list_elem_of_In.
Qed.

Lemma fisher_init_inv w i d self :
  FisherVonMisesDirectionGetter.__init__ w i d = Ok self ->
  sublayers_ready self /\ (0 <= i)%Z /\
  self !! "key" = Some (VStr "fisher-von-mises") /\
  self !! "layers_mean"
    = Some (VModuleList (two_layers (w 0%nat) (w 1%nat) i 3)) /\
  self !! "layers_kappa"
    = Some (VModuleList (two_layers (w 2%nat) (w 3%nat) i 1)).
Proof.
  unfold FisherVonMisesDirectionGetter.__init__. intros H. init_inv H.
  split; [ready|]. split; [assumption|].
  unfold setattr, ModelAbstract.__init__, setattr. simplify_map_eq. auto.
Qed.

Lemma dot_zero_weights (f : nat -> R) (l : list nat) (x : vector) :
  (forall j, f j = 0%R) -> dot (map f l) x = 0%R.
Proof.
  intros Hf. revert x. induction l as [|j l IH]; intros [|a x]; try reflexivity.
  simpl. rewrite dot_cons, IH, Hf. lra.
Qed.

Lemma Linear_row_zero_weight h x y :
  (forall i j, weight h i j = 0%R) ->
  Linear_row h x = Ok y ->
  y = map (bias h) (seq 0 (Z.to_nat (out_features h))).
Proof.
  intros Hw. unfold Linear_row. case_decide; [|discriminate].
  intros [= <-]. apply map_ext. intros i.
  rewrite dot_zero_weights by apply Hw. lra.
Qed.

Lemma loop_two_layers_last keep self x w1 w2 i o y :
  AbstractDirectionGetterModel.loop_on_layers keep self x
    (two_layers w1 w2 i o) = Ok y ->
  exists z, Linear_call (mkLinear (ceil_half i) o (fst w2) (snd w2)) z = Ok y.
Proof.
  unfold AbstractDirectionGetterModel.loop_on_layers. simpl. intros H.
  apply bind_Ok in H as (pre & _ & H). apply bind_Ok in H as (act & _ & H).
  apply bind_Ok in H as (drop & _ & H). now exists drop.
Qed.

(** With zero weights in the last layer, every output row is the bias. *)
Lemma loop_two_layers_zero_weight keep self x w1 w2 i o y :
  (forall a b, fst w2 a b = 0%R) ->
  AbstractDirectionGetterModel.loop_on_layers keep self x
    (two_layers w1 w2 i o) = Ok y ->
  Forall (fun row => row = map (snd w2) (seq 0 (Z.to_nat o))) y.
Proof.
  intros Hw H. apply loop_two_layers_last in H as (z & Hz).
  apply mapM_Ok in Hz. clear -Hz Hw.
  induction Hz as [|a row z y Hrow _ IH]; constructor; [|exact IH].
  now apply Linear_row_zero_weight in Hrow.
Qed.

Lemma fisher_forward_Ok (w : nat -> LinearInit) (input_size : Z)
    (dropout : option R) (self : object) (keep : nat -> nat -> DropoutMask)
    (inputs : matrix) (B : nat) :
  FisherVonMisesDirectionGetter.__init__ w input_size dropout = Ok self ->
  has_shape B (Z.to_nat input_size) inputs ->
  exists raw kappas,
    AbstractDirectionGetterModel.loop_on_layers (keep 0%nat) self inputs
      (two_layers (w 0%nat) (w 1%nat) input_size 3) = Ok raw /\
    FisherVonMisesDirectionGetter.raw_means keep self inputs = Ok raw /\
    FisherVonMisesDirectionGetter.forward keep self inputs
    = Ok (map normalize raw, T1 kappas) /\
    has_shape B 3 raw /\ length kappas = B /\
    Forall (fun kappa => (0 <= kappa <= 20)%R) kappas.
Proof.
  intros Hinit Hx.
  apply fisher_init_inv in Hinit as (Hready & Hi & _ & Hmean & Hkappa).
  destruct (loop_two_layers (keep 0%nat) self inputs B input_size 3
              (w 0%nat) (w 1%nat)) as (raw & Hraw & Hshape);
    [assumption | assumption | lia | assumption |].
  destruct (loop_two_layers (keep 1%nat) self inputs B input_size 1
              (w 2%nat) (w 3%nat)) as (unbound & Hunbound & Hshape1);
    [assumption | assumption | lia | assumption |].
  assert (FisherVonMisesDirectionGetter.raw_means keep self inputs = Ok raw)
    as Hrm.
  { unfold FisherVonMisesDirectionGetter.raw_means.
    now rewrite (get_layers_Ok _ _ _ Hmean). }
  exists raw, (map (fun row => hd 0%R row)
                 (map (map (fun x => (sigmoid x * 20)%R)) unbound)).
  split; [assumption|]. split; [assumption|].
  split; [|split; [assumption|split]].
  - unfold FisherVonMisesDirectionGetter.forward. rewrite Hrm. simpl.
    rewrite (get_layers_Ok _ _ _ Hkappa). simpl. rewrite Hunbound. simpl.
    rewrite (squeeze_last_column _ B); [reflexivity|].
    now apply has_shape_map_map.
  - rewrite !length_map. apply Hshape1.
  - destruct Hshape1 as [_ Hrows]. clear -Hrows.
    induction Hrows as [|row unbound Hrow _ IH]; simpl; constructor; [|exact IH].
    destruct row as [|x [|? ?]]; try discriminate Hrow. simpl.
    pose proof (sigmoid_bounds x). lra.
Qed.

Section FisherForward.

Import FisherVonMisesDirectionGetter.

(** C7. For every head built by the constructor and every batch
    of B feature vectors, forward returns B means and B concentrations;
    every concentration lies in [0, 20]; and each mean is the normalised
    output of the mean head, of norm 1 whenever that output has norm at
    least 1e-12, the clamp of the normalisation. *)
Theorem C7_fisher_forward_ranges (w : nat -> LinearInit) (input_size : Z)
    (dropout : option R) (self : object) (keep : nat -> nat -> DropoutMask)
    (inputs : matrix) (B : nat) :
  __init__ w input_size dropout = Ok self ->
  has_shape B (Z.to_nat input_size) inputs ->
  exists raw kappas,
    raw_means keep self inputs = Ok raw /\
    forward keep self inputs = Ok (map normalize raw, T1 kappas) /\
    length raw = B /\ length kappas = B /\
    Forall (fun kappa => (0 <= kappa <= 20)%R) kappas /\
    Forall (fun mean => (normalize_eps <= norm mean)%R ->
                        norm (normalize mean) = 1%R) raw.
Proof.
  intros Hinit Hx.
  destruct (fisher_forward_Ok w input_size dropout self keep inputs B Hinit Hx)
    as (raw & kappas & _ & Hraw & Hfwd & [Hlen _] & Hk & Hbounds).
  exists raw, kappas. repeat (split; [assumption|]).
  apply Forall_true. intros mean. apply norm_normalize.
Qed.

Lemma C7_witness :
  exists self kappas,
    __init__ unit_bias_init 2 None = Ok self /\
    forward keep_all self [[1; 2]]%R
    = Ok ([normalize [1; 1; 1]%R], T1 kappas) /\
    norm (normalize [1; 1; 1]%R) = 1%R /\
    Forall (fun kappa => (0 <= kappa <= 20)%R) kappas.
Proof.
  assert (has_shape 1 (Z.to_nat 2) [[1; 2]]%R) as Hshape.
  { split; [reflexivity|]. repeat constructor. }
  eexists.
  destruct (C7_fisher_forward_ranges unit_bias_init 2 None _ keep_all
              [[1; 2]]%R 1%nat eq_refl Hshape)
    as (raw & kappas & Hraw & Hfwd & Hlen & _ & Hk & Hunit).
  assert (raw = [[1; 1; 1]%R]) as ->.
  { unfold raw_means in Hraw. apply bind_Ok in Hraw as (layers & Hl & Hraw).
    injection Hl as <-.
    apply (loop_two_layers_zero_weight _ _ _ (unit_bias_init 0%nat)
             (unit_bias_init 1%nat) 2 3) in Hraw; [|reflexivity].
    destruct raw as [|row [|? ?]]; try discriminate Hlen.
    inversion Hraw as [|? ? Hrow _]; subst. reflexivity. }
  exists kappas. split; [reflexivity|]. split; [exact Hfwd|].
  split; [|exact Hk].
  inversion Hunit as [|? ? Hmean _]; subst. apply Hmean.
  apply Rle_trans with 1%R; [apply normalize_eps_le_1|].
  unfold norm, dot. simpl.
  rewrite <- sqrt_1 at 1. apply sqrt_le_1_alt. lra.
Defined.

(** The means are not always unit vectors: with all-zero weights the mean
    head outputs the zero vector, which the normalisation leaves at zero. *)
Lemma C7_counterexample :
  ~ (forall w input_size dropout self keep inputs means kappas,
        __init__ w input_size dropout = Ok self ->
        forward keep self inputs = Ok (means, kappas) ->
        Forall (fun mean => norm mean = 1%R) means).
Proof.
  intros Hall.
  assert (has_shape 1 (Z.to_nat 2) [[1; 2]]%R) as Hshape.
  { split; [reflexivity|]. repeat constructor. }
  assert (exists self, __init__ zero_init 2 None = Ok self) as [self Hself]
    by (eexists; reflexivity).
  destruct (fisher_forward_Ok zero_init 2 None self keep_all [[1; 2]]%R 1%nat
              Hself Hshape)
    as (raw & kappas & Hloop & _ & Hfwd & [Hlen _] & _ & _).
  specialize (Hall _ _ _ _ _ _ _ _ Hself Hfwd).
  apply (loop_two_layers_zero_weight _ _ _ (zero_init 0%nat) (zero_init 1%nat)
           2 3) in Hloop; [|reflexivity].
  destruct raw as [|row [|? ?]]; try discriminate Hlen.
  inversion Hloop as [|? ? Hrow _]; subst.
  inversion Hall as [|? ? Hnorm _]; subst.
  rewrite norm_normalize_zero in Hnorm; [lra|].
  repeat constructor.
Qed.

End FisherForward.

(** ** C4: scoring of the generated streamlines *)

Lemma streamlines_final_points lines :
  streamlines_3d lines ->
  mapM last_point lines = Ok (final_points lines) /\
  final_points lines <> [] /\
  Forall (fun p => length p = 3%nat) (final_points lines).
Proof.
  intros [Hne Hall]. split; [|split].
  - unfold final_points. apply mapM_map.
    eapply Forall_impl; [exact Hall|]. intros line [Hline _]. simpl.
    unfold last_point. destruct (last line) eqn:Hlast; [reflexivity|].
    apply last_None in Hlast. contradiction.
  - destruct lines; [contradiction | discriminate].
  - unfold final_points. apply Forall_map.
    eapply Forall_impl; [exact Hall|]. intros line [Hline Hpts]. simpl.
    destruct (last line) as [p|] eqn:Hlast.
    + simpl. rewrite Forall_forall in Hpts. apply Hpts.
      apply last_Some in Hlast as [l' ->]. apply elem_of_app. right. now left.
    + apply last_None in Hlast. contradiction.
Qed.

Lemma vstack_points (rows : matrix) :
  rows <> [] -> Forall (fun p => length p = 3%nat) rows -> vstack rows = Ok rows.
Proof.
  intros Hne Hall. unfold vstack. destruct rows as [|r rows]; [contradiction|].
  replace (forallb _ (r :: rows)) with true; [reflexivity|].
  symmetry. apply forallb_forall. intros r' Hin.
  rewrite Forall_forall in Hall. apply Nat.eqb_eq.
  rewrite (Hall r') by now apply list_elem_of_In.
  rewrite (Hall r) by now left. reflexivity.
Qed.

Lemma pairwise_row_points x1 x2 :
  length x1 = length x2 -> pairwise_row x1 x2 = Ok (l2_loss x1 x2).
Proof.
  intros Hlen. unfold pairwise_row, broadcast2.
  rewrite (proj2 (Nat.eqb_eq _ _) Hlen). reflexivity.
Qed.

Lemma PairwiseDistance_points (x1 x2 : matrix) :
  length x1 = length x2 ->
  Forall (fun p => length p = 3%nat) x1 ->
  Forall (fun p => length p = 3%nat) x2 ->
  PairwiseDistance x1 x2 = Ok (zip_with l2_loss x1 x2).
Proof.
  intros Hlen H1 H2. unfold PairwiseDistance, broadcast2.
  rewrite (proj2 (Nat.eqb_eq _ _) Hlen). simpl.
  revert x2 Hlen H2. induction H1 as [|p1 x1 Hp1 _ IH]; intros [|p2 x2] Hlen H2;
    try discriminate Hlen; [reflexivity|].
  inversion H2 as [|? ? Hp2 H2']; subst. simpl.
  rewrite pairwise_row_points by congruence. simpl.
  rewrite IH by (simpl in Hlen; auto with lia). reflexivity.
Qed.

Section Tolerance.

Local Open Scope R_scope.




Lemma pairwise_eps_pos : 0 < pairwise_eps.
Proof. unfold pairwise_eps. apply Rinv_0_lt_compat. lra. Qed.



Lemma l2_loss_sq a1 a2 a3 b1 b2 b3 :
  l2_loss [a1; a2; a3] [b1; b2; b3] * l2_loss [a1; a2; a3] [b1; b2; b3]
  = (a1 - b1 + pairwise_eps) * (a1 - b1 + pairwise_eps)
    + (a2 - b2 + pairwise_eps) * (a2 - b2 + pairwise_eps)
    + (a3 - b3 + pairwise_eps) * (a3 - b3 + pairwise_eps).
Proof.
  unfold l2_loss. simpl. rewrite sqrt_sqrt; [ring|].
  pose proof (Rle_0_sqr (a1 - b1 + pairwise_eps)).
  pose proof (Rle_0_sqr (a2 - b2 + pairwise_eps)).
  pose proof (Rle_0_sqr (a3 - b3 + pairwise_eps)).
  unfold Rsqr in *. lra.
Qed.





End Tolerance.

Section TrackingValidation.

Import DWIMLTrainerForTrackingOneInput.

Lemma count_above_single (threshold x : R) :
  count_above threshold [x] = if decide (x > threshold)%R then 1%nat else 0%nat.
Proof.
  unfold count_above. rewrite filter_cons, filter_nil. simpl.
  repeat case_decide; try reflexivity; contradiction.
Qed.













End TrackingValidation.

(** ** C9: directions drawn by the Fisher-von Mises sampler *)

Section VectorAlgebra.

Local Open Scope R_scope.

Lemma dot_comm u v : dot u v = dot v u.
Proof.
  revert v. induction u as [|x u IH]; intros [|y v]; try reflexivity.
  rewrite !dot_cons, IH. ring.
Qed.

Lemma dot_scale_l a u v : dot (scale a u) v = a * dot u v.
Proof.
  revert v. induction u as [|x u IH]; intros [|y v];
    try (unfold dot; simpl; ring).
  unfold scale in *. simpl. rewrite !dot_cons, IH. ring.
Qed.

Lemma dot_vadd_l u v w :
  length u = length v -> dot (vadd u v) w = dot u w + dot v w.
Proof.
  revert v w. induction u as [|x u IH]; intros [|y v] [|z w] Hlen;
    try discriminate Hlen; try (unfold dot; simpl; ring).
  unfold vadd in *. simpl. rewrite !dot_cons, IH by (simpl in Hlen; lia). ring.
Qed.

Lemma dot_vsub_l u v w :
  length u = length v -> dot (vsub u v) w = dot u w - dot v w.
Proof.
  revert v w. induction u as [|x u IH]; intros [|y v] [|z w] Hlen;
    try discriminate Hlen; try (unfold dot; simpl; ring).
  unfold vsub in *. simpl. rewrite !dot_cons, IH by (simpl in Hlen; lia). ring.
Qed.

Lemma dot_map_mul_l (c : R) u w :
  dot (map (fun m => m * c) u) w = c * dot u w.
Proof.
  revert w. induction u as [|x u IH]; intros [|y w];
    try (unfold dot; simpl; ring).
  simpl. rewrite !dot_cons, IH. ring.
Qed.

Lemma dot_map_div_l (c : R) u w :
  dot (map (fun o => o / c) u) w = dot u w / c.
Proof.
  revert w. induction u as [|x u IH]; intros [|y w];
    try (unfold dot, Rdiv; simpl; ring).
  simpl. rewrite !dot_cons, IH. unfold Rdiv. ring.
Qed.

Lemma norm_1_dot v : norm v = 1 -> dot v v = 1.
Proof.
  unfold norm. intros H.
  rewrite <- (sqrt_sqrt (dot v v)) by apply dot_self_nonneg.
  rewrite H. ring.
Qed.

Lemma dot_1_norm v : dot v v = 1 -> norm v = 1.
Proof. unfold norm. intros ->. apply sqrt_1. Qed.

(** The orthogonal part is orthogonal to a unit [mu]. *)
Lemma orthogonal_part_dot mu v :
  length v = length mu -> norm mu = 1 -> dot (orthogonal_part mu v) mu = 0.
Proof.
  intros Hlen Hmu. unfold orthogonal_part.
  rewrite dot_vsub_l by (now rewrite length_map).
  rewrite Hmu.
  replace (map (fun m => m * dot mu v / 1) mu)
    with (map (fun m => m * dot mu v) mu)
    by (apply map_ext; intros; field).
  rewrite dot_map_mul_l, (norm_1_dot mu Hmu), (dot_comm v mu). ring.
Qed.

(** Norm of [a v + b mu] for orthogonal unit vectors. *)
Lemma norm_combination a b v mu :
  length v = length mu -> dot v v = 1 -> dot mu mu = 1 -> dot v mu = 0 ->
  a * a + b * b = 1 ->
  norm (vadd (scale a v) (scale b mu)) = 1.
Proof.
  intros Hlen Hv Hmu Horth Hab.
  assert (length (scale a v) = length (scale b mu)) as Hlen'
    by (unfold scale; now rewrite !length_map).
  apply dot_1_norm.
  rewrite dot_vadd_l by assumption.
  rewrite !dot_scale_l.
  rewrite (dot_comm v), (dot_comm mu (vadd _ _)).
  rewrite !dot_vadd_l by assumption. rewrite !dot_scale_l.
  rewrite Hv, Hmu, Horth, (dot_comm mu v), Horth. nra.
Qed.

(** The offset from the pole lies in [-1, 1]. *)
Lemma weight_range b z :
  0 < b -> 0 <= z <= 1 ->
  -1 <= (1 - (1 + b) * z) / (1 - (1 - b) * z) <= 1.
Proof.
  intros Hb [Hz0 Hz1].
  assert (0 < 1 - (1 - b) * z) as HD by nra.
  split.
  - apply Rmult_le_reg_r with (1 - (1 - b) * z); [assumption|].
    unfold Rdiv. rewrite Rmult_assoc, Rinv_l by lra. nra.
  - apply Rmult_le_reg_r with (1 - (1 - b) * z); [assumption|].
    unfold Rdiv. rewrite Rmult_assoc, Rinv_l by lra. nra.
Qed.

Lemma pole_scale_pos kappa :
  0 < 2 / (sqrt (4 * kappa ^ 2 + 4) + 2 * kappa).
Proof.
  assert (0 <= 4 * kappa ^ 2 + 4) as Hnn by nra.
  pose proof (sqrt_pos (4 * kappa ^ 2 + 4)) as Hs.
  pose proof (sqrt_sqrt _ Hnn) as Hss.
  apply Rdiv_lt_0_compat; [lra|].
  destruct (Rlt_dec 0 (sqrt (4 * kappa ^ 2 + 4) + 2 * kappa)) as [H|H];
    [assumption|]. exfalso. apply Rnot_lt_le in H.
  assert (sqrt (4 * kappa ^ 2 + 4) * sqrt (4 * kappa ^ 2 + 4)
          <= (- (2 * kappa)) * (- (2 * kappa))) by (apply Rmult_le_compat; lra).
  nra.
Qed.

End VectorAlgebra.

Section FisherSampler.

Import FisherVonMisesDirectionGetter.

Lemma map_shift_seq (s : nat -> R) (k n len : nat) :
  map (shift k s) (seq n len) = map s (seq (n + k) len).
Proof.
  revert n. induction len as [|len IH]; intros n; [reflexivity|].
  simpl. rewrite IH. reflexivity.
Qed.

Lemma general_position_shift rs rs' k mus :
  randn_draws rs' = shift k (randn_draws rs) ->
  draws_in_general_position rs mus -> draws_in_general_position rs' mus.
Proof.
  intros Hshift Hgp n mu Hin. rewrite Hshift, map_shift_seq. now apply Hgp.
Qed.

Lemma sample_weight_loop_spec fuel kappa b x c rs w rs' :
  (0 < b)%R -> beta_in_unit rs ->
  _sample_weight_loop fuel kappa b x c rs = Ok (w, rs') ->
  (-1 <= w <= 1)%R /\ beta_in_unit rs' /\ randn_draws rs' = randn_draws rs.
Proof.
  intros Hb. revert rs. induction fuel as [|fuel IH]; intros rs Hbeta H;
    [discriminate H|].
  simpl in H.
  destruct (bool_decide _ || bool_decide _).
  - injection H as <- <-. split; [|split].
    + apply weight_range; [assumption | apply Hbeta].
    + intros n. apply Hbeta.
    + reflexivity.
  - apply IH in H as (Hw & Hbeta' & Hrandn); [auto|].
    intros n. apply Hbeta.
Qed.

Lemma sample_weight_spec fuel kappa rs w rs' :
  beta_in_unit rs ->
  _sample_weight fuel kappa rs = Ok (w, rs') ->
  (-1 <= w <= 1)%R /\ beta_in_unit rs' /\ randn_draws rs' = randn_draws rs.
Proof.
  intros Hbeta H. unfold _sample_weight in H.
  eapply sample_weight_loop_spec; [apply pole_scale_pos | exact Hbeta | exact H].
Qed.

Lemma sample_orthonormal_spec mu rs v rs' :
  _sample_orthonormal_to mu rs = (v, rs') ->
  norm mu = 1%R ->
  norm (orthogonal_part mu (map (randn_draws rs) (seq 0 (length mu)))) <> 0%R ->
  dot v v = 1%R /\ dot v mu = 0%R /\ length v = length mu /\
  beta_draws rs' = beta_draws rs /\
  randn_draws rs' = shift (length mu) (randn_draws rs).
Proof.
  unfold _sample_orthonormal_to. simpl. intros [= <- <-] Hmu Hne. simpl.
  fold (orthogonal_part mu (map (randn_draws rs) (seq 0 (length mu)))) in *.
  set (orthto := orthogonal_part mu (map (randn_draws rs) (seq 0 (length mu))))
    in *.
  assert (length (map (randn_draws rs) (seq 0 (length mu))) = length mu)
    as Hlen by now rewrite length_map, length_seq.
  split; [|split; [|split; [|split]]]; try reflexivity.
  - rewrite dot_map_div.
    assert (dot orthto orthto = norm orthto * norm orthto)%R as ->.
    { unfold norm. now rewrite sqrt_sqrt by apply dot_self_nonneg. }
    field. exact Hne.
  - rewrite dot_map_div_l. subst orthto.
    rewrite orthogonal_part_dot by assumption. unfold Rdiv. ring.
  - rewrite length_map. subst orthto. unfold orthogonal_part, vsub.
    rewrite length_zip_with, !length_map, length_seq. lia.
Qed.

Lemma sample_rows_cons fuel mu kappa pairs rs :
  sample_rows fuel ((mu, kappa) :: pairs) rs
  = ('(w, rs) ← _sample_weight fuel kappa rs;
     let '(v, rs) := _sample_orthonormal_to mu rs in
     row ← assign_row3 (vadd (scale (sqrt (1 - w ^ 2)) v) (scale w mu));
     '(rows, rs) ← sample_rows fuel pairs rs;
     Ok (row :: rows, rs)).
Proof. reflexivity. Qed.

Lemma sample_rows_spec fuel pairs rs rows rs' :
  Forall (fun mu => length mu = 3%nat /\ norm mu = 1%R) (map fst pairs) ->
  beta_in_unit rs -> draws_in_general_position rs (map fst pairs) ->
  sample_rows fuel pairs rs = Ok (rows, rs') ->
  length rows = length pairs /\ Forall (fun d => norm d = 1%R) rows.
Proof.
  revert rs rows. induction pairs as [|[mu kappa] pairs IH];
    intros rs rows Hmus Hbeta Hgp H.
  - injection H as <- <-. split; [reflexivity | constructor].
  - simpl in Hmus. inversion Hmus as [|? ? [Hlen Hmu] Hmus']; subst.
    rewrite sample_rows_cons in H. apply bind_Ok in H as ([w rs1] & Hw & H).
    apply sample_weight_spec in Hw as (Hrange & Hbeta1 & Hrandn1);
      [|assumption].
    destruct (_sample_orthonormal_to mu rs1) as [v rs2] eqn:Hv.
    apply sample_orthonormal_spec in Hv
      as (Hvv & Hvmu & Hvlen & Hbeta2 & Hrandn2); [|assumption|].
    2:{ rewrite Hrandn1. apply (Hgp 0%nat mu). now left. }
    apply bind_Ok in H as (row & Hrow & H).
    apply bind_Ok in H as ([rows' rs3] & Hrows & H).
    injection H as <- <-.
    apply IH in Hrows as [Hlen' Hunit]; [|assumption| |].
    + assert (norm (vadd (scale (sqrt (1 - w ^ 2)) v) (scale w mu)) = 1%R)
        as Hnorm.
      { apply norm_combination; [congruence | assumption
                                | now apply norm_1_dot | assumption |].
        rewrite sqrt_sqrt by nra. ring. }
      assert (length (vadd (scale (sqrt (1 - w ^ 2)) v) (scale w mu)) = 3%nat)
        as Hlen3.
      { unfold vadd, scale. rewrite length_zip_with, !length_map. lia. }
      destruct (vadd (scale (sqrt (1 - w ^ 2)) v) (scale w mu))
        as [|r1 [|r2 [|r3 [|? ?]]]]; try discriminate Hlen3.
      simpl in Hrow. injection Hrow as <-. split; [simpl; congruence|].
      constructor; assumption.
    + intros n. rewrite Hbeta2. apply Hbeta1.
    + intros n mu' Hin. rewrite Hrandn2, Hrandn1, map_shift_seq.
      apply Hgp. now right.
Qed.

Lemma squeeze_dim1_rows (t : Tensor) (m : matrix) :
  squeeze_dim1 t = Ok (T2 m) -> shape0 t = length m.
Proof.
  destruct t as [v | m' | c]; simpl; [discriminate| |].
  - unfold squeeze_last. destruct (forallb _ m'); [discriminate|].
    now intros [= <-].
  - destruct (forallb _ c); intros [= <-]. now rewrite length_map.
Qed.

(** The loop of the sampler, pass by pass: the random states between the
    passes, and for each pass the accepted weight, the auxiliary vector
    and the row they give. *)
Lemma sample_rows_trace fuel pairs rs rows rs' :
  Forall (fun mu => length mu = 3%nat /\ norm mu = 1%R) (map fst pairs) ->
  beta_in_unit rs -> draws_in_general_position rs (map fst pairs) ->
  sample_rows fuel pairs rs = Ok (rows, rs') ->
  exists states : list RandomState,
    length states = S (length pairs) /\
    states !! 0%nat = Some rs /\ last states = Some rs' /\
    forall i mu kappa s s',
      pairs !! i = Some (mu, kappa) ->
      states !! i = Some s -> states !! S i = Some s' ->
      exists w mid v,
        _sample_weight fuel kappa s = Ok (w, mid) /\ (-1 <= w <= 1)%R /\
        _sample_orthonormal_to mu mid = (v, s') /\
        length v = length mu /\ dot v v = 1%R /\ dot v mu = 0%R /\
        rows !! i = Some (vadd (scale (sqrt (1 - w ^ 2)) v) (scale w mu)).
Proof.
  revert rs rows. induction pairs as [|[mu kappa] pairs IH];
    intros rs rows Hmus Hbeta Hgp H.
  - injection H as <- <-. exists [rs].
    split; [reflexivity|]. split; [reflexivity|]. split; [reflexivity|].
    intros i mu kappa s s' Hpair. discriminate Hpair.
  - simpl in Hmus. inversion Hmus as [|? ? [Hlen Hmu] Hmus']; subst.
    rewrite sample_rows_cons in H. apply bind_Ok in H as ([w rs1] & Hw & H).
    pose proof Hw as Hw'.
    apply sample_weight_spec in Hw' as (Hrange & Hbeta1 & Hrandn1);
      [|assumption].
    destruct (_sample_orthonormal_to mu rs1) as [v rs2] eqn:Hv.
    pose proof Hv as Hv'.
    apply sample_orthonormal_spec in Hv'
      as (Hvv & Hvmu & Hvlen & Hbeta2 & Hrandn2); [|assumption|].
    2:{ rewrite Hrandn1. apply (Hgp 0%nat mu). now left. }
    apply bind_Ok in H as (row & Hrow & H).
    apply bind_Ok in H as ([rows' rs3] & Hrows & H).
    injection H as <- <-.
    apply IH in Hrows as (states & Hlens & Hfirst & Hlast & Hpass);
      [|assumption| |].
    + assert (row = vadd (scale (sqrt (1 - w ^ 2)) v) (scale w mu)) as ->.
      { assert (length (vadd (scale (sqrt (1 - w ^ 2)) v) (scale w mu))
                = 3%nat) as Hlen3.
        { unfold vadd, scale. rewrite length_zip_with, !length_map. lia. }
        destruct (vadd (scale (sqrt (1 - w ^ 2)) v) (scale w mu))
          as [|r1 [|r2 [|r3 [|? ?]]]]; try discriminate Hlen3.
        simpl in Hrow. now injection Hrow as <-. }
      exists (rs :: states). split; [simpl; now rewrite Hlens|].
      split; [reflexivity|]. split.
      { destruct states as [|s0 states]; [discriminate Hlens|].
        rewrite last_cons. simpl in Hlast. now rewrite Hlast. }
      intros [|i] mu' kappa' s s' Hpair Hs Hs'.
      * injection Hpair as <- <-. injection Hs as <-.
        simpl in Hs'. rewrite Hfirst in Hs'. injection Hs' as <-.
        exists w, rs1, v. repeat (split; [assumption || reflexivity|]).
        reflexivity.
      * apply (Hpass i mu' kappa' s s' Hpair Hs Hs').
    + intros n. rewrite Hbeta2. apply Hbeta1.
    + intros n mu' Hin. rewrite Hrandn2, Hrandn1, map_shift_seq.
      apply Hgp. now right.
Qed.

(** The row of one pass has norm 1 and its component along [mu] is the
    accepted weight. *)
Lemma combination_unit (w : R) (v mu : vector) :
  (-1 <= w <= 1)%R -> length v = length mu ->
  dot v v = 1%R -> norm mu = 1%R -> dot v mu = 0%R ->
  norm (vadd (scale (sqrt (1 - w ^ 2)) v) (scale w mu)) = 1%R /\
  dot (vadd (scale (sqrt (1 - w ^ 2)) v) (scale w mu)) mu = w.
Proof.
  intros Hw Hlen Hvv Hmu Hvmu. split.
  - apply norm_combination; [assumption | assumption
                             | now apply norm_1_dot | assumption |].
    rewrite sqrt_sqrt by nra. ring.
  - rewrite dot_vadd_l by (unfold scale; rewrite !length_map; exact Hlen).
    rewrite !dot_scale_l, Hvmu, (norm_1_dot mu Hmu). ring.
Qed.

(** C9. Whenever the sampler returns, on parameters whose squeezed form is
    a list of unit means of dimension 3 with one concentration each, with
    Beta draws within [0, 1] and normal draws that are never parallel to
    a mean, it returns one direction per mean and every direction has
    Euclidean norm 1. Moreover the run goes through one random state
    after the other, from the given one to the returned one, and the i-th
    direction is made of what the two helpers return on the i-th mean mu
    and concentration kappa: [_sample_weight] returns a weight w within
    [-1, 1], [_sample_orthonormal_to] returns a vector v of norm 1
    orthogonal to mu, and the direction is v * sqrt(1 - w^2) + w * mu,
    whose component along mu is w. *)
Theorem C9_sampled_directions_are_unit (fuel : nat)
    (learned_mus learned_kappas : Tensor) (mus : matrix) (kappas : vector)
    (rs rs' : RandomState) (directions : matrix) :
  squeeze_dim1 learned_mus = Ok (T2 mus) ->
  squeeze_dim1 learned_kappas = Ok (T1 kappas) ->
  Forall (fun mu => length mu = 3%nat /\ norm mu = 1%R) mus ->
  length kappas = length mus ->
  beta_in_unit rs -> draws_in_general_position rs mus ->
  sample_tracking_direction_prob fuel (learned_mus, learned_kappas) rs
  = Ok (directions, rs') ->
  length directions = length mus /\
  Forall (fun d => norm d = 1%R) directions /\
  exists states : list RandomState,
    length states = S (length mus) /\
    states !! 0%nat = Some rs /\ last states = Some rs' /\
    forall i mu kappa s s',
      mus !! i = Some mu -> kappas !! i = Some kappa ->
      states !! i = Some s -> states !! S i = Some s' ->
      exists w mid v,
        _sample_weight fuel kappa s = Ok (w, mid) /\ (-1 <= w <= 1)%R /\
        _sample_orthonormal_to mu mid = (v, s') /\
        norm v = 1%R /\ dot v mu = 0%R /\
        directions !! i
        = Some (vadd (scale (sqrt (1 - w ^ 2)) v) (scale w mu)) /\
        dot (vadd (scale (sqrt (1 - w ^ 2)) v) (scale w mu)) mu = w.
Proof.
  intros Hsq Hsq' Hmus Hlen Hbeta Hgp H.
  unfold sample_tracking_direction_prob in H.
  rewrite Hsq, Hsq' in H. cbn [mbind res_bind] in H.
  rewrite (squeeze_dim1_rows _ _ Hsq) in H.
  destruct (Nat.eqb (length mus) 0) eqn:Hzero.
  { injection H as <- <-. apply Nat.eqb_eq in Hzero.
    split; [now rewrite Hzero|]. split; [constructor|].
    exists [rs]. rewrite Hzero.
    split; [reflexivity|]. split; [reflexivity|]. split; [reflexivity|].
    intros i mu kappa s s' Hmu. apply lookup_lt_Some in Hmu. lia. }
  apply bind_Ok in H as ([rows rs1] & Hrows & H). injection H as <- <-.
  assert (length mus = length (zip mus kappas)) as Hzip
    by (rewrite length_zip_with; lia).
  rewrite Hzip, firstn_all in Hrows.
  assert (Forall (fun mu => length mu = 3%nat /\ norm mu = 1%R)
            (map fst (zip mus kappas))) as Hmus'
    by now rewrite fst_zip by lia.
  assert (draws_in_general_position rs (map fst (zip mus kappas))) as Hgp'
    by now rewrite fst_zip by lia.
  pose proof (sample_rows_spec _ _ _ _ _ Hmus' Hbeta Hgp' Hrows)
    as [Hlenr Hunit].
  pose proof (sample_rows_trace _ _ _ _ _ Hmus' Hbeta Hgp' Hrows)
    as (states & Hlens & Hfirst & Hlast & Hpass).
  replace (length mus - length rows)%nat with 0%nat by lia.
  simpl. rewrite app_nil_r.
  split; [now rewrite Hlenr, <- Hzip|]. split; [assumption|].
  exists states. rewrite Hzip.
  split; [assumption|]. split; [assumption|]. split; [assumption|].
  intros i mu kappa s s' Hmu Hkappa Hs Hs'.
  assert (zip mus kappas !! i = Some (mu, kappa)) as Hpair
    by (rewrite lookup_zip_with, Hmu; simpl; now rewrite Hkappa).
  destruct (Hpass i mu kappa s s' Hpair Hs Hs')
    as (w & mid & v & Hw & Hrange & Hv & Hvlen & Hvv & Hvmu & Hrow).
  assert (norm mu = 1%R) as Hnorm.
  { apply list_elem_of_lookup_2 in Hmu.
    rewrite Forall_forall in Hmus. now apply Hmus. }
  exists w, mid, v.
  split; [assumption|]. split; [assumption|]. split; [assumption|].
  split; [now apply dot_1_norm|]. split; [assumption|].
  split; [assumption|].
  now apply combination_unit.
Qed.

(** A uniform draw equal to 0 is accepted at once. *)
Lemma sample_weight_accepts_at_zero fuel kappa rs :
  uniform_draws rs 0%nat = 0%R ->
  exists w rs', _sample_weight (S fuel) kappa rs = Ok (w, rs').
Proof.
  intros Hu. unfold _sample_weight. simpl. rewrite Hu.
  rewrite (bool_decide_eq_true_2 (0 <= 0)%R) by lra. simpl.
  eexists. eexists. reflexivity.
Qed.

Lemma north_pole_unit : norm [1; 0; 0]%R = 1%R.
Proof.
  unfold norm, dot. simpl.
  replace (1 * 1 + (0 * 0 + (0 * 0 + 0)))%R with 1%R by ring. apply sqrt_1.
Qed.

Lemma constant_draws_general_position :
  draws_in_general_position constant_draws [[1; 0; 0]%R].
Proof.
  intros n mu [<- | []]. unfold orthogonal_part, norm at 1. simpl.
  generalize (dot [1; 0; 0] [1; 1; 1] / norm [1; 0; 0])%R. intros k.
  unfold dot, vsub. simpl. intros H. apply sqrt_eq_0 in H; nra.
Qed.

(** With a concentration of 0 and a Beta draw of 1/2 the accepted weight
    is 0. *)
Lemma sample_weight_constant_draws w mid :
  _sample_weight 1 0 constant_draws = Ok (w, mid) -> w = 0%R.
Proof.
  unfold _sample_weight. simpl.
  rewrite (bool_decide_eq_true_2 (0 <= 0)%R) by lra. simpl.
  intros [= <- _].
  replace (4 * (0 * (0 * 1)) + 4)%R with (2 * 2)%R by ring.
  rewrite sqrt_square by lra. field.
Qed.

Lemma C9_witness :
  exists d rs',
    sample_tracking_direction_prob 1 (T2 [[1; 0; 0]%R], T2 [[0%R]])
      constant_draws = Ok ([d], rs') /\
    norm d = 1%R /\ dot d [1; 0; 0]%R = 0%R.
Proof.
  assert (exists directions rs',
             sample_tracking_direction_prob 1 (T2 [[1; 0; 0]%R], T2 [[0%R]])
               constant_draws = Ok (directions, rs'))
    as (directions & rs' & Hrun).
  { destruct (sample_weight_accepts_at_zero 0 0%R constant_draws eq_refl)
      as (w & rs1 & Hw).
    unfold sample_tracking_direction_prob. simpl. rewrite Hw. simpl.
    eexists. eexists. reflexivity. }
  destruct (C9_sampled_directions_are_unit 1 (T2 [[1; 0; 0]%R]) (T2 [[0%R]])
              [[1; 0; 0]%R] [0%R] constant_draws rs' directions)
    as (Hlen & Hunit & states & Hlens & Hfirst & Hlast & Hpass).
  - reflexivity.
  - reflexivity.
  - constructor; [|constructor]. split; [reflexivity | apply north_pole_unit].
  - reflexivity.
  - intros n. simpl. lra.
  - apply constant_draws_general_position.
  - exact Hrun.
  - destruct states as [|s0 [|s1 [|? ?]]]; try discriminate Hlens.
    destruct (Hpass 0%nat [1; 0; 0]%R 0%R s0 s1 eq_refl eq_refl eq_refl
                eq_refl)
      as (w & mid & v & Hw & _ & _ & _ & _ & Hd & Hdot).
    injection Hfirst as ->. apply sample_weight_constant_draws in Hw.
    destruct directions as [|d [|? ?]]; try discriminate Hlen.
    injection Hd as Hd. exists d, rs'. split; [exact Hrun|]. split.
    + now apply Forall_inv in Hunit.
    + rewrite Hd. transitivity w; [exact Hdot | exact Hw].
Defined.

End FisherSampler.

(** ** The heads on a batch: shapes and input checks *)


Lemma cosine_init_inv w i d self :
  CosineRegressionDirectionGetter.__init__ w i d = Ok self ->
  sublayers_ready self /\ (0 <= i)%Z /\
  self !! "layers" = Some (VModuleList (two_layers (w 0%nat) (w 1%nat) i 3)).
Proof.
  unfold CosineRegressionDirectionGetter.__init__. intros H. init_inv H.
  split; [ready|]. split; [assumption|].
  unfold setattr, ModelAbstract.__init__, setattr. simplify_map_eq. auto.
Qed.

Lemma l2_init_inv w i d self :
  L2RegressionDirectionGetter.__init__ w i d = Ok self ->
  sublayers_ready self /\ (0 <= i)%Z /\
  self !! "layers" = Some (VModuleList (two_layers (w 0%nat) (w 1%nat) i 3)).
Proof.
  unfold L2RegressionDirectionGetter.__init__. intros H. init_inv H.
  split; [ready|]. split; [assumption|].
  unfold setattr, ModelAbstract.__init__, setattr. simplify_map_eq. auto.
Qed.

Lemma sphere_init_inv get_sphere w i d sphere self :
  SphereClassificationDirectionGetter.__init__ get_sphere w i d sphere
  = Ok self ->
  exists vertices,
    get_sphere sphere = Ok vertices /\
    sublayers_ready self /\ (0 <= i)%Z /\
    self !! "layers"
      = Some (VModuleList (two_layers (w 0%nat) (w 1%nat) i
                             (Z.of_nat (length vertices)))) /\
    self !! "vertices" = Some (VTensor "cpu" vertices) /\
    self !! "sphere_name" = Some (VStr sphere).
Proof.
  unfold SphereClassificationDirectionGetter.__init__. intros H.
  apply bind_Ok in H as (self0 & Habs & H).
  apply abstract_init_inv in Habs as (sub & Hsub & ->).
  apply bind_Ok in H as (vertices & Hv & H).
  apply bind_Ok in H as (layers & Hl & H).
  apply init_2layer_inv in Hl as (Hi & Ho & ->).
  injection H as <-.
  exists vertices. split; [assumption|]. split; [ready|]. split; [assumption|].
  unfold setattr, ModelAbstract.__init__, setattr. simplify_map_eq. auto.
Qed.

(** X1. A regression head (cosine or L2) built by its constructor maps a
    batch of shape [B, input_size] to directions of shape [B, 3], whatever
    the initial weights, the dropout rate and the dropout draws; the
    deterministic tracking direction is that output, unchanged. *)
Theorem X1_regression_forward_gives_3d_directions
    (w : nat -> LinearInit) (input_size : Z) (dropout : option R)
    (keep : nat -> DropoutMask) (inputs : matrix) (B : nat) :
  has_shape B (Z.to_nat input_size) inputs ->
  (forall self,
      CosineRegressionDirectionGetter.__init__ w input_size dropout = Ok self ->
      exists directions,
        CosineRegressionDirectionGetter.forward keep self inputs
        = Ok directions /\
        has_shape B 3 directions /\
        CosineRegressionDirectionGetter.get_tracking_direction_det self
          directions = Ok directions) /\
  (forall self,
      L2RegressionDirectionGetter.__init__ w input_size dropout = Ok self ->
      exists directions,
        L2RegressionDirectionGetter.forward keep self inputs = Ok directions /\
        has_shape B 3 directions /\
        L2RegressionDirectionGetter.get_tracking_direction_det self
          directions = Ok directions).
Proof.
  intros Hx. split; intros self Hinit.
  - apply cosine_init_inv in Hinit as (Hready & Hi & Hl).
    unfold CosineRegressionDirectionGetter.forward.
    rewrite (get_layers_Ok _ _ _ Hl); simpl.
    destruct (loop_two_layers keep self inputs B input_size 3 (w 0%nat)
                (w 1%nat)) as (y & Hy & Hshape);
      [assumption | assumption | lia | assumption |].
    exists y. auto.
  - apply l2_init_inv in Hinit as (Hready & Hi & Hl).
    unfold L2RegressionDirectionGetter.forward.
    rewrite (get_layers_Ok _ _ _ Hl); simpl.
    destruct (loop_two_layers keep self inputs B input_size 3 (w 0%nat)
                (w 1%nat)) as (y & Hy & Hshape);
      [assumption | assumption | lia | assumption |].
    exists y. auto.
Qed.

Lemma X1_witness :
  exists self directions,
    CosineRegressionDirectionGetter.__init__ unit_bias_init 2 (Some (1 / 2)%R)
    = Ok self /\
    CosineRegressionDirectionGetter.forward (keep_all 0%nat) self
      [[1; 2]; [3; 4]]%R = Ok directions /\
    has_shape 2 3 directions.
Proof.
  assert (has_shape 2 (Z.to_nat 2) [[1; 2]; [3; 4]]%R) as Hshape.
  { split; [reflexivity|]. repeat constructor. }
  assert (valid_dropout (Some (1 / 2)%R)) as Hd by (simpl; lra).
  destruct (abstract_init_Ok 2 (Some (1 / 2)%R) "cosine-regression" false
              "negative cosine similarity" Hd) as [self0 H0].
  destruct (X1_regression_forward_gives_3d_directions unit_bias_init 2
              (Some (1 / 2)%R) (keep_all 0%nat) [[1; 2]; [3; 4]]%R 2%nat Hshape)
    as [H1 _].
  unfold CosineRegressionDirectionGetter.__init__ in *.
  rewrite H0 in *. simpl in *.
  destruct (H1 _ eq_refl) as (directions & Hf & Hs & _).
  eexists. exists directions. split; [reflexivity|]. split; assumption.
Defined.

Lemma get_tensor_Ok self name device m :
  self !! name = Some (VTensor device m) -> get_tensor self name = Ok (device, m).
Proof. intros H. unfold get_tensor, getattr. now rewrite H. Qed.

Lemma first_maximum_lt (l : list R) (k : nat) :
  first_maximum l k -> (k < length l)%nat.
Proof. intros (m & Hk & _). now apply lookup_lt_Some in Hk. Qed.

(** X2. A sphere-classification head built by its constructor maps a batch
    of shape [B, input_size] to logits of shape [B, number of vertices];
    on a single input row, the deterministic tracking direction computed
    from these logits is the vertex whose logit is the first maximum. *)
Theorem X2_sphere_forward_then_det_direction
    (get_sphere : string -> res matrix) (w : nat -> LinearInit)
    (input_size : Z) (dropout : option R) (sphere : string)
    (keep : nat -> DropoutMask) (self : object) (inputs : matrix) (B : nat) :
  SphereClassificationDirectionGetter.__init__ get_sphere w input_size dropout
    sphere = Ok self ->
  has_shape B (Z.to_nat input_size) inputs ->
  exists vertices logits,
    get_sphere sphere = Ok vertices /\
    SphereClassificationDirectionGetter.forward keep self inputs = Ok logits /\
    has_shape B (length vertices) logits /\
    (B = 1%nat -> vertices <> [] ->
     exists row k vertex,
       logits = [row] /\ first_maximum row k /\
       vertices !! k = Some vertex /\
       SphereClassificationDirectionGetter.get_tracking_direction_det self
         logits = Ok (T1 vertex)).
Proof.
  intros Hinit Hx.
  apply sphere_init_inv in Hinit as (vertices & Hv & Hready & Hi & Hl & Hvert & _).
  unfold SphereClassificationDirectionGetter.forward.
  rewrite (get_layers_Ok _ _ _ Hl); simpl.
  destruct (loop_two_layers keep self inputs B input_size
              (Z.of_nat (length vertices)) (w 0%nat) (w 1%nat))
    as (logits & Hy & Hshape); [assumption | assumption | lia | assumption |].
  rewrite Nat2Z.id in Hshape.
  exists vertices, logits. do 3 (split; [assumption|]).
  intros -> Hne. destruct Hshape as [Hlen Hrows].
  destruct logits as [|row [|? ?]]; try discriminate.
  apply Forall_inv in Hrows.
  assert (row <> []) as Hrow.
  { intros ->. destruct vertices; [congruence | discriminate]. }
  destruct (argmax_nonempty row Hrow) as [k Hk].
  pose proof (argmax_spec row k Hk) as Hmax.
  pose proof (first_maximum_lt row k Hmax) as Hlt. rewrite Hrows in Hlt.
  destruct (lookup_lt_is_Some_2 vertices k Hlt) as [vertex Hvk].
  exists row, k, vertex. do 3 (split; [auto|]).
  unfold SphereClassificationDirectionGetter.get_tracking_direction_det.
  rewrite (get_tensor_Ok _ _ _ _ Hvert). simpl. rewrite app_nil_r.
  rewrite Hk, Hvk. reflexivity.
Qed.

Lemma X2_witness :
  exists self logits,
    small_classifier = Ok self /\
    SphereClassificationDirectionGetter.forward (keep_all 0%nat) self
      [[1; 2]]%R = Ok logits /\
    has_shape 1 3 logits.
Proof.
  assert (has_shape 1 (Z.to_nat 2) [[1; 2]]%R) as Hshape.
  { split; [reflexivity|]. repeat constructor. }
  eexists.
  destruct (X2_sphere_forward_then_det_direction (fun _ => Ok three_vertices)
              zero_init 2 None "symmetric724" (keep_all 0%nat) _ [[1; 2]]%R
              1%nat eq_refl Hshape)
    as (vertices & logits & Hv & Hf & Hs & _).
  injection Hv as <-.
  exists logits. split; [reflexivity|]. split; assumption.
Defined.

Lemma Linear_call_wrong_width h x :
  Exists (fun row => Z.of_nat (length row) <> in_features h) x ->
  Linear_call h x
  = Raise (RuntimeError "mat1 and mat2 shapes cannot be multiplied").
Proof.
  unfold Linear_call. induction x as [|row x IH]; intros Hex.
  - inversion Hex.
  - simpl.
    destruct (decide (Z.of_nat (length row) = in_features h)) as [Heq|Hne].
    + destruct (Linear_row_Ok h row Heq) as (y & -> & _). simpl.
      rewrite IH; [reflexivity|].
      apply Exists_cons in Hex as [Hbad|Hex]; [contradiction|assumption].
    + unfold Linear_row. now rewrite decide_False by assumption.
Qed.

Lemma loop_two_layers_wrong_width keep self x w1 w2 i o :
  Exists (fun row => Z.of_nat (length row) <> i) x ->
  AbstractDirectionGetterModel.loop_on_layers keep self x (two_layers w1 w2 i o)
  = Raise (RuntimeError "mat1 and mat2 shapes cannot be multiplied").
Proof.
  intros Hex.
  unfold AbstractDirectionGetterModel.loop_on_layers, two_layers. simpl.
  now rewrite Linear_call_wrong_width.
Qed.

(** X3. Every head built by its constructor refuses a batch holding a row
    whose size is not [input_size]: forward raises torch's RuntimeError for
    the first linear layer. For the two Gaussian heads this error comes
    before the AttributeError of their sigma layers. *)
Theorem X3_forward_refuses_rows_of_wrong_size
    (get_sphere : string -> res matrix) (w : nat -> LinearInit)
    (input_size : Z) (dropout : option R) (kw : CtorKwargs)
    (keep : nat -> nat -> DropoutMask) (inputs : matrix) :
  Exists (fun row => Z.of_nat (length row) <> input_size) inputs ->
  let refused :=
    RuntimeError "mat1 and mat2 shapes cannot be multiplied" in
  (forall self,
      CosineRegressionDirectionGetter.__init__ w input_size dropout = Ok self ->
      CosineRegressionDirectionGetter.forward (keep 0%nat) self inputs
      = Raise refused) /\
  (forall self,
      L2RegressionDirectionGetter.__init__ w input_size dropout = Ok self ->
      L2RegressionDirectionGetter.forward (keep 0%nat) self inputs
      = Raise refused) /\
  (forall self,
      SphereClassificationDirectionGetter.__init__ get_sphere w input_size
        dropout (kw_sphere kw) = Ok self ->
      SphereClassificationDirectionGetter.forward (keep 0%nat) self inputs
      = Raise refused) /\
  (forall self,
      SingleGaussianDirectionGetter.__init__ w input_size dropout = Ok self ->
      SingleGaussianDirectionGetter.forward keep self inputs = Raise refused) /\
  (forall self,
      GaussianMixtureDirectionGetter.__init__ w input_size dropout
        (kw_nb_gaussians kw) = Ok self ->
      GaussianMixtureDirectionGetter.forward keep self inputs = Raise refused) /\
  (forall self,
      FisherVonMisesDirectionGetter.__init__ w input_size dropout = Ok self ->
      FisherVonMisesDirectionGetter.forward keep self inputs = Raise refused).
Proof.
  intros Hex refused. repeat split; intros self Hinit.
  - apply cosine_init_inv in Hinit as (_ & _ & Hl).
    unfold CosineRegressionDirectionGetter.forward.
    rewrite (get_layers_Ok _ _ _ Hl); simpl.
    now apply loop_two_layers_wrong_width.
  - apply l2_init_inv in Hinit as (_ & _ & Hl).
    unfold L2RegressionDirectionGetter.forward.
    rewrite (get_layers_Ok _ _ _ Hl); simpl.
    now apply loop_two_layers_wrong_width.
  - apply sphere_init_inv in Hinit as (vertices & _ & _ & _ & Hl & _).
    unfold SphereClassificationDirectionGetter.forward.
    rewrite (get_layers_Ok _ _ _ Hl); simpl.
    now apply loop_two_layers_wrong_width.
  - apply gaussian_init_inv in Hinit as (_ & _ & _ & Hl & _).
    unfold SingleGaussianDirectionGetter.forward.
    rewrite (get_layers_Ok _ _ _ Hl); simpl.
    now rewrite loop_two_layers_wrong_width.
  - apply mixture_init_inv in Hinit as (_ & _ & _ & _ & Hl & _).
    unfold GaussianMixtureDirectionGetter.forward.
    rewrite (get_layers_Ok _ _ _ Hl); simpl.
    now rewrite loop_two_layers_wrong_width.
  - apply fisher_init_inv in Hinit as (_ & _ & _ & Hl & _).
    unfold FisherVonMisesDirectionGetter.forward,
      FisherVonMisesDirectionGetter.raw_means.
    rewrite (get_layers_Ok _ _ _ Hl); simpl.
    now rewrite loop_two_layers_wrong_width.
Qed.

Lemma X3_witness :
  exists self,
    SingleGaussianDirectionGetter.__init__ zero_init 2 None = Ok self /\
    SingleGaussianDirectionGetter.forward keep_all self [[1; 2; 3]]%R
    = Raise (RuntimeError "mat1 and mat2 shapes cannot be multiplied").
Proof.
  assert (Exists (fun row : list R => Z.of_nat (length row) <> 2%Z)
            [[1; 2; 3]]%R) as Hex.
  { constructor. simpl. lia. }
  eexists. split; [reflexivity|].
  apply (X3_forward_refuses_rows_of_wrong_size (fun _ => Ok []) zero_init 2
           None default_kwargs keep_all [[1; 2; 3]]%R Hex).
  reflexivity.
Defined.

(** ** Constructors: when they succeed *)

Lemma valid_dropout_dec dropout : valid_dropout dropout \/ ~ valid_dropout dropout.
Proof.
  destruct dropout as [p|]; simpl; [|now left].
  destruct (Rle_dec 0 p); destruct (Rle_dec p 1); try (right; lra).
  left; lra.
Qed.

Lemma abstract_init_invalid input_size dropout key sc ld :
  ~ valid_dropout dropout ->
  AbstractDirectionGetterModel.__init__ input_size dropout key sc ld
  = Raise (ValueError "Dropout rate should be between 0 and 1.").
Proof.
  intros Hd. unfold AbstractDirectionGetterModel.__init__.
  now rewrite dropout_check_invalid.
Qed.

Lemma abstract_init_valid input_size dropout key sc ld :
  returns (AbstractDirectionGetterModel.__init__ input_size dropout key sc ld) ->
  valid_dropout dropout.
Proof.
  intros [self H]. destruct (valid_dropout_dec dropout) as [Hd|Hd]; [assumption|].
  rewrite abstract_init_invalid in H by assumption. discriminate.
Qed.

Lemma bind_returns {A B : Type} (m : res A) (k : A -> res B) :
  returns (m ≫= k) -> exists a, m = Ok a /\ returns (k a).
Proof.
  intros [b H]. apply bind_Ok in H as (a & Ha & Hk).
  exists a. split; [assumption|]. now exists b.
Qed.

Lemma init_2layer_returns w1 w2 i o :
  returns (init_2layer_fully_connected w1 w2 i o) -> (0 <= i)%Z /\ (0 <= o)%Z.
Proof.
  intros [layers H]. apply init_2layer_inv in H as (Hi & Ho & _). auto.
Qed.

Ltac ctor_inv H :=
  apply bind_returns in H as (?self0 & ?Habs & H);
  match goal with
  | Habs : AbstractDirectionGetterModel.__init__ _ _ _ _ _ = Ok _ |- _ =>
      assert (valid_dropout _) by (eapply abstract_init_valid; eexists; exact Habs)
  end.

(** X4. Constructing the head a registry class stands for succeeds exactly
    when the class is not the Fisher-von Mises mixture, the dropout
    argument is None or a rate in [0, 1], the input size is not negative,
    the number of Gaussians (for the Gaussian mixture) is not negative and
    (for the sphere classification) the sphere is found. *)
Theorem X4_constructor_succeeds_exactly_when
    (get_sphere : string -> res matrix) (cls : DirectionGetterClass)
    (w : nat -> LinearInit) (input_size : Z) (dropout : option R)
    (kw : CtorKwargs) :
  returns (instantiate get_sphere cls w input_size dropout kw) <->
  (cls <> ClsFisherVonMisesMixture /\
   valid_dropout dropout /\ (0 <= input_size)%Z /\
   (cls = ClsGaussianMixture -> (0 <= kw_nb_gaussians kw)%Z) /\
   (cls = ClsSphereClassification -> returns (get_sphere (kw_sphere kw)))).
Proof.
  split.
  - intros H. destruct cls; simpl in H.
    + unfold CosineRegressionDirectionGetter.__init__ in H. ctor_inv H.
      apply bind_returns in H as (layers & Hl & _).
      destruct (init_2layer_returns _ _ _ _ (ex_intro _ layers Hl)).
      repeat split; try assumption; discriminate.
    + unfold L2RegressionDirectionGetter.__init__ in H. ctor_inv H.
      apply bind_returns in H as (layers & Hl & _).
      destruct (init_2layer_returns _ _ _ _ (ex_intro _ layers Hl)).
      repeat split; try assumption; discriminate.
    + unfold SphereClassificationDirectionGetter.__init__ in H. ctor_inv H.
      apply bind_returns in H as (vertices & Hv & H).
      apply bind_returns in H as (layers & Hl & _).
      destruct (init_2layer_returns _ _ _ _ (ex_intro _ layers Hl)).
      repeat split; try assumption; try discriminate.
      intros _. now exists vertices.
    + unfold SingleGaussianDirectionGetter.__init__ in H. ctor_inv H.
      apply bind_returns in H as (layers & Hl & _).
      destruct (init_2layer_returns _ _ _ _ (ex_intro _ layers Hl)).
      repeat split; try assumption; discriminate.
    + unfold GaussianMixtureDirectionGetter.__init__ in H. ctor_inv H.
      apply bind_returns in H as (layers & Hl & _).
      destruct (init_2layer_returns _ _ _ _ (ex_intro _ layers Hl)).
      repeat split; try assumption; try discriminate. intros _. lia.
    + unfold FisherVonMisesDirectionGetter.__init__ in H. ctor_inv H.
      apply bind_returns in H as (layers & Hl & _).
      destruct (init_2layer_returns _ _ _ _ (ex_intro _ layers Hl)).
      repeat split; try assumption; discriminate.
    + rewrite mixture_stub_raises in H. destruct H as [self H].
      destruct (truthy dropout && out_of_unit_range dropout); discriminate.
  - intros (Hcls & Hd & Hi & Hnb & Hsphere).
    destruct cls; simpl; try contradiction;
      unfold CosineRegressionDirectionGetter.__init__,
        L2RegressionDirectionGetter.__init__,
        SphereClassificationDirectionGetter.__init__,
        SingleGaussianDirectionGetter.__init__,
        GaussianMixtureDirectionGetter.__init__,
        FisherVonMisesDirectionGetter.__init__;
      try (specialize (Hnb eq_refl)); try (specialize (Hsphere eq_refl));
      repeat step_layers; eexists; reflexivity.
Qed.

Lemma X4_witness :
  returns (instantiate (fun _ => Ok three_vertices) ClsSphereClassification
             zero_init 4 (Some 0%R) default_kwargs).
Proof.
  apply X4_constructor_succeeds_exactly_when.
  split; [discriminate|]. split; [simpl; lra|]. split; [lia|].
  split; [discriminate|]. intros _. eexists; reflexivity.
Defined.

(** X5. A dropout argument outside [0, 1] is refused first: for every
    class of the registry the constructor raises the base class's
    ValueError, whatever the other arguments are. *)
Theorem X5_invalid_dropout_is_refused_first
    (get_sphere : string -> res matrix) (cls : DirectionGetterClass)
    (w : nat -> LinearInit) (input_size : Z) (dropout : option R)
    (kw : CtorKwargs) :
  ~ valid_dropout dropout ->
  instantiate get_sphere cls w input_size dropout kw
  = Raise (ValueError "Dropout rate should be between 0 and 1.").
Proof.
  intros Hd.
  destruct cls; simpl;
    unfold CosineRegressionDirectionGetter.__init__,
      L2RegressionDirectionGetter.__init__,
      SphereClassificationDirectionGetter.__init__,
      SingleGaussianDirectionGetter.__init__,
      GaussianMixtureDirectionGetter.__init__,
      FisherVonMisesDirectionGetter.__init__,
      FisherVonMisesMixtureDirectionGetter.__init__;
    now rewrite abstract_init_invalid.
Qed.

Lemma X5_witness :
  instantiate (fun _ => Raise (ValueError "unknown sphere"))
    ClsSphereClassification zero_init (-1) (Some 2%R) default_kwargs
  = Raise (ValueError "Dropout rate should be between 0 and 1.").
Proof.
  apply X5_invalid_dropout_is_refused_first. simpl. lra.
Defined.

(** ** Dropout draws *)

Lemma dropout_sublayer_inactive keep keep' self act :
  dropout_inactive self ->
  AbstractDirectionGetterModel.dropout_sublayer keep self act
  = AbstractDirectionGetterModel.dropout_sublayer keep' self act.
Proof.
  unfold AbstractDirectionGetterModel.dropout_sublayer, getattr.
  intros [H|H]; rewrite H; simpl; [reflexivity|].
  destruct (self !! "dropout_sublayer") as [[]|]; reflexivity.
Qed.

Lemma loop_on_layers_from_inactive keep keep' self layers :
  dropout_inactive self ->
  forall k k' x,
    AbstractDirectionGetterModel.loop_on_layers_from keep self k x layers
    = AbstractDirectionGetterModel.loop_on_layers_from keep' self k' x layers.
Proof.
  intros Hoff. induction layers as [|h rest IH]; intros k k' x; [reflexivity|].
  destruct rest as [|h' rest]; [reflexivity|].
  change (AbstractDirectionGetterModel.loop_on_layers_from keep self k x
            (h :: h' :: rest))
    with (pre_act ← Linear_call h x;
          act ← AbstractDirectionGetterModel.relu_sublayer self pre_act;
          drop ← AbstractDirectionGetterModel.dropout_sublayer (keep k) self act;
          AbstractDirectionGetterModel.loop_on_layers_from keep self (S k) drop
            (h' :: rest)).
  change (AbstractDirectionGetterModel.loop_on_layers_from keep' self k' x
            (h :: h' :: rest))
    with (pre_act ← Linear_call h x;
          act ← AbstractDirectionGetterModel.relu_sublayer self pre_act;
          drop ← AbstractDirectionGetterModel.dropout_sublayer (keep' k') self
                   act;
          AbstractDirectionGetterModel.loop_on_layers_from keep' self (S k')
            drop (h' :: rest)).
  destruct (Linear_call h x) as [pre| |]; try reflexivity. simpl.
  destruct (AbstractDirectionGetterModel.relu_sublayer self pre) as [act| |];
    try reflexivity. simpl.
  rewrite (dropout_sublayer_inactive (keep k) (keep' k')) by assumption.
  destruct (AbstractDirectionGetterModel.dropout_sublayer (keep' k') self act)
    as [drop| |]; try reflexivity. simpl.
  apply IH.
Qed.

Lemma abstract_init_no_dropout input_size dropout key sc ld self :
  truthy dropout = false ->
  AbstractDirectionGetterModel.__init__ input_size dropout key sc ld = Ok self ->
  self !! "dropout_sublayer" = Some VIdentity.
Proof.
  unfold AbstractDirectionGetterModel.__init__. intros ->. simpl.
  intros [= <-]. unfold setattr. now simplify_map_eq.
Qed.

Lemma instantiate_no_dropout get_sphere cls w input_size dropout kw self :
  truthy dropout = false ->
  instantiate get_sphere cls w input_size dropout kw = Ok self ->
  self !! "dropout_sublayer" = Some VIdentity.
Proof.
  intros Hd H.
  destruct cls; simpl in H;
    unfold CosineRegressionDirectionGetter.__init__,
      L2RegressionDirectionGetter.__init__,
      SphereClassificationDirectionGetter.__init__,
      SingleGaussianDirectionGetter.__init__,
      GaussianMixtureDirectionGetter.__init__,
      FisherVonMisesDirectionGetter.__init__,
      FisherVonMisesMixtureDirectionGetter.__init__ in H;
    apply bind_Ok in H as (self0 & Habs & H);
    apply (abstract_init_no_dropout _ _ _ _ _ _ Hd) in Habs;
    repeat (apply bind_Ok in H as (? & _ & H));
    try discriminate; injection H as <-;
    unfold setattr; now simplify_map_eq.
Qed.

(** X6. The dropout draws do not matter when dropout is off: on a head
    built by any registry class with dropout None or 0, and on any module
    put in evaluation mode, [loop_on_layers] returns the same result (or
    raises the same error) for any two sequences of dropout draws, for
    every list of layers and every input. *)
Theorem X6_dropout_draws_ignored_when_inactive
    (keep keep' : nat -> DropoutMask) (inputs : matrix)
    (layers : list Linear) :
  (forall get_sphere cls w input_size dropout kw self,
      truthy dropout = false ->
      instantiate get_sphere cls w input_size dropout kw = Ok self ->
      AbstractDirectionGetterModel.loop_on_layers keep self inputs layers
      = AbstractDirectionGetterModel.loop_on_layers keep' self inputs layers) /\
  (forall self : object,
      AbstractDirectionGetterModel.loop_on_layers keep
        (setattr self "training" (VBool false)) inputs layers
      = AbstractDirectionGetterModel.loop_on_layers keep'
          (setattr self "training" (VBool false)) inputs layers).
Proof.
  split.
  - intros get_sphere cls w input_size dropout kw self Hd Hinit.
    apply loop_on_layers_from_inactive. left.
    eapply instantiate_no_dropout; eassumption.
  - intros self. apply loop_on_layers_from_inactive. right.
    unfold setattr. now simplify_map_eq.
Qed.

Lemma X6_witness :
  exists self,
    instantiate (fun _ => Ok []) ClsCosineRegression zero_init 2 None
      default_kwargs = Ok self /\
    AbstractDirectionGetterModel.loop_on_layers (keep_all 0%nat) self
      [[1; 2]]%R (two_layers (zero_init 0%nat) (zero_init 1%nat) 2 3)
    = AbstractDirectionGetterModel.loop_on_layers (fun _ _ _ => false) self
        [[1; 2]]%R (two_layers (zero_init 0%nat) (zero_init 1%nat) 2 3).
Proof.
  eexists. split; [reflexivity|].
  eapply (proj1 (X6_dropout_draws_ignored_when_inactive (keep_all 0%nat)
                   (fun _ _ _ => false) [[1; 2]]%R _)
            (fun _ => Ok []) ClsCosineRegression zero_init 2%Z None
            default_kwargs); reflexivity.
Defined.

(** ** The params property *)

(** X7. [params] of a head built by a registry class records the
    constructor's arguments under the constructor's keyword names
    (input_size, dropout, and sphere or nb_gaussians where the class has
    them), with the registry key of the class under 'key' and the loss
    description under 'loss', and nothing else. *)
Theorem X7_params_record_constructor_arguments
    (get_sphere : string -> res matrix) (cls : DirectionGetterClass)
    (w : nat -> LinearInit) (input_size : Z) (dropout : option R)
    (kw : CtorKwargs) (self : object) :
  instantiate get_sphere cls w input_size dropout kw = Ok self ->
  params_of cls self
  = Ok (class_keywords cls kw ∪
        <["loss" := VStr (class_loss_description cls)]>
          (<["key" := VStr (class_key cls)]>
             (<["dropout" := attr_of_float dropout]>
                (<["input_size" := VInt input_size]> ∅)))).
Proof.
  intros H.
  destruct cls; simpl in H; simpl;
    unfold CosineRegressionDirectionGetter.__init__,
      L2RegressionDirectionGetter.__init__,
      SphereClassificationDirectionGetter.__init__,
      SingleGaussianDirectionGetter.__init__,
      GaussianMixtureDirectionGetter.__init__,
      FisherVonMisesDirectionGetter.__init__,
      FisherVonMisesMixtureDirectionGetter.__init__ in H;
    apply bind_Ok in H as (self0 & Habs & H);
    apply abstract_init_inv in Habs as (sub & Hsub & ->);
    repeat (apply bind_Ok in H as (? & _ & H));
    try discriminate; injection H as <-;
    unfold SphereClassificationDirectionGetter.params,
      GaussianMixtureDirectionGetter.params,
      AbstractDirectionGetterModel.params, getattr, setattr,
      ModelAbstract.__init__, setattr;
    simplify_map_eq; rewrite ?(left_id ∅ (∪)); try reflexivity.
Qed.

Lemma X7_witness :
  exists self,
    instantiate (fun _ => Ok three_vertices) ClsSphereClassification zero_init
      4 None default_kwargs = Ok self /\
    params_of ClsSphereClassification self
    = Ok ({["sphere" := VStr "symmetric724"]} ∪
          <["loss" := VStr "negative log-likelihood"]>
            (<["key" := VStr "sphere-classification"]>
               (<["dropout" := VNone]> (<["input_size" := VInt 4]> ∅)))).
Proof.
  eexists. split; [reflexivity|].
  apply (X7_params_record_constructor_arguments (fun _ => Ok three_vertices)
           ClsSphereClassification zero_init 4 None default_kwargs).
  reflexivity.
Defined.

(** ** The closest vertex *)

Lemma get_tensor_inv self name device m :
  get_tensor self name = Ok (device, m) -> self !! name = Some (VTensor device m).
Proof.
  unfold get_tensor, getattr. destruct (self !! name) as [[]|]; simpl;
    try discriminate. now intros [= -> ->].
Qed.

Lemma find_closest_vertex_unfold self directions_device directions device
    vertices :
  self !! "vertices" = Some (VTensor device vertices) ->
  SphereClassificationDirectionGetter._find_closest_vertex self
    directions_device directions
  = (cosine_similarity ← matmul_t directions vertices;
     index ← argmax_last cosine_similarity;
     Ok (<["vertices" := VTensor directions_device vertices]> self,
         map (fun i => to_int16 (Z.of_nat i)) index)).
Proof.
  intros Hv. unfold SphereClassificationDirectionGetter._find_closest_vertex.
  rewrite (get_tensor_Ok _ _ _ _ Hv). simpl.
  case_bool_decide as Hdev.
  - unfold setattr. rewrite (get_tensor_Ok _ "vertices" directions_device vertices)
      by now simplify_map_eq.
    reflexivity.
  - subst device.
    rewrite (get_tensor_Ok _ _ _ _ Hv). simpl.
    now rewrite insert_id.
Qed.

(** X8. [_find_closest_vertex] changes nothing of the head but the device
    of its vertices, which becomes the device of the directions, the
    coordinates being kept; calling it again on the same directions returns
    the same indices and leaves the head as it is, on whichever device the
    directions then are the indices are the same. *)
Theorem X8_find_closest_vertex_only_moves_the_vertices
    (self self' : object) (directions_device : string) (directions : matrix)
    (index : list Z) :
  SphereClassificationDirectionGetter._find_closest_vertex self
    directions_device directions = Ok (self', index) ->
  (exists device vertices,
      get_tensor self "vertices" = Ok (device, vertices) /\
      get_tensor self' "vertices" = Ok (directions_device, vertices)) /\
  (forall name, name <> "vertices" -> self' !! name = self !! name) /\
  SphereClassificationDirectionGetter._find_closest_vertex self'
    directions_device directions = Ok (self', index) /\
  (forall other_device, exists self'',
      SphereClassificationDirectionGetter._find_closest_vertex self'
        other_device directions = Ok (self'', index)).
Proof.
  intros H.
  assert (exists device vertices,
             self !! "vertices" = Some (VTensor device vertices))
    as (device & vertices & Hv).
  { unfold SphereClassificationDirectionGetter._find_closest_vertex in H.
    apply bind_Ok in H as ([device vertices] & Hg & _).
    apply get_tensor_inv in Hg. eauto. }
  rewrite (find_closest_vertex_unfold _ _ _ _ _ Hv) in H.
  apply bind_Ok in H as (cosine_similarity & Hcos & H).
  apply bind_Ok in H as (idx & Hidx & H). injection H as <- <-.
  assert (<["vertices" := VTensor directions_device vertices]> self
          !! "vertices" = Some (VTensor directions_device vertices)) as Hv'
    by now simplify_map_eq.
  split; [|split; [|split]].
  - exists device, vertices. split; now apply get_tensor_Ok.
  - intros name Hname. now rewrite lookup_insert_ne by congruence.
  - rewrite (find_closest_vertex_unfold _ _ _ _ _ Hv'), Hcos. simpl.
    rewrite Hidx. simpl. now rewrite insert_insert_eq.
  - intros other_device. eexists.
    rewrite (find_closest_vertex_unfold _ _ _ _ _ Hv'), Hcos. simpl.
    rewrite Hidx. simpl. reflexivity.
Qed.

Lemma small_classifier_closest self :
  small_classifier = Ok self ->
  SphereClassificationDirectionGetter._find_closest_vertex self "cuda"
    [[0; 1; 0]]%R
  = Ok (<["vertices" := VTensor "cuda" three_vertices]> self, [1%Z]).
Proof.
  intros Hs. apply small_classifier_vertices, get_tensor_inv in Hs.
  rewrite (find_closest_vertex_unfold _ _ _ _ _ Hs).
  rewrite matmul_t_Ok by (repeat constructor).
  unfold three_vertices, dot, argmax_last, argmax. simpl.
  decide_reals. reflexivity.
Qed.

Lemma X8_witness :
  exists self self',
    small_classifier = Ok self /\
    SphereClassificationDirectionGetter._find_closest_vertex self "cuda"
      [[0; 1; 0]]%R = Ok (self', [1%Z]) /\
    SphereClassificationDirectionGetter._find_closest_vertex self' "cuda"
      [[0; 1; 0]]%R = Ok (self', [1%Z]).
Proof.
  eexists. eexists. split; [reflexivity|].
  split; [now apply small_classifier_closest|].
  eapply X8_find_closest_vertex_only_moves_the_vertices.
  now apply small_classifier_closest.
Defined.

Lemma argmax_from_scale (c : R) (l : list R) :
  (0 < c)%R ->
  forall i best vbest,
    argmax_from i best (c * vbest) (map (Rmult c) l)
    = argmax_from i best vbest l.
Proof.
  intros Hc. induction l as [|x l IH]; intros i best vbest; [reflexivity|].
  simpl.
  destruct (decide (vbest < x)%R) as [Hlt|Hge].
  - rewrite decide_True by (apply Rmult_lt_compat_l; assumption). apply IH.
  - rewrite decide_False; [apply IH|].
    intros Hlt. apply Hge. eapply Rmult_lt_reg_l; eassumption.
Qed.

Lemma argmax_scale (c : R) (l : list R) :
  (0 < c)%R -> argmax (map (Rmult c) l) = argmax l.
Proof.
  intros Hc. destruct l as [|x l]; [reflexivity|]. simpl.
  now rewrite argmax_from_scale.
Qed.

Lemma argmax_last_scale (c : R) (t : matrix) :
  (0 < c)%R -> argmax_last (map (map (Rmult c)) t) = argmax_last t.
Proof.
  intros Hc. unfold argmax_last. induction t as [|row t IH]; [reflexivity|].
  simpl. rewrite argmax_scale by assumption. now rewrite IH.
Qed.

Lemma dot_scale (c : R) (u v : vector) : dot (scale c u) v = (c * dot u v)%R.
Proof.
  revert v. induction u as [|x u IH]; intros [|y v];
    try (unfold dot; simpl; ring).
  unfold scale in *. simpl. rewrite !dot_cons, IH. ring.
Qed.

Lemma matmul_t_scale (c : R) (a b : matrix) :
  matmul_t (map (scale c) a) b
  = (rows ← matmul_t a b; Ok (map (map (Rmult c)) rows)).
Proof.
  unfold matmul_t. induction a as [|row a IH]; [reflexivity|].
  simpl. replace (length (scale c row)) with (length row)
    by (unfold scale; now rewrite length_map).
  destruct (forallb (fun col => Nat.eqb (length col) (length row)) b);
    [|reflexivity].
  simpl. rewrite IH.
  destruct (mapM _ a) as [rows| |]; simpl; try reflexivity.
  do 2 f_equal. rewrite map_map. apply map_ext. intros v.
  apply (dot_scale c row v).
Qed.

(** X9. The closest vertex does not depend on the length of a direction:
    multiplying every direction by a positive factor leaves the result of
    [_find_closest_vertex] unchanged, indices and errors alike. *)
Theorem X9_find_closest_vertex_ignores_positive_scaling
    (self : object) (directions_device : string) (directions : matrix)
    (c : R) :
  (0 < c)%R ->
  SphereClassificationDirectionGetter._find_closest_vertex self
    directions_device (map (scale c) directions)
  = SphereClassificationDirectionGetter._find_closest_vertex self
      directions_device directions.
Proof.
  intros Hc. unfold SphereClassificationDirectionGetter._find_closest_vertex.
  destruct (get_tensor self "vertices") as [[device vertices]| |];
    simpl; try reflexivity.
  destruct (get_tensor _ "vertices") as [[device' vertices']| |];
    simpl; try reflexivity.
  rewrite matmul_t_scale.
  destruct (matmul_t directions vertices') as [cosine_similarity| |];
    simpl; try reflexivity.
  now rewrite argmax_last_scale.
Qed.

Lemma X9_witness :
  exists self,
    small_classifier = Ok self /\
    SphereClassificationDirectionGetter._find_closest_vertex self "cuda"
      (map (scale 5) [[0; 1; 0]]%R)
    = Ok (<["vertices" := VTensor "cuda" three_vertices]> self, [1%Z]).
Proof.
  eexists. split; [reflexivity|].
  rewrite (X9_find_closest_vertex_ignores_positive_scaling _ "cuda"
             [[0; 1; 0]]%R 5) by lra.
  now apply small_classifier_closest.
Defined.

(** ** The Fisher-von Mises head: forward against the sampler *)

(** X10. What [forward] of the Fisher-von Mises head returns cannot be
    handed to its own [sample_tracking_direction_prob]: forward squeezes
    the kappas to rank 1, and the sampler's [squeeze(dim=1)] then raises
    IndexError, for every batch of the right shape, before any random draw
    is made. *)
Theorem X10_fisher_forward_output_is_refused_by_sampler
    (w : nat -> LinearInit) (input_size : Z) (dropout : option R)
    (self : object) (keep : nat -> nat -> DropoutMask) (inputs : matrix)
    (B : nat) :
  FisherVonMisesDirectionGetter.__init__ w input_size dropout = Ok self ->
  has_shape B (Z.to_nat input_size) inputs ->
  exists means kappas,
    FisherVonMisesDirectionGetter.forward keep self inputs
    = Ok (means, kappas) /\
    forall fuel rs,
      FisherVonMisesDirectionGetter.sample_tracking_direction_prob fuel
        (T2 means, kappas) rs = Raise IndexError.
Proof.
  intros Hinit Hx.
  destruct (fisher_forward_Ok w input_size dropout self keep inputs B Hinit Hx)
    as (raw & kappas & _ & _ & Hf & _).
  exists (map normalize raw), (T1 kappas). split; [assumption|].
  intros fuel rs.
  unfold FisherVonMisesDirectionGetter.sample_tracking_direction_prob.
  reflexivity.
Qed.

Lemma X10_witness :
  exists self means kappas,
    FisherVonMisesDirectionGetter.__init__ unit_bias_init 2 None = Ok self /\
    FisherVonMisesDirectionGetter.forward keep_all self [[1; 2]]%R
    = Ok (means, kappas) /\
    FisherVonMisesDirectionGetter.sample_tracking_direction_prob 10
      (T2 means, kappas) constant_draws = Raise IndexError.
Proof.
  assert (has_shape 1 (Z.to_nat 2) [[1; 2]]%R) as Hshape.
  { split; [reflexivity|]. repeat constructor. }
  eexists.
  destruct (X10_fisher_forward_output_is_refused_by_sampler unit_bias_init 2
              None _ keep_all [[1; 2]]%R 1%nat eq_refl Hshape)
    as (means & kappas & Hf & Hs).
  exists means, kappas. split; [reflexivity|]. split; [exact Hf|]. apply Hs.
Defined.

(** ** The sampler's orthonormal vector *)

Section OrthonormalDefect.
Local Open Scope R_scope.

Lemma orthogonal_part_dot_any mu v :
  length v = length mu -> norm mu <> 0 ->
  dot (orthogonal_part mu v) mu = dot mu v * (1 - norm mu).
Proof.
  intros Hlen Hmu. unfold orthogonal_part.
  rewrite dot_vsub_l by (now rewrite length_map).
  replace (map (fun m => m * dot mu v / norm mu) mu)
    with (map (fun m => m * (dot mu v / norm mu)) mu)
    by (apply map_ext; intros; unfold Rdiv; ring).
  rewrite dot_map_mul_l, (dot_comm v mu).
  assert (dot mu mu = norm mu * norm mu) as ->.
  { unfold norm. now rewrite sqrt_sqrt by apply dot_self_nonneg. }
  field. exact Hmu.
Qed.

(** X11. The vector [_sample_orthonormal_to] returns has norm 1 whenever
    the draw is not parallel to [mu], but it is orthogonal to [mu] only
    when [mu] is a unit vector or the draw happens to be orthogonal to it:
    its dot product with [mu] is (mu . v) (1 - ||mu||) / ||orthto||, since
    the projection divides by the norm of [mu] once and not twice. *)
Theorem X11_sampled_vector_orthogonal_only_to_unit_mu
    (mu : vector) (rs rs' : RandomState) (out : vector) :
  FisherVonMisesDirectionGetter._sample_orthonormal_to mu rs = (out, rs') ->
  norm mu <> 0 ->
  let v := map (randn_draws rs) (seq 0 (length mu)) in
  norm (orthogonal_part mu v) <> 0 ->
  norm out = 1 /\
  dot out mu = dot mu v * (1 - norm mu) / norm (orthogonal_part mu v) /\
  (dot out mu = 0 <-> dot mu v = 0 \/ norm mu = 1).
Proof.
  unfold FisherVonMisesDirectionGetter._sample_orthonormal_to. simpl.
  intros [= <- <-] Hmu Hne.
  fold (orthogonal_part mu (map (randn_draws rs) (seq 0 (length mu)))) in *.
  set (v := map (randn_draws rs) (seq 0 (length mu))) in *.
  set (orthto := orthogonal_part mu v) in *.
  assert (length v = length mu) as Hlen
    by (subst v; now rewrite length_map, length_seq).
  assert (dot (map (fun o => o / norm orthto) orthto) mu
          = dot mu v * (1 - norm mu) / norm orthto) as Hdot.
  { rewrite dot_map_div_l. subst orthto.
    now rewrite orthogonal_part_dot_any by assumption. }
  split; [|split]; [| exact Hdot |].
  - apply dot_1_norm. rewrite dot_map_div.
    assert (dot orthto orthto = norm orthto * norm orthto) as ->.
    { unfold norm. now rewrite sqrt_sqrt by apply dot_self_nonneg. }
    field. exact Hne.
  - rewrite Hdot. split.
    + intros H0.
      assert (dot mu v * (1 - norm mu) = 0) as Hprod.
      { apply (Rmult_eq_reg_r (/ norm orthto)).
        - unfold Rdiv in H0. rewrite H0. ring.
        - now apply Rinv_neq_0_compat. }
      apply Rmult_integral in Hprod as [H|H]; [left; exact H | right; lra].
    + intros [H|H]; rewrite H; unfold Rdiv; ring.
Qed.

End OrthonormalDefect.


Lemma X11_witness :
  exists out rs',
    FisherVonMisesDirectionGetter._sample_orthonormal_to [1; 0; 0]%R
      (mkRandomState (fun _ => 0%R) (fun _ => 0%R)
         (fun n => if Nat.eqb n 1 then 1%R else 0%R)) = (out, rs') /\
    norm out = 1%R /\ dot out [1; 0; 0]%R = 0%R.
Proof.
  set (rs := mkRandomState (fun _ => 0%R) (fun _ => 0%R)
               (fun n => if Nat.eqb n 1 then 1%R else 0%R)).
  assert (norm [1; 0; 0]%R <> 0%R) as Hmu.
  { rewrite north_pole_unit. lra. }
  assert (orthogonal_part [1; 0; 0]%R
            (map (randn_draws rs) (seq 0 (length [1; 0; 0]%R)))
          = [0; 1; 0]%R) as Hpart.
  { unfold orthogonal_part. rewrite north_pole_unit. unfold dot, vsub. simpl.
    repeat f_equal; field. }
  assert (norm [0; 1; 0]%R = 1%R) as Hn.
  { apply dot_1_norm. unfold dot. simpl. ring. }
  destruct (FisherVonMisesDirectionGetter._sample_orthonormal_to [1; 0; 0]%R rs)
    as [out rs'] eqn:Hs.
  destruct (X11_sampled_vector_orthogonal_only_to_unit_mu [1; 0; 0]%R rs rs'
              out Hs Hmu) as (Hnorm & _ & Hiff).
  { rewrite Hpart, Hn. lra. }
  exists out, rs'. split; [reflexivity|]. split; [exact Hnorm|].
  apply Hiff. right. apply north_pole_unit.
Defined.

(** ** The tracking validation on a batch: checks and ranges *)

Section GenerationChecks.

Import DWIMLTrainerForTrackingOneInput.

Lemma last_point_nonempty (line : matrix) :
  line <> [] -> exists p, last_point line = Ok p.
Proof.
  intros Hne. unfold last_point.
  destruct (last line) as [p|] eqn:Hl; [now exists p|].
  apply last_None in Hl. contradiction.
Qed.

Lemma mapM_last_point_empty (lines : list matrix) :
  Exists (fun line => line = []) lines ->
  mapM last_point lines = Raise IndexError.
Proof.
  induction lines as [|line lines IH]; intros Hex; [inversion Hex|].
  simpl. destruct line as [|p line].
  - reflexivity.
  - destruct (last_point_nonempty (p :: line)) as [q ->]; [discriminate|].
    simpl. rewrite IH; [reflexivity|].
    apply Exists_cons in Hex as [Hbad|Hex]; [discriminate|assumption].
Qed.

(** X12. [generate_from_one_batch] checks the batch before anything is
    propagated: an empty batch is refused by torch.vstack (RuntimeError), a
    batch holding a line without points raises IndexError, and on a batch
    of non-empty 3D lines a model without step size fails the assertion of
    [propagate_multiple_lines]. None of the three outcomes depends on the
    propagation, which is not reached. *)
Theorem X12_generate_checks_batch_before_propagating (Parent Ids : Type)
    (propagation : R -> list matrix -> Ids -> res (list matrix))
    (self : Trainer Parent) (lines : list matrix) (ids : Ids) :
  (lines = [] ->
   generate_from_one_batch Parent Ids propagation self (lines, ids)
   = Raise (RuntimeError "vstack expects a non-empty TensorList")) /\
  (Exists (fun line => line = []) lines ->
   generate_from_one_batch Parent Ids propagation self (lines, ids)
   = Raise IndexError) /\
  (streamlines_3d lines -> model_step_size Parent self = None ->
   generate_from_one_batch Parent Ids propagation self (lines, ids)
   = Raise AssertionError).
Proof.
  split; [|split].
  - intros ->. reflexivity.
  - intros Hex. unfold generate_from_one_batch.
    now rewrite mapM_last_point_empty.
  - intros Hlines Hstep.
    destruct (streamlines_final_points lines Hlines) as (Hlast & Hne & H3).
    unfold generate_from_one_batch. rewrite Hlast. simpl.
    rewrite (vstack_points _ Hne H3). simpl.
    unfold propagate_multiple_lines. now rewrite Hstep.
Qed.

Lemma X12_witness :
  generate_from_one_batch unit unit (fun _ _ _ => Ok [truth_line])
    fresh_trainer ([truth_line; []], tt) = Raise IndexError.
Proof.
  apply X12_generate_checks_batch_before_propagating.
  apply Exists_cons_tl, Exists_cons_hd. reflexivity.
Defined.

Lemma vstack_inv (rows out : matrix) :
  vstack rows = Ok out -> out = rows /\ rows <> [].
Proof.
  unfold vstack. destruct rows as [|r rows]; [discriminate|].
  destruct (forallb _ _); [|discriminate]. intros [= <-]. split; [reflexivity|discriminate].
Qed.

Lemma pairwise_row_nonneg x1 x2 d :
  pairwise_row x1 x2 = Ok d -> (0 <= d)%R.
Proof.
  unfold pairwise_row. intros H. apply bind_Ok in H as (ps & _ & H).
  injection H as <-. apply sqrt_pos.
Qed.

Lemma broadcast2_length {A : Type} (x y : list A) ps :
  broadcast2 x y = Ok ps ->
  x <> [] -> y <> [] ->
  ps <> [] /\ (length x = length y -> length ps = length x).
Proof.
  unfold broadcast2. intros H Hx Hy.
  destruct (Nat.eqb (length x) (length y)) eqn:Heq.
  - injection H as <-. apply Nat.eqb_eq in Heq. split.
    + destruct x, y; simpl; congruence.
    + intros _. rewrite length_zip. lia.
  - apply Nat.eqb_neq in Heq. split; [|intros; contradiction].
    destruct x as [|a [|a' x]]; [congruence| |].
    + injection H as <-. destruct y; simpl; congruence.
    + destruct y as [|b [|b' y]]; [congruence| |discriminate].
      injection H as <-. discriminate.
Qed.

Lemma PairwiseDistance_nonneg (x1 x2 : matrix) loss :
  PairwiseDistance x1 x2 = Ok loss ->
  x1 <> [] -> x2 <> [] ->
  loss <> [] /\ Forall (fun d => (0 <= d)%R) loss /\
  (length x1 = length x2 -> length loss = length x1).
Proof.
  unfold PairwiseDistance. intros H Hx1 Hx2.
  apply bind_Ok in H as (ps & Hps & H).
  destruct (broadcast2_length _ _ _ Hps Hx1 Hx2) as [Hne Hlen].
  pose proof (mapM_length _ _ _ H) as Hl.
  apply mapM_Ok in H.
  split; [|split].
  - destruct loss; [|discriminate]. destruct ps; [congruence|discriminate].
  - clear -H. induction H as [|[r1 r2] d ps loss Hd _ IH]; constructor;
      [eapply pairwise_row_nonneg; eassumption | assumption].
  - intros Heq. rewrite Hl. auto.
Qed.

Lemma Rsum_nonneg (l : list R) :
  Forall (fun d => (0 <= d)%R) l -> (0 <= Rsum l)%R.
Proof.
  induction 1 as [|d l Hd _ IH]; simpl; [lra|]. unfold Rsum in *. simpl. lra.
Qed.

Lemma count_above_le (threshold : R) (loss : vector) :
  (count_above threshold loss <= length loss)%nat.
Proof. unfold count_above. apply length_filter. Qed.

(** X13. Whatever the propagation returns, a result (mean loss, n, IS
    ratio) of [generate_from_one_batch] has n at least 1, a mean loss that
    is not negative and an IS ratio that is not negative; the ratio is at
    most 100 when the propagation returned as many lines as the batch
    holds, n being then the batch size. *)
Theorem X13_generate_result_ranges (Parent Ids : Type)
    (propagation : R -> list matrix -> Ids -> res (list matrix))
    (self : Trainer Parent) (lines : list matrix) (ids : Ids)
    (mean_loss IS_ratio : R) (n : nat) :
  generate_from_one_batch Parent Ids propagation self (lines, ids)
  = Ok (mean_loss, n, IS_ratio) ->
  (1 <= n)%nat /\ (0 <= mean_loss)%R /\ (0 <= IS_ratio)%R /\
  (n = length lines -> (IS_ratio <= 100)%R).
Proof.
  unfold generate_from_one_batch. intros H.
  apply bind_Ok in H as (last_pos & Hlast & H).
  apply bind_Ok in Hlast as (rows0 & Hrows0 & Hv0).
  apply vstack_inv in Hv0 as [-> Hne0].
  apply mapM_length in Hrows0.
  apply bind_Ok in H as (generated & Hgen & H).
  apply bind_Ok in H as (computed & Hcomp & H).
  apply bind_Ok in Hcomp as (rows1 & Hrows1 & Hv1).
  apply vstack_inv in Hv1 as [-> Hne1].
  apply mapM_length in Hrows1.
  apply bind_Ok in H as (loss & Hloss & H).
  injection H as <- <- <-.
  destruct (PairwiseDistance_nonneg _ _ _ Hloss Hne1 Hne0)
    as (Hlne & Hpos & Hlen).
  assert (1 <= length generated)%nat as Hn.
  { rewrite <- Hrows1. destruct rows1; [congruence|simpl; lia]. }
  assert (0 < INR (length generated))%R as HnR by (apply lt_0_INR; lia).
  assert (0 < INR (length loss))%R as HlR.
  { apply lt_0_INR. destruct loss; [congruence|simpl; lia]. }
  pose proof (pos_INR (count_above IS_THRESHOLD loss)) as Hc.
  split; [exact Hn|]. split; [|split].
  - apply Rmult_le_pos; [now apply Rsum_nonneg|].
    left. now apply Rinv_0_lt_compat.
  - apply Rmult_le_pos; [|lra]. apply Rmult_le_pos; [exact Hc|].
    left. now apply Rinv_0_lt_compat.
  - intros Heq.
    assert (length loss = length generated) as Hll.
    { rewrite Hlen by congruence. congruence. }
    pose proof (count_above_le IS_THRESHOLD loss) as Hle.
    rewrite Hll in Hle. apply le_INR in Hle.
    assert (INR (count_above IS_THRESHOLD loss) / INR (length generated) <= 1)%R.
    { apply (Rmult_le_reg_r (INR (length generated))); [exact HnR|].
      unfold Rdiv. rewrite Rmult_assoc, Rinv_l by lra. lra. }
    lra.
Qed.

Lemma X13_witness :
  exists mean_loss n IS_ratio,
    generate_from_one_batch unit unit (fun _ _ _ => Ok [far_line])
      fresh_trainer ([truth_line], tt) = Ok (mean_loss, n, IS_ratio) /\
    (1 <= n)%nat /\ (0 <= mean_loss)%R /\ (0 <= IS_ratio <= 100)%R.
Proof.
  assert (exists mean_loss IS_ratio,
             generate_from_one_batch unit unit (fun _ _ _ => Ok [far_line])
               fresh_trainer ([truth_line], tt)
             = Ok (mean_loss, 1%nat, IS_ratio))
    as (mean_loss & IS_ratio & H).
  { unfold generate_from_one_batch. simpl. eexists. eexists. reflexivity. }
  exists mean_loss, 1%nat, IS_ratio. split; [exact H|].
  destruct (X13_generate_result_ranges _ _ _ _ _ _ _ _ _ H)
    as (Hn & Hm & Hi & Hle).
  split; [exact Hn|]. split; [exact Hm|]. split; [exact Hi|].
  apply Hle. reflexivity.
Defined.

End GenerationChecks.

Section GenerationSeeds.

Import DWIMLTrainerForTrackingOneInput.

Lemma slice_to_min_prefix (K : Z) (s : matrix) :
  let seed := slice_to (Z.min (Z.of_nat (length s)) K) s in
  seed `prefix_of` s /\
  ((0 <= K)%Z -> Z.of_nat (length seed) = Z.min (Z.of_nat (length s)) K) /\
  ((K < 0)%Z -> Z.of_nat (length seed) = Z.max 0 (Z.of_nat (length s) + K)).
Proof.
  unfold slice_to. simpl.
  destruct (Z.min (Z.of_nat (length s)) K <? 0)%Z eqn:Hm.
  - apply Z.ltb_lt in Hm. split; [|split].
    + eexists. symmetry. apply take_drop.
    + lia.
    + intros HK. rewrite length_take. lia.
  - apply Z.ltb_ge in Hm. split; [|split].
    + eexists. symmetry. apply take_drop.
    + intros HK. rewrite length_take. lia.
    + lia.
Qed.

(** X14. The propagation only ever receives the beginning of each line of
    the batch: one seed per line, a prefix of it, of
    min(len, tracking_phase_nb_steps_init) points (all but the last |K|
    points for a negative setting K). Two propagations that agree on such
    seeds give the same result of [generate_from_one_batch]. *)
Theorem X14_propagation_only_sees_line_prefixes (Parent Ids : Type)
    (propagation propagation' : R -> list matrix -> Ids -> res (list matrix))
    (self : Trainer Parent) (lines : list matrix) (ids : Ids) :
  let K := tracking_phase_nb_steps_init Parent self in
  (forall step_size seeds,
      Forall2 (fun seed line =>
                 seed `prefix_of` line /\
                 ((0 <= K)%Z ->
                  Z.of_nat (length seed) = Z.min (Z.of_nat (length line)) K) /\
                 ((K < 0)%Z ->
                  Z.of_nat (length seed)
                  = Z.max 0 (Z.of_nat (length line) + K)))
              seeds lines ->
      propagation step_size seeds ids = propagation' step_size seeds ids) ->
  generate_from_one_batch Parent Ids propagation self (lines, ids)
  = generate_from_one_batch Parent Ids propagation' self (lines, ids).
Proof.
  intros K Hagree. unfold generate_from_one_batch.
  destruct (rows ← mapM last_point lines; vstack rows) as [last_pos| |];
    try reflexivity.
  simpl. unfold propagate_multiple_lines.
  destruct (model_step_size Parent self) as [step_size|]; [|reflexivity].
  rewrite Hagree; [reflexivity|].
  apply Forall2_fmap_l, Forall_Forall2_diag, Forall_forall.
  intros s _. apply slice_to_min_prefix.
Qed.

Lemma X14_witness :
  generate_from_one_batch unit unit
    (fun _ seeds _ => Ok (map (fun s => s ++ [[100; 0; 0]%R]) seeds))
    fresh_trainer ([truth_line], tt)
  = generate_from_one_batch unit unit
      (fun _ seeds _ => Ok (map (fun s => take 5 s ++ [[100; 0; 0]%R]) seeds))
      fresh_trainer ([truth_line], tt).
Proof.
  apply X14_propagation_only_sees_line_prefixes.
  intros step_size seeds Hseeds. simpl in Hseeds. f_equal.
  apply Forall2_length in Hseeds as Hlen.
  destruct seeds as [|seed [|? ?]]; try discriminate Hlen.
  apply Forall2_cons_1 in Hseeds as [(_ & Hk & _) _].
  simpl. do 2 f_equal. symmetry. apply take_ge.
  specialize (Hk ltac:(lia)). simpl in Hk. lia.
Defined.

End GenerationSeeds.

(** ** Saving and resuming the tracking monitors *)

Section CheckpointRoundTrip.

Import DWIMLTrainerForTrackingOneInput.

Lemma set_state_get_state (self m : BatchHistoryMonitor) :
  set_state self (get_state m) = m.
Proof. now destruct m. Qed.

(** X15. The checkpoint that [_prepare_checkpoint_info] writes can be
    resumed: its 'current_states' hold the states of the two tracking
    monitors under the names [_update_states_from_checkpoint] reads, every
    other entry being the parent's; resuming any trainer from them raises
    no KeyError once the parent's update succeeds, and sets the loss
    monitor to the saved one, while the saved IS state is stored but the
    resumed IS monitor is the fixed one of 150 epochs. *)
Theorem X15_saved_checkpoint_can_be_resumed (Parent : Type)
    (super_prepare :
       Parent -> res (gmap string (gmap string BatchHistoryMonitor)))
    (super_update : Parent -> gmap string BatchHistoryMonitor -> res Parent)
    (self : Trainer Parent)
    (checkpoint_info : gmap string (gmap string BatchHistoryMonitor)) :
  _prepare_checkpoint_info Parent super_prepare self = Ok checkpoint_info ->
  exists parent_info parent_states current_states,
    super_prepare (parent Parent self) = Ok parent_info /\
    parent_info !! "current_states" = Some parent_states /\
    checkpoint_info !! "current_states" = Some current_states /\
    (forall name, name <> "current_states" ->
                  checkpoint_info !! name = parent_info !! name) /\
    current_states !! "tracking_valid_loss_monitor_state"
    = Some (tracking_valid_loss_monitor Parent self) /\
    current_states !! "tracking_valid_IS_monitor_state"
    = Some (tracking_valid_IS_monitor Parent self) /\
    (forall name, name <> "tracking_valid_loss_monitor_state" ->
                  name <> "tracking_valid_IS_monitor_state" ->
                  current_states !! name = parent_states !! name) /\
    (forall (other : Trainer Parent) parent',
        super_update (parent Parent other) current_states = Ok parent' ->
        exists resumed,
          _update_states_from_checkpoint Parent super_update other
            current_states = Ok resumed /\
          tracking_valid_loss_monitor Parent resumed
          = tracking_valid_loss_monitor Parent self /\
          tracking_valid_IS_monitor Parent resumed
          = mkMonitor 149 (replicate 150 0%R)).
Proof.
  unfold _prepare_checkpoint_info. intros H.
  apply bind_Ok in H as (parent_info & Hsuper & H).
  destruct (parent_info !! "current_states") as [parent_states|] eqn:Hstates;
    [|discriminate].
  injection H as <-.
  exists parent_info, parent_states. eexists.
  split; [exact Hsuper|]. split; [exact Hstates|].
  split; [now rewrite lookup_insert_eq|].
  split; [intros name Hname; now rewrite lookup_insert_ne by congruence|].
  split; [now simplify_map_eq|]. split; [now simplify_map_eq|].
  split; [intros name Hl Hi; now rewrite !lookup_insert_ne by congruence|].
  intros other parent' Hupdate. unfold _update_states_from_checkpoint.
  rewrite Hupdate. simpl.
  rewrite lookup_insert_ne by discriminate. rewrite lookup_insert_eq. simpl.
  eexists. split; [reflexivity|]. simpl.
  split; [apply set_state_get_state | reflexivity].
Qed.

Lemma X15_witness :
  exists checkpoint_info current_states resumed,
    _prepare_checkpoint_info unit (fun _ => Ok {["current_states" := ∅]})
      fresh_trainer = Ok checkpoint_info /\
    checkpoint_info !! "current_states" = Some current_states /\
    _update_states_from_checkpoint unit (fun p _ => Ok p) fresh_trainer
      current_states = Ok resumed /\
    tracking_valid_loss_monitor unit resumed = mkMonitor (-1) [].
Proof.
  assert (exists checkpoint_info,
             _prepare_checkpoint_info unit
               (fun _ => Ok {["current_states" := ∅]}) fresh_trainer
             = Ok checkpoint_info) as [checkpoint_info Hinfo].
  { unfold _prepare_checkpoint_info. simpl.
    rewrite lookup_singleton_eq. eexists; reflexivity. }
  destruct (X15_saved_checkpoint_can_be_resumed unit
              (fun _ => Ok {["current_states" := ∅]}) (fun p _ => Ok p)
              fresh_trainer checkpoint_info Hinfo)
    as (parent_info & parent_states & current_states & _ & _ & Hc & _ & _ & _
        & _ & Hresume).
  destruct (Hresume fresh_trainer tt eq_refl) as (resumed & Hr & Hloss & _).
  exists checkpoint_info, current_states, resumed.
  split; [exact Hinfo|]. split; [exact Hc|]. split; [exact Hr|]. exact Hloss.
Defined.

End CheckpointRoundTrip.

(** ** The transformer's forward: what the checks hand over *)

Section TransformerChecks.

Import AbstractTransformerModel.

Lemma fold_max_bounds (first : Z) (ls : list Z) :
  let m := fold_right Z.max first ls in
  (first <= m)%Z /\ Forall (fun l => (l <= m)%Z) ls /\ (m = first \/ In m ls).
Proof.
  induction ls as [|l ls (IHf & IHa & IHi)]; simpl.
  - repeat split; [lia | constructor | now left].
  - split; [lia|]. split.
    + constructor; [lia|]. eapply Forall_impl; [exact IHa|].
      simpl. intros. lia.
    + destruct (Z.max_spec l (fold_right Z.max first ls)) as [[_ ->]|[_ ->]].
      * destruct IHi as [->|Hin]; [now left | right; now right].
      * right. now left.
Qed.

Lemma forallb_all_equal (first : Z) (ls : list Z) :
  forallb (fun l => Z.eqb l first) ls = true <-> Forall (fun l => l = first) ls.
Proof.
  rewrite forallb_forall, Forall_forall. split; intros H l Hin.
  - apply Z.eqb_eq, H. now apply list_elem_of_In.
  - apply Z.eqb_eq, H. now apply list_elem_of_In.
Qed.

Lemma forward_passes (Outputs : Type)
    (process : Model -> bool -> Z -> list Z -> list matrix -> list matrix ->
               res Outputs)
    (self : Model) (inputs input_streamlines : list matrix) (first : Z)
    (lens : list Z) :
  _context self <> None ->
  Forall (fun '(i, s) => len i = len s) (zip inputs input_streamlines) ->
  Forall (fun i => (len i <= max_len self)%Z) inputs ->
  map len inputs = first :: lens ->
  forward Outputs process self inputs input_streamlines
  = process self (negb (forallb (fun l => Z.eqb l first) (first :: lens)))
      (fold_right Z.max first (first :: lens)) (first :: lens) inputs
      input_streamlines.
Proof.
  intros Hctx Hlen Hmax Hlens. unfold forward.
  destruct (_context self); [|contradiction].
  replace (forallb _ (zip inputs input_streamlines)) with true.
  - simpl. replace (existsb _ (map len inputs)) with false.
    + now rewrite Hlens.
    + symmetry. apply not_true_is_false. intros Hex.
      apply existsb_too_long in Hex as (i & Hin & Hlt).
      rewrite Forall_forall in Hmax.
      specialize (Hmax i (proj2 (list_elem_of_In _ _) Hin)). lia.
  - symmetry. apply forallb_forall. intros [i st] Hin.
    rewrite Forall_forall in Hlen.
    apply Z.eqb_eq, (Hlen (i, st)). now apply list_elem_of_In.
Qed.

(** X16. The checks that open [forward], in their order: without context
    a ValueError, whatever the inputs; with a context, an input and its
    streamline of different lengths fail the assertion; an empty batch
    passes both and the length check, and raises IndexError. Otherwise,
    with no input longer than max_len, the rest of the forward pass runs
    with [use_padding] false exactly when all inputs have the same length,
    and with [batch_max_len] the length of a longest input, which is at
    most max_len. *)
Theorem X16_forward_checks_and_padding_parameters (Outputs : Type)
    (process : Model -> bool -> Z -> list Z -> list matrix -> list matrix ->
               res Outputs)
    (self : Model) (inputs input_streamlines : list matrix) :
  (_context self = None ->
   forward Outputs process self inputs input_streamlines
   = Raise (ValueError "Please set context before usage.")) /\
  (_context self <> None ->
   Exists (fun '(i, s) => len i <> len s) (zip inputs input_streamlines) ->
   forward Outputs process self inputs input_streamlines
   = Raise AssertionError) /\
  (_context self <> None -> inputs = [] ->
   forward Outputs process self inputs input_streamlines = Raise IndexError) /\
  (_context self <> None ->
   Forall (fun '(i, s) => len i = len s) (zip inputs input_streamlines) ->
   Forall (fun i => (len i <= max_len self)%Z) inputs ->
   inputs <> [] ->
   exists use_padding batch_max_len,
     forward Outputs process self inputs input_streamlines
     = process self use_padding batch_max_len (map len inputs) inputs
         input_streamlines /\
     (use_padding = false <->
      forall i j, In i inputs -> In j inputs -> len i = len j) /\
     (exists i, In i inputs /\ len i = batch_max_len) /\
     Forall (fun i => (len i <= batch_max_len)%Z) inputs /\
     (batch_max_len <= max_len self)%Z).
Proof.
  split; [|split; [|split]].
  - intros Hctx. unfold forward. now rewrite Hctx.
  - intros Hctx Hex. unfold forward.
    destruct (_context self); [|contradiction].
    replace (forallb _ (zip inputs input_streamlines)) with false;
      [reflexivity|].
    symmetry. apply not_true_is_false. intros Hall.
    rewrite forallb_forall in Hall.
    apply Exists_exists in Hex as ([i st] & Hin & Hne).
    apply list_elem_of_In in Hin. specialize (Hall _ Hin). simpl in Hall.
    apply Z.eqb_eq in Hall. contradiction.
  - intros Hctx ->. unfold forward.
    destruct (_context self); [|contradiction]. reflexivity.
  - intros Hctx Hlen Hmax Hne.
    destruct inputs as [|i0 inputs']; [contradiction|].
    set (inputs := i0 :: inputs') in *.
    pose proof (forward_passes Outputs process self inputs input_streamlines
                  (len i0) (map len inputs') Hctx Hlen Hmax eq_refl) as Hf.
    change (len i0 :: map len inputs') with (map len inputs) in Hf.
    eexists. eexists. split; [exact Hf|].
    destruct (fold_max_bounds (len i0) (map len inputs)) as (Hfirst & Hall & Hin).
    split; [|split; [|split]].
    + rewrite negb_false_iff, forallb_all_equal, Forall_forall. split.
      * intros Heq i j Hi Hj.
        rewrite (Heq (len i)), (Heq (len j)); [reflexivity | |];
          apply list_elem_of_In; now apply in_map.
      * intros Heq l Hl. apply list_elem_of_In, in_map_iff in Hl as (i & <- & Hi).
        apply Heq; [assumption | now left].
    + destruct Hin as [Heq|Hin].
      * exists i0. split; [now left | now symmetry].
      * apply in_map_iff in Hin as (i & Hi & Hin). now exists i.
    + apply Forall_forall. intros i Hi.
      rewrite Forall_forall in Hall. apply Hall.
      apply list_elem_of_In, in_map. now apply list_elem_of_In.
    + destruct Hin as [->|Hin].
      * now apply Forall_inv in Hmax.
      * apply in_map_iff in Hin as (i & <- & Hin).
        rewrite Forall_forall in Hmax. apply Hmax. now apply list_elem_of_In.
Qed.

Lemma X16_witness :
  exists use_padding batch_max_len,
    forward (bool * Z) (fun _ use_padding batch_max_len _ _ _ =>
                          Ok (use_padding, batch_max_len))
      (mkModel (Some "training") 5) [[[1]; [2]]; [[3]]]%R
      [[[0]; [0]]; [[0]]]%R = Ok (use_padding, batch_max_len) /\
    (batch_max_len <= 5)%Z.
Proof.
  destruct (X16_forward_checks_and_padding_parameters (bool * Z)
              (fun _ use_padding batch_max_len _ _ _ =>
                 Ok (use_padding, batch_max_len))
              (mkModel (Some "training") 5) [[[1]; [2]]; [[3]]]%R
              [[[0]; [0]]; [[0]]]%R) as (_ & _ & _ & H).
  destruct H as (use_padding & batch_max_len & Hf & _ & _ & _ & Hle);
    try discriminate.
  - repeat constructor.
  - repeat constructor; unfold len; simpl; lia.
  - exists use_padding, batch_max_len. split; [exact Hf | exact Hle].
Defined.

End TransformerChecks.

(** ** Padding and stacking the batch *)

Lemma forward_padding_Ok (nb_features : nat) (data : matrix)
    (expected_length : Z) :
  (0 < nb_features)%nat -> (Z.of_nat (length data) <= expected_length)%Z ->
  forward_padding nb_features data expected_length
  = Ok (data ++ replicate (Z.to_nat expected_length - length data)
                  (replicate nb_features 0%R)).
Proof.
  intros HF Hlen. unfold forward_padding, pad.
  set (n := (expected_length - Z.of_nat (length data))%Z).
  replace (Z.max 0 (- 0)) with 0%Z by reflexivity.
  replace (Z.max 0 (- n)) with 0%Z by lia.
  rewrite !Z.sub_0_r, drop_0.
  replace (Z.of_nat (length data) <? 0)%Z with false by (symmetry; lia).
  simpl.
  rewrite Nat2Z.id, firstn_all.
  replace (Z.to_nat expected_length - length data)%nat with (Z.to_nat n) by lia.
  destruct (n <=? 0)%Z eqn:Hn.
  - replace (Z.to_nat n) with 0%nat by lia. simpl. now rewrite app_nil_r.
  - replace (nb_features =? 0)%nat with false by (symmetry; apply Nat.eqb_neq; lia).
    replace (Z.of_nat (length data) + 0 + n <=? 0)%Z with false
      by (symmetry; lia).
    reflexivity.
Qed.

Lemma bind_Ok_l {A B : Type} (a : A) (k : A -> res B) : Ok a ≫= k = k a.
Proof. reflexivity. Qed.

Lemma stack_same_shape (L nb_features : nat) (data : list matrix) :
  data <> [] -> Forall (has_shape L nb_features) data -> stack data = Ok data.
Proof.
  intros Hne Hall. unfold stack. destruct data as [|first rest]; [contradiction|].
  replace (forallb _ (first :: rest)) with true; [reflexivity|].
  symmetry. apply forallb_forall. intros t Hin.
  rewrite Forall_forall in Hall.
  destruct (Hall first ltac:(now left)) as [Hlf Hrf].
  apply list_elem_of_In in Hin.
  destruct (Hall t Hin) as [Hlt Hrt].
  apply andb_true_intro. split; [apply Nat.eqb_eq; congruence|].
  apply forallb_forall. intros row Hrow. apply Nat.eqb_eq.
  apply list_elem_of_In in Hrow.
  rewrite Forall_forall in Hrt. rewrite (Hrt row Hrow).
  destruct first as [|row0 first].
  - simpl in Hlf. subst L. destruct t; [|discriminate]. now apply elem_of_nil in Hrow.
  - simpl. apply Forall_inv in Hrf. now symmetry.
Qed.

Section TransformerPadding.

Import AbstractTransformerModel.

(** X17. The inputs [forward] lets through are padded without loss: with
    the padding parameters forward computes, [pad_and_stack_batch] returns
    one tensor per input, all of shape [batch_max_len, nb_features], each
    being its input followed by rows of zeros; no input is cropped and the
    stacking cannot fail. *)
Theorem X17_forward_pads_inputs_to_one_shape (nb_features : nat)
    (self : Model) (inputs input_streamlines : list matrix) :
  _context self <> None ->
  Forall (fun '(i, s) => len i = len s) (zip inputs input_streamlines) ->
  Forall (fun i => (len i <= max_len self)%Z) inputs ->
  inputs <> [] -> (0 < nb_features)%nat ->
  Forall (fun i => Forall (fun row => length row = nb_features) i) inputs ->
  exists (batch_max_len : nat) (stacked : list matrix),
    forward (list matrix)
      (fun _ use_padding batch_max_len _ inputs _ =>
         pad_and_stack_batch nb_features inputs use_padding batch_max_len)
      self inputs input_streamlines = Ok stacked /\
    Forall (has_shape batch_max_len nb_features) stacked /\
    Forall2 (fun input padded =>
               padded = input ++ replicate (batch_max_len - length input)
                                    (replicate nb_features 0%R))
            inputs stacked /\
    (Z.of_nat batch_max_len <= max_len self)%Z.
Proof.
  intros Hctx Hlen Hmax Hne HF Hrows.
  destruct inputs as [|i0 inputs']; [contradiction|].
  set (inputs := i0 :: inputs') in *.
  rewrite (forward_passes _ _ self inputs input_streamlines (len i0)
             (map len inputs') Hctx Hlen Hmax eq_refl).
  change (len i0 :: map len inputs') with (map len inputs).
  destruct (fold_max_bounds (len i0) (map len inputs)) as (Hfirst & Hall & Hin).
  set (bml := fold_right Z.max (len i0) (map len inputs)) in *.
  assert (0 <= bml)%Z as Hpos by (unfold len in Hfirst; lia).
  assert (Forall (fun i => (length i <= Z.to_nat bml)%nat) inputs) as Hle.
  { apply Forall_forall. intros i Hi. rewrite Forall_forall in Hall.
    specialize (Hall (len i)
                  ltac:(apply list_elem_of_In, in_map; now apply list_elem_of_In)).
    unfold len in Hall. lia. }
  set (padded := map (fun input => input ++ replicate (Z.to_nat bml - length input)
                                     (replicate nb_features 0%R)) inputs).
  assert (Forall (has_shape (Z.to_nat bml) nb_features) padded) as Hshape.
  { apply Forall_forall. intros t Ht.
    apply list_elem_of_fmap in Ht as (input & -> & Hi).
    rewrite Forall_forall in Hle, Hrows.
    specialize (Hle _ Hi). specialize (Hrows _ Hi). split.
    - rewrite length_app, length_replicate. lia.
    - apply Forall_app. split; [exact Hrows|].
      apply Forall_forall. intros row Hrow.
      apply elem_of_replicate in Hrow as [-> _]. apply length_replicate. }
  assert (bml <= max_len self)%Z as Hbound.
  { destruct Hin as [Heq|Hin].
    - rewrite Heq. now apply Forall_inv in Hmax.
    - apply in_map_iff in Hin as (i & Hi & Hin). rewrite <- Hi.
      rewrite Forall_forall in Hmax. apply Hmax. now apply list_elem_of_In. }
  exists (Z.to_nat bml), padded.
  split; [|split; [exact Hshape|split]].
  - unfold pad_and_stack_batch.
    destruct (negb (forallb _ (map len inputs))) eqn:Hup.
    + rewrite (mapM_map _ (fun input => input ++ replicate
                                (Z.to_nat bml - length input)
                                (replicate nb_features 0%R))).
      * rewrite bind_Ok_l.
        apply (stack_same_shape (Z.to_nat bml) nb_features);
          [discriminate | exact Hshape].
      * apply Forall_forall. intros i Hi. apply forward_padding_Ok; [exact HF|].
        rewrite Forall_forall in Hle. specialize (Hle _ Hi). lia.
    + rewrite bind_Ok_l. apply negb_false_iff in Hup.
      apply forallb_all_equal in Hup.
      assert (bml = len i0) as Hb.
      { destruct Hin as [Heq|Hin]; [exact Heq|].
        rewrite Forall_forall in Hup. apply Hup. now apply list_elem_of_In. }
      assert (padded = inputs) as Hsame.
      { subst padded. rewrite <- (map_id inputs) at 2. apply map_ext_in.
        intros i Hi. rewrite Forall_forall in Hup.
        specialize (Hup (len i)
                      ltac:(apply list_elem_of_In, in_map; exact Hi)).
        unfold len in *.
        replace (Z.to_nat bml - length i)%nat with 0%nat by lia.
        simpl. apply app_nil_r. }
      rewrite Hsame in Hshape |- *.
      apply (stack_same_shape (Z.to_nat bml) nb_features);
        [discriminate | exact Hshape].
  - subst padded. apply Forall2_fmap_r, Forall_Forall2_diag, Forall_forall.
    intros i _. reflexivity.
  - lia.
Qed.

Lemma X17_witness :
  exists stacked,
    forward (list matrix)
      (fun _ use_padding batch_max_len _ inputs _ =>
         pad_and_stack_batch 1 inputs use_padding batch_max_len)
      (mkModel (Some "training") 5) [[[1]; [2]]; [[3]]]%R
      [[[0]; [0]]; [[0]]]%R = Ok stacked /\
    Forall2 (fun input padded =>
               exists n, padded = input ++ replicate n [0%R])
            [[[1]; [2]]; [[3]]]%R stacked.
Proof.
  destruct (X17_forward_pads_inputs_to_one_shape 1
              (mkModel (Some "training") 5) [[[1]; [2]]; [[3]]]%R
              [[[0]; [0]]; [[0]]]%R)
    as (batch_max_len & stacked & Hf & _ & Hpad & _); try discriminate.
  - repeat constructor.
  - repeat constructor; unfold len; simpl; lia.
  - lia.
  - repeat constructor.
  - exists stacked. split; [exact Hf|].
    eapply Forall2_impl; [exact Hpad|]. simpl. intros input padded ->.
    eexists; reflexivity.
Defined.

End TransformerPadding.

(** ** The padding mask *)

Lemma map_seq_constant {A : Type} (f : nat -> A) (c : A) (n a : nat) :
  (forall j, (a <= j < a + n)%nat -> f j = c) ->
  map f (seq a n) = replicate n c.
Proof.
  revert a. induction n as [|n IH]; intros a Hf; [reflexivity|].
  simpl. rewrite Hf by lia. f_equal. apply IH. intros j Hj. apply Hf. lia.
Qed.

Section PaddingMask.

Import AbstractTransformerModelEnd.

(** X18. For lengths between 0 and a [batch_max_len] that is not
    negative, [_generate_padding_mask] returns one row per streamline, of
    [batch_max_len] entries: false on the first [unpadded_lengths[i]]
    positions and true on all the following ones, which are the positions
    of the rows of zeros that the padding appends. A negative
    [batch_max_len] is refused. *)
Theorem X18_padding_mask_marks_positions_after_the_length
    (unpadded_lengths : list Z) (batch_max_len : Z) :
  ((batch_max_len < 0)%Z ->
   raises (_generate_padding_mask unpadded_lengths batch_max_len)) /\
  ((0 <= batch_max_len)%Z ->
   Forall (fun l => (0 <= l <= batch_max_len)%Z) unpadded_lengths ->
   _generate_padding_mask unpadded_lengths batch_max_len
   = Ok (map (fun l => replicate (Z.to_nat l) false
                       ++ replicate (Z.to_nat (batch_max_len - l)) true)
             unpadded_lengths)).
Proof.
  unfold _generate_padding_mask. split.
  - intros Hneg. replace (batch_max_len <? 0)%Z with true by (symmetry; lia).
    eexists; reflexivity.
  - intros Hpos Hall.
    replace (batch_max_len <? 0)%Z with false by (symmetry; lia).
    f_equal. apply map_ext_in. intros l Hl.
    rewrite Forall_forall in Hall.
    specialize (Hall l (proj2 (list_elem_of_In _ _) Hl)).
    unfold slice_start.
    replace (l <? 0)%Z with false by (symmetry; lia).
    replace (Z.min l batch_max_len) with l by lia.
    replace (Z.to_nat batch_max_len)
      with (Z.to_nat l + Z.to_nat (batch_max_len - l))%nat by lia.
    rewrite seq_app, map_app. f_equal.
    + apply map_seq_constant. intros j Hj. apply Z.leb_gt. lia.
    + apply map_seq_constant. intros j Hj. apply Z.leb_le. lia.
Qed.

Lemma X18_witness :
  _generate_padding_mask [2; 1]%Z 2
  = Ok [[false; false]; [false; true]].
Proof.
  rewrite (proj2 (X18_padding_mask_marks_positions_after_the_length
                    [2; 1]%Z 2)); [reflexivity | lia |].
  repeat constructor; lia.
Defined.

End PaddingMask.

(** ** The previous direction as a skip connection *)

Lemma pad_one_before_inv (nb_features : nat) (cp padded : matrix) :
  pad nb_features cp 1 0 = Ok padded ->
  (0 < nb_features)%nat /\ padded = replicate nb_features 0%R :: cp.
Proof.
  unfold pad.
  replace (Z.max 0 (Z.opp 1)) with 0%Z by reflexivity.
  replace (Z.max 0 (Z.opp 0)) with 0%Z by reflexivity.
  rewrite !Z.sub_0_r, drop_0, Nat2Z.id, firstn_all.
  replace (Z.of_nat (length cp) <? 0)%Z with false
    by (symmetry; apply Z.ltb_ge; lia).
  simpl.
  destruct (Nat.eqb_spec nb_features 0) as [->|HF]; [discriminate|].
  replace (Z.of_nat (length cp) + 1 + 0 <=? 0)%Z with false
    by (symmetry; apply Z.leb_gt; lia).
  simpl. rewrite app_nil_r. intros [= <-]. split; [lia | reflexivity].
Qed.

Lemma pad_one_before (nb_features : nat) (cp : matrix) :
  (0 < nb_features)%nat ->
  pad nb_features cp 1 0 = Ok (replicate nb_features 0%R :: cp).
Proof.
  intros HF. unfold pad.
  replace (Z.max 0 (Z.opp 1)) with 0%Z by reflexivity.
  replace (Z.max 0 (Z.opp 0)) with 0%Z by reflexivity.
  rewrite !Z.sub_0_r, drop_0, Nat2Z.id, firstn_all.
  replace (Z.of_nat (length cp) <? 0)%Z with false
    by (symmetry; apply Z.ltb_ge; lia).
  simpl.
  replace (nb_features =? 0)%nat with false by (symmetry; apply Nat.eqb_neq; lia).
  replace (Z.of_nat (length cp) + 1 + 0 <=? 0)%Z with false
    by (symmetry; apply Z.leb_gt; lia).
  simpl. now rewrite app_nil_r.
Qed.

Lemma vstack_blocks_uniform (d : nat) (blocks : list matrix) :
  blocks <> [] ->
  Forall (fun b => Forall (fun row => length row = d) b) blocks ->
  vstack_blocks blocks = Ok (concat blocks).
Proof.
  intros Hne Hall. unfold vstack_blocks.
  destruct blocks as [|b blocks]; [contradiction|].
  assert (Forall (fun row => length row = d) (concat (b :: blocks))) as Hrows.
  { apply Forall_concat. exact Hall. }
  replace (forallb _ (concat (b :: blocks))) with true; [reflexivity|].
  symmetry. apply forallb_forall. intros row Hrow. apply Nat.eqb_eq.
  rewrite Forall_forall in Hrows.
  rewrite (Hrows row (proj2 (list_elem_of_In _ _) Hrow)).
  destruct (concat (b :: blocks)) as [|row0 rows]; [contradiction|].
  simpl. symmetry. apply Hrows. left.
Qed.

Lemma vstack_blocks_inv (blocks : list matrix) (rows : matrix) :
  vstack_blocks blocks = Ok rows -> rows = concat blocks.
Proof.
  unfold vstack_blocks. destruct blocks; [discriminate|].
  destruct (forallb _ _); [|discriminate]. now intros [= <-].
Qed.

Section CopyPreviousDirection.

Import AbstractTransformerModelEnd.

Lemma copy_prev_dir_regression convert (nb_features : nat) (dg_key : string)
    (dirs : list matrix) (c : matrix) :
  contains "regression" dg_key = true ->
  copy_prev_dir convert nb_features dg_key dirs = Ok c ->
  c = map (map (fun x => (x * 6)%R))
        (concat (map (fun d => replicate nb_features 0%R :: d) dirs)).
Proof.
  intros Hkey. unfold copy_prev_dir. rewrite Hkey, bind_Ok_l. intros H.
  apply bind_Ok in H as (padded & Hpad & H).
  apply bind_Ok in H as (rows & Hrows & H). injection H as <-.
  apply vstack_blocks_inv in Hrows as ->. do 2 f_equal.
  apply mapM_Ok in Hpad. clear -Hpad.
  induction Hpad as [|d p dirs padded Hp _ IH]; [reflexivity|].
  apply pad_one_before_inv in Hp as [_ ->]. simpl. now rewrite IH.
Qed.

(** X19. [copy_prev_dir] by the key of the direction getter, for the keys
    of the registry: for the two regression keys it returns, for every
    streamline in turn, a row of zeros followed by the streamline's
    directions, everything multiplied by 6, that is one row per point; for
    the Gaussian and Fisher-von Mises keys it raises NotImplementedError;
    for the sphere classification it fails when the conversion to classes
    fails. *)
Theorem X19_copy_prev_dir_by_registry_key
    (convert : list matrix -> res (list matrix)) (nb_features : nat)
    (k : string) (cls : DirectionGetterClass) (dirs : list matrix) :
  keys_to_direction_getters !! k = Some cls ->
  (cls = ClsCosineRegression \/ cls = ClsL2Regression ->
   (0 < nb_features)%nat -> dirs <> [] ->
   Forall (fun d => Forall (fun row => length row = nb_features) d) dirs ->
   exists c,
     copy_prev_dir convert nb_features k dirs = Ok c /\
     c = map (map (fun x => (x * 6)%R))
           (concat (map (fun d => replicate nb_features 0%R :: d) dirs)) /\
     length c = (length (concat dirs) + length dirs)%nat) /\
  (cls = ClsSingleGaussian \/ cls = ClsGaussianMixture \/
   cls = ClsFisherVonMises \/ cls = ClsFisherVonMisesMixture ->
   copy_prev_dir convert nb_features k dirs = Raise (NotImplementedError "")) /\
  (cls = ClsSphereClassification ->
   forall e, convert dirs = Raise e ->
             copy_prev_dir convert nb_features k dirs = Raise e).
Proof.
  intros Hk. apply registry_inv in Hk. subst k. split; [|split].
  - intros Hcls HF Hne Hrows.
    assert (contains "regression" (class_key cls) = true) as Hkey
      by (destruct Hcls as [-> | ->]; reflexivity).
    eexists. split; [|split; [reflexivity|]].
    + unfold copy_prev_dir. rewrite Hkey, bind_Ok_l.
      rewrite (mapM_map _ (fun d => replicate nb_features 0%R :: d))
        by (apply Forall_forall; intros d _; now apply pad_one_before).
      rewrite bind_Ok_l.
      rewrite (vstack_blocks_uniform nb_features).
      * reflexivity.
      * destruct dirs; [contradiction | discriminate].
      * apply Forall_forall. intros b Hb.
        apply list_elem_of_fmap in Hb as (d & -> & Hd).
        rewrite Forall_forall in Hrows. constructor;
          [apply length_replicate | now apply Hrows].
    + rewrite length_map. clear. induction dirs as [|d dirs IH]; [reflexivity|].
      simpl. rewrite !length_app, IH. lia.
  - intros Hcls.
    destruct Hcls as [-> | [-> | [-> | ->]]]; reflexivity.
  - intros -> e He. unfold copy_prev_dir. simpl.
    change (contains "regression" "sphere-classification") with false.
    simpl. now rewrite He.
Qed.

Lemma X19_witness :
  copy_prev_dir (fun _ => Raise (NotImplementedError "")) 3
    "l2-regression" [[[1; 0; 0]]; []]%R
  = Ok [[0 * 6; 0 * 6; 0 * 6]; [1 * 6; 0 * 6; 0 * 6]; [0 * 6; 0 * 6; 0 * 6]]%R.
Proof.
  destruct (proj1 (X19_copy_prev_dir_by_registry_key
                     (fun _ => Raise (NotImplementedError "")) 3
                     "l2-regression" ClsL2Regression [[[1; 0; 0]]; []]%R
                     eq_refl))
    as (c & Hc & -> & _).
  - now right.
  - lia.
  - discriminate.
  - repeat constructor.
  - exact Hc.
Defined.

(** X20. With the previous direction as a skip connection, the tracking
    context fails on a batch of several streamlines as soon as one of them
    has a direction: [copy_prev_dir] holds one row per point of the batch
    while the direction getter returns one row per streamline, and adding
    the two raises torch's RuntimeError. *)
Theorem X20_copy_prev_dir_does_not_fit_tracking_outputs
    (convert : list matrix -> res (list matrix))
    (direction_getter : matrix -> res matrix) (nb_features : nat)
    (dg_key : string) (dirs : list matrix) (c : matrix)
    (use_padding : bool) (nb_streamlines : nat) (unpad_lengths : list Z)
    (outputs : list matrix) (unpadded directions : matrix) :
  contains "regression" dg_key = true ->
  copy_prev_dir convert nb_features dg_key dirs = Ok c ->
  unpad_outputs "tracking" use_padding nb_streamlines unpad_lengths outputs
  = Ok unpadded ->
  direction_getter unpadded = Ok directions ->
  length directions = length dirs ->
  (2 <= length dirs)%nat -> Exists (fun d => d <> []) dirs ->
  forward_end direction_getter "tracking" use_padding nb_streamlines
    unpad_lengths (Some c) outputs
  = Raise (RuntimeError "The size of tensor a must match the size of tensor b").
Proof.
  intros Hkey Hc Hunpad Hdg Hlen Hn Hex.
  apply (copy_prev_dir_regression _ _ _ _ _ Hkey) in Hc.
  assert (length dirs < length c)%nat as Hlt.
  { subst c. rewrite length_map. clear -Hex.
    induction Hex as [d dirs Hd | d dirs _ IH].
    - simpl. rewrite length_app. destruct d; [contradiction|].
      simpl. assert (length dirs <= length (concat (map (fun d =>
                 replicate nb_features 0%R :: d) dirs)))%nat; [|lia].
      clear. induction dirs as [|d dirs IH]; simpl; [lia|].
      rewrite length_app. lia.
    - simpl. rewrite length_app. lia. }
  unfold forward_end. rewrite Hunpad, bind_Ok_l, Hdg, bind_Ok_l.
  unfold tensor_add, broadcast2.
  replace (length c =? length directions)%nat with false
    by (symmetry; apply Nat.eqb_neq; lia).
  destruct c as [|c0 [|c1 c]]; simpl in Hlt; try lia.
  destruct directions as [|d0 [|d1 directions]]; simpl in Hlen; try lia.
  reflexivity.
Qed.

Lemma X20_witness :
  forward_end (fun x => Ok x) "tracking" false 2 [2; 2]%Z
    (Some [[0 * 6; 0 * 6; 0 * 6]; [1 * 6; 0 * 6; 0 * 6];
           [0 * 6; 0 * 6; 0 * 6]; [0 * 6; 1 * 6; 0 * 6]]%R)
    [[[1; 1; 1]; [2; 2; 2]]; [[3; 3; 3]; [4; 4; 4]]]%R
  = Raise (RuntimeError "The size of tensor a must match the size of tensor b").
Proof.
  apply (X20_copy_prev_dir_does_not_fit_tracking_outputs
           (fun _ => Raise (NotImplementedError "")) (fun x => Ok x) 3
           "cosine-regression" [[[1; 0; 0]]; [[0; 1; 0]]]%R _ false 2
           [2; 2]%Z _ [[2; 2; 2]; [4; 4; 4]]%R [[2; 2; 2]; [4; 4; 4]]%R).
  - reflexivity.
  - unfold copy_prev_dir.
    assert (contains "regression" "cosine-regression" = true) as ->
      by reflexivity.
    rewrite bind_Ok_l.
    rewrite (mapM_map _ (fun d => replicate 3 0%R :: d))
      by (repeat constructor; apply pad_one_before; lia).
    reflexivity.
  - reflexivity.
  - reflexivity.
  - reflexivity.
  - simpl. lia.
  - constructor. discriminate.
Defined.

End CopyPreviousDirection.

(** ** Unpadding the outputs *)

Lemma getitem_nonneg {A : Type} (t : list A) (i : Z) (a : A) :
  (0 <= i)%Z -> t !! Z.to_nat i = Some a -> getitem t i = Ok a.
Proof.
  intros Hi Ha. unfold getitem.
  assert ((i <? 0)%Z = false) as Hf by (apply Z.ltb_ge; lia).
  rewrite Hf. cbv zeta. now rewrite Hf, Ha.
Qed.

Lemma getitem_last {A : Type} (t : list A) (a : A) :
  last t = Some a -> getitem t (-1) = Ok a.
Proof.
  intros Hl. unfold getitem. simpl.
  assert (t <> []) as Hne by (intros ->; discriminate).
  assert (0 < length t)%nat by (destruct t; [contradiction | simpl; lia]).
  replace (Z.of_nat (length t) + -1 <? 0)%Z with false
    by (symmetry; apply Z.ltb_ge; lia).
  rewrite last_lookup in Hl.
  replace (Z.to_nat (Z.of_nat (length t) + -1)) with (pred (length t)) by lia.
  now rewrite Hl.
Qed.

Lemma mapM_compose {A B C : Type} (h : B -> res C) (k : A -> B) (l : list A) :
  mapM h (map k l) = mapM (fun a => h (k a)) l.
Proof. induction l as [|a l IH]; [reflexivity|]. simpl. now rewrite IH. Qed.

Lemma mapM_seq_zip {A B C : Type} (h : nat -> res C) (g : A -> B -> C)
    (xs : list A) (ys : list B) :
  length xs = length ys ->
  (forall i x y, xs !! i = Some x -> ys !! i = Some y -> h i = Ok (g x y)) ->
  mapM h (seq 0 (length xs)) = Ok (zip_with g xs ys).
Proof.
  revert ys h. induction xs as [|x xs IH]; intros [|y ys] h Hlen Hh;
    try discriminate; [reflexivity|].
  simpl. rewrite (Hh 0%nat x y eq_refl eq_refl), bind_Ok_l.
  rewrite <- seq_shift, mapM_compose.
  rewrite (IH ys (fun i => h (S i))); [reflexivity | now injection Hlen |].
  intros i x' y' Hx Hy. now apply (Hh (S i)).
Qed.

Lemma pieces_concat (blocks : list matrix) :
  pieces (concat blocks) (map length blocks) = blocks.
Proof.
  induction blocks as [|b blocks IH]; [reflexivity|].
  simpl. rewrite take_app_length, drop_app_length. now rewrite IH.
Qed.

Lemma map_concat_blocks (g : vector -> vector) (blocks : list matrix) :
  map g (concat blocks) = concat (map (map g) blocks).
Proof.
  induction blocks as [|b blocks IH]; [reflexivity|].
  simpl. now rewrite map_app, IH.
Qed.

Lemma sum_lengths (lens : list Z) (blocks : list matrix) :
  Forall2 (fun l b => Z.of_nat (length b) = l) lens blocks ->
  fold_right Z.add 0%Z lens = Z.of_nat (length (concat blocks)) /\
  map Z.to_nat lens = map length blocks /\
  existsb (fun s => (s <? 0)%Z) lens = false.
Proof.
  induction 1 as [|l b lens blocks Hl _ (IH1 & IH2 & IH3)];
    [repeat split; reflexivity|].
  simpl. rewrite length_app, IH1, IH2, IH3. repeat split; try lia.
  f_equal. lia.
Qed.

Section Unpadding.

Import AbstractTransformerModelEnd.

(** X21. Outside the tracking context, what [forward] returns after the
    main layers is cut back per streamline: for a direction getter that
    works row by row, the result is one tensor per streamline, holding the
    direction getter's outputs for the first [unpad_lengths[i]] points of
    streamline i and nothing of the padded positions. Stacking all kept
    points and splitting them again by the lengths loses and mixes
    nothing. *)
Theorem X21_outputs_are_cut_back_per_streamline
    (g : vector -> vector) (context : string) (use_padding : bool)
    (nb_streamlines d : nat) (unpad_lengths : list Z)
    (outputs : list matrix) :
  context <> "tracking" ->
  nb_streamlines = length unpad_lengths -> nb_streamlines <> 0%nat ->
  Forall2 (fun l out => (0 <= l <= Z.of_nat (length out))%Z) unpad_lengths
          outputs ->
  Forall (fun out => Forall (fun row => length row = d) out) outputs ->
  forward_end (fun x => Ok (map g x)) context use_padding nb_streamlines
    unpad_lengths None outputs
  = Ok (inr (zip_with (fun l out => map g (take (Z.to_nat l) out))
               unpad_lengths outputs)).
Proof.
  intros Hctx -> Hn Hlens Hrows.
  pose proof (Forall2_length _ _ _ Hlens) as Hlen.
  set (blocks := zip_with (fun l out => take (Z.to_nat l) out) unpad_lengths
                   outputs).
  assert (Forall2 (fun l b => Z.of_nat (length b) = l) unpad_lengths blocks)
    as Hblocks.
  { subst blocks. clear -Hlens.
    induction Hlens as [|l out lens outs Hl _ IH]; constructor; [|exact IH].
    rewrite length_take. lia. }
  destruct (sum_lengths _ _ Hblocks) as (Hsum & Hsizes & Hneg).
  assert (unpad_outputs context use_padding (length unpad_lengths) unpad_lengths
            outputs = Ok (concat blocks)) as Hunpad.
  { unfold unpad_outputs.
    replace (String.eqb context "tracking") with false
      by (symmetry; now apply String.eqb_neq).
    rewrite (mapM_seq_zip _ (fun l out => take (Z.to_nat l) out) unpad_lengths
               outputs Hlen).
    - rewrite bind_Ok_l. apply (vstack_blocks_uniform d).
      + subst blocks. destruct unpad_lengths; [contradiction|].
        destruct outputs; discriminate.
      + subst blocks. clear -Hrows Hlens.
        induction Hlens as [|l out lens outs Hl _ IH]; constructor.
        * apply Forall_inv in Hrows. now apply Forall_take.
        * apply IH. now apply Forall_inv_tail in Hrows.
    - intros i l out Hl Hout.
      rewrite (getitem_nonneg unpad_lengths (Z.of_nat i) l)
        by (lia || (rewrite Nat2Z.id; assumption)).
      rewrite bind_Ok_l.
      rewrite (getitem_nonneg outputs (Z.of_nat i) out)
        by (lia || (rewrite Nat2Z.id; assumption)).
      rewrite bind_Ok_l. unfold slice_to.
      pose proof (Forall2_lookup_lr _ _ _ _ _ _ Hlens Hl Hout) as Hb.
      simpl in Hb.
      now replace (l <? 0)%Z with false by (symmetry; apply Z.ltb_ge; lia). }
  unfold forward_end. rewrite Hunpad, !bind_Ok_l.
  replace (String.eqb context "tracking") with false
    by (symmetry; now apply String.eqb_neq).
  simpl negb. cbv iota. unfold split. rewrite Hneg, Hsum, length_map, Z.eqb_refl.
  simpl negb. cbv iota. rewrite bind_Ok_l. do 2 f_equal.
  rewrite Hsizes, map_concat_blocks.
  replace (map length blocks) with (map length (map (map g) blocks))
    by (rewrite map_map; apply map_ext; intros; apply length_map).
  rewrite pieces_concat. subst blocks. clear.
  revert outputs. induction unpad_lengths as [|l lens IH]; intros [|out outs];
    try reflexivity.
  simpl. now rewrite IH.
Qed.

Lemma X21_witness :
  forward_end (fun x => Ok (map (scale 2) x)) "training" true 2 [2; 1]%Z None
    [[[1]; [2]]; [[3]; [0]]]%R
  = Ok (inr [[scale 2 [1]; scale 2 [2]]; [scale 2 [3]]]%R).
Proof.
  apply (X21_outputs_are_cut_back_per_streamline (scale 2) "training" true 2 1
           [2; 1]%Z [[[1]; [2]]; [[3]; [0]]]%R).
  - discriminate.
  - reflexivity.
  - discriminate.
  - repeat constructor; simpl; lia.
  - repeat constructor.
Defined.

(** X22. In the tracking context one row per streamline is kept: with
    padding, the output at the last unpadded point,
    [outputs[i, unpad_lengths[i] - 1]]; and the shortcut taken without
    padding, [outputs[:, -1]], returns the same rows whenever every
    streamline fills its tensor. *)
Theorem X22_tracking_keeps_the_last_unpadded_point
    (nb_streamlines d : nat) (unpad_lengths : list Z)
    (outputs : list matrix) :
  nb_streamlines = length unpad_lengths -> nb_streamlines <> 0%nat ->
  Forall2 (fun l out => (1 <= l <= Z.of_nat (length out))%Z) unpad_lengths
          outputs ->
  Forall (fun out => Forall (fun row => length row = d) out) outputs ->
  let last_points :=
    zip_with (fun l out => nth (Z.to_nat (l - 1)) out []) unpad_lengths
             outputs in
  unpad_outputs "tracking" true nb_streamlines unpad_lengths outputs
  = Ok last_points /\
  length last_points = nb_streamlines /\
  (Forall2 (fun l out => l = Z.of_nat (length out)) unpad_lengths outputs ->
   unpad_outputs "tracking" false nb_streamlines unpad_lengths outputs
   = Ok last_points).
Proof.
  intros -> Hn Hlens Hrows last_points.
  pose proof (Forall2_length _ _ _ Hlens) as Hlen.
  assert (forall l (out : matrix),
             (1 <= l <= Z.of_nat (length out))%Z ->
             out !! Z.to_nat (l - 1) = Some (nth (Z.to_nat (l - 1)) out []))
    as Hnth.
  { intros l out Hl.
    destruct (lookup_lt_is_Some_2 out (Z.to_nat (l - 1)) ltac:(lia))
      as [row Hrow].
    now rewrite nth_lookup, Hrow. }
  split; [|split].
  - unfold unpad_outputs. simpl String.eqb. cbv iota.
    rewrite (mapM_seq_zip _ (fun l out => nth (Z.to_nat (l - 1)) out [])
               unpad_lengths outputs Hlen).
    + rewrite bind_Ok_l. fold last_points.
      assert (Forall (fun row => length row = d) last_points) as Hd.
      { subst last_points. clear -Hrows Hlens Hnth.
        induction Hlens as [|l out lens outs Hl _ IH]; constructor.
        - apply Forall_inv in Hrows. rewrite Forall_forall in Hrows.
          apply Hrows. eapply list_elem_of_lookup_2. now apply Hnth.
        - apply IH. now apply Forall_inv_tail in Hrows. }
      unfold vstack. destruct last_points as [|r rows] eqn:Hlp.
      * subst last_points. destruct unpad_lengths; [contradiction|].
        destruct outputs; discriminate.
      * replace (forallb _ (r :: rows)) with true; [reflexivity|].
        symmetry. apply forallb_forall. intros r' Hr'. apply Nat.eqb_eq.
        rewrite Forall_forall in Hd.
        rewrite (Hd r' (proj2 (list_elem_of_In _ _) Hr')).
        symmetry. apply Hd. left.
    + intros i l out Hl Hout.
      rewrite (getitem_nonneg unpad_lengths (Z.of_nat i) l)
        by (lia || (rewrite Nat2Z.id; assumption)).
      rewrite bind_Ok_l.
      rewrite (getitem_nonneg outputs (Z.of_nat i) out)
        by (lia || (rewrite Nat2Z.id; assumption)).
      rewrite bind_Ok_l.
      pose proof (Forall2_lookup_lr _ _ _ _ _ _ Hlens Hl Hout) as Hb.
      simpl in Hb. apply getitem_nonneg; [lia | now apply Hnth].
  - subst last_points. rewrite length_zip_with. lia.
  - intros Hfull. unfold unpad_outputs. simpl String.eqb. cbv iota.
    subst last_points. clear -Hlens Hfull Hnth.
    induction Hlens as [|l out lens outs Hl Hlens IH]; [reflexivity|].
    apply Forall2_cons_1 in Hfull as [-> Hfull].
    simpl. rewrite (getitem_last out (nth (Z.to_nat (Z.of_nat (length out) - 1)) out [])).
    + rewrite bind_Ok_l, (IH Hfull). reflexivity.
    + rewrite last_lookup.
      replace (pred (length out)) with (Z.to_nat (Z.of_nat (length out) - 1))
        by lia.
      now apply Hnth.
Qed.

Lemma X22_witness :
  unpad_outputs "tracking" true 2 [2; 1]%Z [[[1]; [2]]; [[3]; [0]]]%R
  = Ok [[2]; [3]]%R.
Proof.
  apply (X22_tracking_keeps_the_last_unpadded_point 2 1 [2; 1]%Z
           [[[1]; [2]]; [[3]; [0]]]%R).
  - reflexivity.
  - discriminate.
  - repeat constructor; simpl; lia.
  - repeat constructor.
Defined.

End Unpadding.

(** ** Subjects of a dataset, loaded or lazy *)

Section SubjectContainers.

Variables Group MRIData SFTData LazyMRIData LazySFTData GroupInfo : Type.
Variable MRIData_init : Group -> res MRIData.
Variable SFTData_init : Group -> res SFTData.
Variable LazyMRIData_init : Group -> res LazyMRIData.
Variable LazySFTData_init : Group -> res LazySFTData.
Variable prepare_groups_info :
  string -> HdfFile Group -> option GroupInfo ->
  res (list string * list Z * list string).

Lemma hdf_group_missing (hdf_file : HdfFile Group) (subject_id group : string) :
  hdf_file !! subject_id = None ->
  hdf_group hdf_file subject_id group = Raise (KeyError subject_id).
Proof. intros H. unfold hdf_group. now rewrite H. Qed.

Lemma mapM_groups_inv {A : Type} (load : Group -> res A)
    (hdf_file : HdfFile Group) (subject_id : string) (groups : list string)
    (data : list A) :
  mapM (fun group => g ← hdf_group hdf_file subject_id group; load g) groups
  = Ok data ->
  length data = length groups /\
  Forall (fun group => returns (hdf_group hdf_file subject_id group)) groups.
Proof.
  intros H. split; [now apply mapM_length in H|].
  apply mapM_Ok in H. induction H as [|group a groups data Ha _ IH];
    constructor; [|exact IH].
  apply bind_Ok in Ha as (g & Hg & _). now exists g.
Qed.

Lemma mapM_groups_total {A : Type} (load : Group -> res A)
    (hdf_file : HdfFile Group) (subject_id : string) (groups : list string) :
  Forall (fun group => returns (hdf_group hdf_file subject_id group)) groups ->
  (forall g, returns (load g)) ->
  returns (mapM (fun group => g ← hdf_group hdf_file subject_id group; load g)
             groups).
Proof.
  intros Hgroups Hload. apply mapM_total.
  eapply Forall_impl; [exact Hgroups|]. simpl.
  intros group [g ->]. rewrite bind_Ok_l. apply Hload.
Qed.

(** X23. A lazy subject reads its data only through a handle: right after
    [init_from_hdf] both data lists are None; [with_handle] keeps the
    groups, the features and the subject id, and with a handle the list of
    volumes, when it can be read, has one entry per volume group (and one
    per streamline group for the streamlines); taking the handle away
    gives back the subject as it was created. *)
Theorem X23_lazy_subject_reads_data_only_through_a_handle
    (subject_id : string) (hdf_file : HdfFile Group)
    (group_info : option GroupInfo)
    (subj : LazySubjectData.LazySubjectData Group) :
  LazySubjectData.init_from_hdf Group GroupInfo prepare_groups_info
    subject_id hdf_file group_info = Ok subj ->
  LazySubjectData.mri_data_list Group LazyMRIData LazyMRIData_init subj
  = Ok None /\
  LazySubjectData.sft_data_list Group LazySFTData LazySFTData_init subj
  = Ok None /\
  LazySubjectData.subject_id Group subj = subject_id /\
  forall handle : HdfFile Group,
    let opened := LazySubjectData.with_handle Group subj (Some handle) in
    LazySubjectData.volume_groups Group opened
    = LazySubjectData.volume_groups Group subj /\
    LazySubjectData.nb_features Group opened
    = LazySubjectData.nb_features Group subj /\
    LazySubjectData.streamline_groups Group opened
    = LazySubjectData.streamline_groups Group subj /\
    LazySubjectData.subject_id Group opened = subject_id /\
    (forall volumes,
        LazySubjectData.mri_data_list Group LazyMRIData LazyMRIData_init
          opened = Ok volumes ->
        exists l, volumes = Some l /\
                  length l = length (LazySubjectData.volume_groups Group subj)) /\
    (forall streamlines,
        LazySubjectData.sft_data_list Group LazySFTData LazySFTData_init
          opened = Ok streamlines ->
        exists l, streamlines = Some l /\
                  length l
                  = length (LazySubjectData.streamline_groups Group subj)) /\
    LazySubjectData.with_handle Group opened None = subj.
Proof.
  unfold LazySubjectData.init_from_hdf. intros H.
  apply bind_Ok in H as ([[volume_groups nb_features] streamline_groups]
                         & Hprep & H).
  injection H as <-.
  split; [reflexivity|]. split; [reflexivity|]. split; [reflexivity|].
  intros handle. cbv zeta. repeat split.
  - unfold LazySubjectData.mri_data_list. simpl. intros volumes H.
    apply bind_Ok in H as (l & Hl & H). injection H as <-.
    exists l. split; [reflexivity|]. now apply mapM_length in Hl.
  - unfold LazySubjectData.sft_data_list. simpl. intros streamlines H.
    apply bind_Ok in H as (l & Hl & H). injection H as <-.
    exists l. split; [reflexivity|]. now apply mapM_length in Hl.
Qed.

(** X24. The loaded and the lazy subject of the same file agree and
    differ as follows. When the loaded subject can be built, the lazy one
    can too, with the same groups, features and id; the loaded subject
    holds one volume per volume group and one streamline set per
    streamline group, and the lazy one, given the file as handle, reads
    the same groups without KeyError. When the subject is missing from the
    file and a volume group is expected, building the loaded subject
    raises KeyError, while the lazy subject is built and the KeyError
    comes when its volumes are read. *)
Theorem X24_loaded_and_lazy_subjects_of_one_file
    (subject_id : string) (hdf_file : HdfFile Group)
    (group_info : option GroupInfo) :
  (forall subj : SubjectData.SubjectData MRIData SFTData,
      SubjectData.init_from_hdf Group MRIData SFTData GroupInfo MRIData_init
        SFTData_init prepare_groups_info subject_id hdf_file group_info
      = Ok subj ->
      exists lazy volumes streamlines,
        LazySubjectData.init_from_hdf Group GroupInfo prepare_groups_info
          subject_id hdf_file group_info = Ok lazy /\
        LazySubjectData.volume_groups Group lazy
        = SubjectData.volume_groups MRIData SFTData subj /\
        LazySubjectData.nb_features Group lazy
        = SubjectData.nb_features MRIData SFTData subj /\
        LazySubjectData.streamline_groups Group lazy
        = SubjectData.streamline_groups MRIData SFTData subj /\
        LazySubjectData.subject_id Group lazy
        = SubjectData.subject_id MRIData SFTData subj /\
        SubjectData.mri_data_list MRIData SFTData subj = Some volumes /\
        SubjectData.sft_data_list MRIData SFTData subj = Some streamlines /\
        length volumes
        = length (SubjectData.volume_groups MRIData SFTData subj) /\
        length streamlines
        = length (SubjectData.streamline_groups MRIData SFTData subj) /\
        ((forall g, returns (LazyMRIData_init g)) ->
         exists lazy_volumes,
           LazySubjectData.mri_data_list Group LazyMRIData LazyMRIData_init
             (LazySubjectData.with_handle Group lazy (Some hdf_file))
           = Ok (Some lazy_volumes) /\
           length lazy_volumes = length volumes)) /\
  (forall group volume_groups nb_features streamline_groups,
      prepare_groups_info subject_id hdf_file group_info
      = Ok (group :: volume_groups, nb_features, streamline_groups) ->
      hdf_file !! subject_id = None ->
      SubjectData.init_from_hdf Group MRIData SFTData GroupInfo MRIData_init
        SFTData_init prepare_groups_info subject_id hdf_file group_info
      = Raise (KeyError subject_id) /\
      exists lazy,
        LazySubjectData.init_from_hdf Group GroupInfo prepare_groups_info
          subject_id hdf_file group_info = Ok lazy /\
        LazySubjectData.mri_data_list Group LazyMRIData LazyMRIData_init
          (LazySubjectData.with_handle Group lazy (Some hdf_file))
        = Raise (KeyError subject_id)).
Proof.
  split.
  - unfold SubjectData.init_from_hdf. intros subj H.
    apply bind_Ok in H as ([[volume_groups nb_features] streamline_groups]
                           & Hprep & H).
    apply bind_Ok in H as (volumes & Hv & H).
    apply bind_Ok in H as (streamlines & Hs & H). injection H as <-.
    apply mapM_groups_inv in Hv as [Hvlen Hvgroups].
    apply mapM_groups_inv in Hs as [Hslen _].
    eexists. exists volumes, streamlines.
    split.
    { unfold LazySubjectData.init_from_hdf. rewrite Hprep. reflexivity. }
    simpl. repeat split; try assumption.
    intros Hload.
    destruct (mapM_groups_total LazyMRIData_init hdf_file subject_id
                volume_groups Hvgroups Hload) as [lazy_volumes Hl].
    exists lazy_volumes. unfold LazySubjectData.mri_data_list. simpl.
    rewrite Hl. split; [reflexivity|]. apply mapM_length in Hl. congruence.
  - intros group volume_groups nb_features streamline_groups Hprep Hmiss.
    split.
    + unfold SubjectData.init_from_hdf. rewrite Hprep. simpl.
      now rewrite (hdf_group_missing _ _ _ Hmiss).
    + eexists. split.
      * unfold LazySubjectData.init_from_hdf. rewrite Hprep. reflexivity.
      * unfold LazySubjectData.mri_data_list. simpl.
        now rewrite (hdf_group_missing _ _ _ Hmiss).
Qed.

End SubjectContainers.

Lemma X23_witness :
  exists subj,
    LazySubjectData.init_from_hdf unit unit
      (fun _ _ _ => Ok (["input"], [3%Z], ["streamlines"])) "subj1" ∅ None
    = Ok subj /\
    LazySubjectData.mri_data_list unit unit (fun g => Ok g) subj = Ok None.
Proof.
  eexists. split; [reflexivity|].
  eapply (X23_lazy_subject_reads_data_only_through_a_handle unit unit unit
            unit (fun g => Ok g) (fun g => Ok g)
            (fun _ _ _ => Ok (["input"], [3%Z], ["streamlines"])) "subj1" ∅
            None).
  reflexivity.
Defined.

Lemma X24_witness :
  SubjectData.init_from_hdf unit unit unit unit (fun g => Ok g)
    (fun g => Ok g) (fun _ _ _ => Ok (["input"], [3%Z], ["streamlines"]))
    "subj1" ∅ None
  = Raise (KeyError "subj1").
Proof.
  eapply (proj1 (proj2 (X24_loaded_and_lazy_subjects_of_one_file unit unit
                          unit unit unit (fun g => Ok g) (fun g => Ok g)
                          (fun g => Ok g)
                          (fun _ _ _ =>
                             Ok (["input"], [3%Z], ["streamlines"]))
                          "subj1" ∅ None) _ _ _ _ eq_refl
                   (lookup_empty "subj1"))).
Defined.

(** ** The loss of the L2 regression head *)

Lemma l2_init_loss w i d self :
  L2RegressionDirectionGetter.__init__ w i d = Ok self ->
  self !! "loss" = Some (VLoss "PairwiseDistance").
Proof.
  unfold L2RegressionDirectionGetter.__init__. intros H. init_inv H.
  unfold setattr. now simplify_map_eq.
Qed.

Lemma compute_loss_points (self : object) (learned target : matrix) :
  self !! "loss" = Some (VLoss "PairwiseDistance") ->
  length learned = length target ->
  Forall (fun p => length p = 3%nat) learned ->
  Forall (fun p => length p = 3%nat) target ->
  L2RegressionDirectionGetterLoss.compute_loss self learned target
  = Ok (mean (zip_with l2_loss learned target)).
Proof.
  intros Hloss Hlen Hl Ht. unfold L2RegressionDirectionGetterLoss.compute_loss,
    getattr. rewrite Hloss. simpl.
  now rewrite (PairwiseDistance_points _ _ Hlen Hl Ht).
Qed.

Lemma l2_loss_self (x : vector) :
  length x = 3%nat -> l2_loss x x = (sqrt 3 * pairwise_eps)%R.
Proof.
  intros Hx. destruct x as [|a [|b [|c [|? ?]]]]; try discriminate.
  pose proof pairwise_eps_pos as He.
  rewrite <- (sqrt_square (l2_loss [a; b; c] [a; b; c]))
    by (unfold l2_loss; apply sqrt_pos).
  rewrite l2_loss_sq.
  replace ((a - a + pairwise_eps) * (a - a + pairwise_eps)
           + (b - b + pairwise_eps) * (b - b + pairwise_eps)
           + (c - c + pairwise_eps) * (c - c + pairwise_eps))%R
    with (3 * (pairwise_eps * pairwise_eps))%R by ring.
  rewrite sqrt_mult by nra.
  now rewrite sqrt_square by lra.
Qed.

Lemma l2_loss_nonneg (x y : vector) : (0 <= l2_loss x y)%R.
Proof. unfold l2_loss. apply sqrt_pos. Qed.

Lemma mean_nonneg (t : vector) :
  t <> [] -> Forall (fun d => (0 <= d)%R) t -> (0 <= mean t)%R.
Proof.
  intros Hne Hpos. unfold mean. apply Rmult_le_pos; [now apply Rsum_nonneg|].
  left. apply Rinv_0_lt_compat, lt_0_INR. destruct t; [contradiction|simpl; lia].
Qed.

Lemma mean_constant (c : R) (t : vector) :
  t <> [] -> Forall (fun d => d = c) t -> mean t = c.
Proof.
  intros Hne Hall. unfold mean.
  assert (Rsum t = INR (length t) * c)%R as ->.
  { clear Hne. induction Hall as [|d t -> _ IH]; [simpl; unfold Rsum; simpl; ring|].
    change (Rsum (c :: t)) with (c + Rsum t)%R. rewrite IH.
    change (length (c :: t)) with (S (length t)). rewrite S_INR. ring. }
  field. apply not_0_INR. destruct t; [contradiction|discriminate].
Qed.

(** X25. The loss of an L2 regression head built by its constructor, on
    N >= 1 learned and target directions in 3D, is the mean of torch's
    pairwise distances and is never negative; on a perfect prediction it is
    not 0 but sqrt(3) * 1e-6, the distance PairwiseDistance gives two equal
    points. *)
Theorem X25_l2_loss_of_a_perfect_prediction_is_not_zero
    (w : nat -> LinearInit) (input_size : Z) (dropout : option R)
    (self : object) (learned target : matrix) (N : nat) :
  L2RegressionDirectionGetter.__init__ w input_size dropout = Ok self ->
  N <> 0%nat -> has_shape N 3 learned -> has_shape N 3 target ->
  (exists loss,
      L2RegressionDirectionGetterLoss.compute_loss self learned target
      = Ok loss /\
      loss = mean (zip_with l2_loss learned target) /\ (0 <= loss)%R) /\
  L2RegressionDirectionGetterLoss.compute_loss self target target
  = Ok (sqrt 3 * pairwise_eps)%R /\
  (0 < sqrt 3 * pairwise_eps)%R.
Proof.
  intros Hinit HN [Hll Hl3] [Htl Ht3]. apply l2_init_loss in Hinit.
  assert (target <> []) as Hne by (intros ->; simpl in Htl; congruence).
  split; [|split].
  - eexists. split; [apply compute_loss_points; congruence|].
    split; [reflexivity|]. apply mean_nonneg.
    + destruct learned, target; simpl in *; congruence.
    + clear. revert target.
      induction learned as [|x learned IH]; intros [|y target]; simpl;
        constructor; [apply l2_loss_nonneg | apply IH].
  - rewrite compute_loss_points by (assumption || reflexivity). f_equal.
    apply mean_constant.
    + destruct target; [contradiction | discriminate].
    + clear -Ht3. induction Ht3 as [|x target Hx _ IH]; simpl; constructor;
        [now apply l2_loss_self | exact IH].
  - apply Rmult_lt_0_compat; [apply sqrt_lt_R0; lra | apply pairwise_eps_pos].
Qed.

Lemma X25_witness :
  exists self,
    L2RegressionDirectionGetter.__init__ zero_init 2 None = Ok self /\
    L2RegressionDirectionGetterLoss.compute_loss self [[1; 0; 0]]%R
      [[1; 0; 0]]%R = Ok (sqrt 3 * pairwise_eps)%R.
Proof.
  assert (has_shape 1 3 [[1; 0; 0]]%R) as Hshape.
  { split; [reflexivity|]. repeat constructor. }
  eexists. split; [reflexivity|].
  apply (X25_l2_loss_of_a_perfect_prediction_is_not_zero zero_init 2 None _
           [[1; 0; 0]]%R [[1; 0; 0]]%R 1 eq_refl ltac:(discriminate) Hshape
           Hshape).
Defined.

Section TrackingLossIsL2Loss.

Import DWIMLTrainerForTrackingOneInput.

(** X26. The mean loss of the tracking validation is the loss of the L2
    regression head, applied to the final points: when the propagation
    returns one non-empty 3D streamline per line of the batch, the first
    component of what [generate_from_one_batch] returns is what
    [compute_loss] of an L2 head returns on the final points of the
    generated lines, as learned directions, and those of the true lines,
    as targets. *)
Theorem X26_tracking_loss_is_l2_loss_of_final_points (Parent Ids : Type)
    (propagation : R -> list matrix -> Ids -> res (list matrix))
    (self : Trainer Parent) (lines generated : list matrix) (ids : Ids)
    (step_size : R) (w : nat -> LinearInit) (input_size : Z)
    (dropout : option R) (head : object) :
  L2RegressionDirectionGetter.__init__ w input_size dropout = Ok head ->
  model_step_size Parent self = Some step_size ->
  propagation step_size
    (seed_lines (tracking_phase_nb_steps_init Parent self) lines) ids
  = Ok generated ->
  streamlines_3d lines -> streamlines_3d generated ->
  length generated = length lines ->
  exists mean_loss IS_ratio,
    generate_from_one_batch Parent Ids propagation self (lines, ids)
    = Ok (mean_loss, length generated, IS_ratio) /\
    L2RegressionDirectionGetterLoss.compute_loss head (final_points generated)
      (final_points lines) = Ok mean_loss.
Proof.
  intros Hinit Hstep Hprop Hlines Hgen Hlen. apply l2_init_loss in Hinit.
  destruct (streamlines_final_points lines Hlines) as (Hlast & Hne & H3).
  destruct (streamlines_final_points generated Hgen) as (Hlast' & Hne' & H3').
  assert (length (final_points generated) = length (final_points lines))
    as Hlenf by (unfold final_points; now rewrite !length_map).
  eexists. eexists. split.
  - unfold generate_from_one_batch. rewrite Hlast. simpl.
    rewrite (vstack_points _ Hne H3). simpl.
    unfold propagate_multiple_lines. rewrite Hstep.
    fold (seed_lines (tracking_phase_nb_steps_init Parent self) lines).
    rewrite Hprop. simpl. rewrite Hlast'. simpl.
    rewrite (vstack_points _ Hne' H3'). simpl.
    rewrite (PairwiseDistance_points _ _ Hlenf H3' H3). reflexivity.
  - now rewrite compute_loss_points.
Qed.

Lemma X26_witness :
  exists head mean_loss IS_ratio,
    L2RegressionDirectionGetter.__init__ zero_init 2 None = Ok head /\
    generate_from_one_batch unit unit (fun _ _ _ => Ok [far_line])
      fresh_trainer ([truth_line], tt) = Ok (mean_loss, 1%nat, IS_ratio) /\
    L2RegressionDirectionGetterLoss.compute_loss head (final_points [far_line])
      (final_points [truth_line]) = Ok mean_loss.
Proof.
  assert (streamlines_3d [truth_line]) as Ht.
  { split; [discriminate|]. repeat constructor; discriminate. }
  assert (streamlines_3d [far_line]) as Hf.
  { split; [discriminate|]. repeat constructor; discriminate. }
  eexists.
  destruct (X26_tracking_loss_is_l2_loss_of_final_points unit unit
              (fun _ _ _ => Ok [far_line]) fresh_trainer [truth_line]
              [far_line] tt 1%R zero_init 2 None _ eq_refl eq_refl eq_refl
              Ht Hf eq_refl) as (mean_loss & IS_ratio & Hg & Hl).
  exists mean_loss, IS_ratio. split; [reflexivity|]. split; assumption.
Defined.

End TrackingLossIsL2Loss.
